(** * tap-sailthru: the job-export pipeline and the list-members sync loop

    A shallow embedding of [tap_sailthru/streams.py].  Python dictionaries
    are insertion-ordered association lists, exceptions are values of
    [Exn], and every effect the code performs (log lines, sleeps, Singer
    messages, child syncs, yields of a generator) is an item of the trace a
    computation returns next to its outcome. *)

From Stdlib Require Import String Ascii List ZArith Bool Lia DecimalString.
Import ListNotations.

#[local] Open Scope string_scope.
#[local] Open Scope list_scope.
#[local] Open Scope Z_scope.

(* ================================================================== *)
(** * Part I: definitions                                              *)
(* ================================================================== *)

(** ** Python values and dictionaries *)

Module Py.

(** The values the modelled code inspects: [None], [str], [int], and the
    list of [{'var_name': k, 'var_value': v}] dictionaries that
    [ListMemberStream.post_process] stores under ['custom_vars']. *)
Inductive Value : Type :=
| VNone
| VStr (s : string)
| VInt (n : Z)
| VVars (vars : list (string * string)).

Definition Dict : Type := list (string * Value).

Fixpoint vars_eqb (a b : list (string * string)) : bool :=
  match a, b with
  | [], [] => true
  | (k, v) :: a', (k', v') :: b' =>
      String.eqb k k' && String.eqb v v' && vars_eqb a' b'
  | _, _ => false
  end.

(** Python's [==] on values. *)
Definition Value_eqb (a b : Value) : bool :=
  match a, b with
  | VNone, VNone => true
  | VStr s, VStr t => String.eqb s t
  | VInt n, VInt m => Z.eqb n m
  | VVars l, VVars m => vars_eqb l m
  | _, _ => false
  end.

(** Truthiness: [None], [''], [0] and [[]] are falsy. *)
Definition truthy (v : Value) : bool :=
  match v with
  | VNone => false
  | VStr s => negb (String.eqb s "")
  | VInt n => negb (Z.eqb n 0)
  | VVars l => match l with [] => false | _ => true end
  end.

Definition str_of_Z (n : Z) : string := NilZero.string_of_int (Z.to_int n).

Definition repr_var (kv : string * string) : string :=
  "{'var_name': '" ++ fst kv ++ "', 'var_value': '" ++ snd kv ++ "'}".

(** [str(v)]. *)
Definition str (v : Value) : string :=
  match v with
  | VNone => "None"
  | VStr s => s
  | VInt n => str_of_Z n
  | VVars l => "[" ++ String.concat ", " (map repr_var l) ++ "]"
  end.

(** [k in d] and [d[k]] before the [KeyError] is raised. *)
Fixpoint lookup (d : Dict) (k : string) : option Value :=
  match d with
  | [] => None
  | (k', v) :: d' => if String.eqb k k' then Some v else lookup d' k
  end.

Definition contains (d : Dict) (k : string) : bool :=
  match lookup d k with Some _ => true | None => false end.

(** [d.get(k)]: [None] when the key is absent. *)
Definition get (d : Dict) (k : string) : Value :=
  match lookup d k with Some v => v | None => VNone end.

(** [d[k] = v]: an existing key keeps its position, a new one is appended. *)
Fixpoint setitem (d : Dict) (k : string) (v : Value) : Dict :=
  match d with
  | [] => [(k, v)]
  | (k', v') :: d' =>
      if String.eqb k k' then (k', v) :: d' else (k', v') :: setitem d' k v
  end.

(** [d.update(other)]. *)
Definition update (d other : Dict) : Dict :=
  fold_left (fun acc kv => setitem acc (fst kv) (snd kv)) other d.

Fixpoint submap (a b : Dict) : bool :=
  match a with
  | [] => true
  | (k, v) :: a' =>
      match lookup b k with
      | Some w => Value_eqb v w && submap a' b
      | None => false
      end
  end.

(** [a == b] on dictionaries: the same keys with equal values, in any order. *)
Definition Dict_eqb (a b : Dict) : bool :=
  Nat.eqb (length a) (length b) && submap a b.

(** [a == b] where either side may be [None]. *)
Definition opt_Dict_eqb (a b : option Dict) : bool :=
  match a, b with
  | None, None => true
  | Some x, Some y => Dict_eqb x y
  | _, _ => false
  end.

(** The exceptions that occur in the modelled code. *)
Inductive Exn : Type :=
| KeyError (key : string)
| TypeError
| ValueError
| ZeroDivisionError
| RuntimeError
| TimeoutError
| MaxRetryError
| ChunkedEncodingError
| SailthruClientError
| SailthruJobTimeoutError
| InvalidStreamSortException
| MaxRecordsLimitException.

Definition is_KeyError (e : Exn) : bool :=
  match e with KeyError _ => true | _ => false end.
Definition is_ValueError (e : Exn) : bool :=
  match e with ValueError => true | _ => false end.
Definition is_TimeoutError (e : Exn) : bool :=
  match e with TimeoutError => true | _ => false end.
Definition is_MaxRetryError (e : Exn) : bool :=
  match e with MaxRetryError => true | _ => false end.
Definition is_ChunkedEncodingError (e : Exn) : bool :=
  match e with ChunkedEncodingError => true | _ => false end.
Definition is_SailthruClientError (e : Exn) : bool :=
  match e with SailthruClientError => true | _ => false end.
Definition is_InvalidStreamSortException (e : Exn) : bool :=
  match e with InvalidStreamSortException => true | _ => false end.

(** How a call ends: it returns, it raises, or the model ran out of fuel
    before it did either (the code is still looping). *)
Inductive Outcome (A : Type) : Type :=
| Ok (a : A)
| Raise (e : Exn)
| OutOfFuel.

Arguments Ok {A} a.
Arguments Raise {A} e.
Arguments OutOfFuel {A}.

End Py.
Import Py.

(** ** Bookmarks, log lines and trace events *)

(** Modelled from the spec: the bookmark of one context (section 3 of the
    specification, "Bookmark (State)"): the highest replication-key value
    observed, the starting replication value written when the sync of the
    context starts, and the in-flight progress markers, a dictionary that
    is empty when the bookmark has none.  The store that holds the
    bookmarks lives in the SDK base class, which is not part of
    [streams.py]. *)
Record Bookmark : Type := {
  replication_key_value : option Value;
  starting_replication_value : option Value;
  progress_markers : Dict
}.

Definition empty_bookmark : Bookmark :=
  {| replication_key_value := None;
     starting_replication_value := None;
     progress_markers := [] |}.

(** Modelled from the spec: the bookmark store (section 6, "State
    checkpoint"): one bookmark for the stream as a whole and one per state
    partition context. *)
Record Store : Type := {
  stream_state : Bookmark;
  partition_states : list (Dict * Bookmark)
}.

Inductive Level : Type := INFO | ERROR | CRITICAL.

(** The log lines of [streams.py], with the values their f-strings
    interpolate. *)
Inductive LogMsg : Type :=
| JobReportStatus (status : Value)
| JobTimeoutExceeded (job_id : Value) (timeout : Z) (latest_status : Value)
| ChunkedEncodingStoppingEarly
| SkippingBlastId (blast_id : Value)
| SkippingListName (list_name : Value)
| SkippingList (list_name : Value)
| ClientErrorForUserId (id : Value)
| SortError (record_count partition_record_count : Z)
    (current_context state_partition_context : option Dict)
    (stream_name : string)
| RecordCount (record_count : Z) (context : option Dict).

Inductive Event : Type :=
| Log (level : Level) (msg : LogMsg)
| Sleep (seconds : Z)
| BackoffWait (tries : nat)
| StateMessage (snapshot : Store)
| RecordMessage (record : Dict)
| SyncChildren (child_context : Dict).

(** ** Computations: a trace and an outcome *)

Module Comp.

(** One item of a trace: an effect, or a value a generator yields. *)
Inductive Item (Y : Type) : Type :=
| Eff (e : Event)
| Yield (y : Y).

Arguments Eff {Y} e.
Arguments Yield {Y} y.

(** A computation that may yield values of type [Y] and ends with an
    outcome of type [A].  The trace holds what happened up to the point
    where the outcome was decided. *)
Definition t (Y A : Type) : Type := (list (Item Y) * Outcome A)%type.

Definition ret {Y A} (a : A) : t Y A := ([], Ok a).
Definition raise {Y A} (e : Exn) : t Y A := ([], Raise e).
Definition out_of_fuel {Y A} : t Y A := ([], OutOfFuel).
Definition emit {Y} (e : Event) : t Y unit := ([Eff e], Ok tt).
Definition yield {Y} (y : Y) : t Y unit := ([Yield y], Ok tt).
Definition log {Y} (l : Level) (m : LogMsg) : t Y unit := emit (Log l m).

Definition bind {Y A B} (c : t Y A) (k : A -> t Y B) : t Y B :=
  match snd c with
  | Ok a => let r := k a in (fst c ++ fst r, snd r)
  | Raise e => (fst c, Raise e)
  | OutOfFuel => (fst c, OutOfFuel)
  end.

(** The result of a call into a collaborator, as a computation. *)
Definition call {Y A} (r : Outcome A) : t Y A := ([], r).

(** [try: c  except <catches> as e: handler e]. *)
Definition try_except {Y A} (c : t Y A) (catches : Exn -> bool)
    (handler : Exn -> t Y A) : t Y A :=
  match snd c with
  | Raise e =>
      if catches e
      then let r := handler e in (fst c ++ fst r, snd r)
      else c
  | _ => c
  end.

(** [for y in g: s = body(s, y)], where [g] is a running generator with
    trace [items] and outcome [final].  The generator runs only as far as
    the loop asks: when the body raises, the rest of [items] never
    happens. *)
Fixpoint for_each {Y Y' S} (items : list (Item Y)) (final : Outcome unit)
    (body : S -> Y -> t Y' S) (s : S) : t Y' S :=
  match items with
  | [] =>
      match final with
      | Ok _ => ret s
      | Raise e => raise e
      | OutOfFuel => out_of_fuel
      end
  | Eff e :: rest =>
      bind (emit e) (fun _ => for_each rest final body s)
  | Yield y :: rest =>
      bind (body s y) (fun s' => for_each rest final body s')
  end.

(** The effects of a trace, and the values it yields. *)
Fixpoint effects {Y} (items : list (Item Y)) : list Event :=
  match items with
  | [] => []
  | Eff e :: rest => e :: effects rest
  | Yield _ :: rest => effects rest
  end.

Fixpoint yields {Y} (items : list (Item Y)) : list Y :=
  match items with
  | [] => []
  | Eff _ :: rest => yields rest
  | Yield y :: rest => y :: yields rest
  end.

End Comp.

Notation "x <- c1 ;; c2" := (Comp.bind c1 (fun x => c2))
  (at level 61, c1 at next level, right associativity).
Notation "c1 ;; c2" := (Comp.bind c1 (fun _ => c2))
  (at level 61, right associativity).

(** [d[k]], raising [KeyError]. *)
Definition getitem {Y} (d : Dict) (k : string) : Comp.t Y Value :=
  match lookup d k with
  | Some v => Comp.ret v
  | None => Comp.raise (KeyError k)
  end.

(** [context[k]] for a context that may be [None]. *)
Definition ctx_getitem {Y} (context : option Dict) (k : string)
    : Comp.t Y Value :=
  match context with
  | Some d => getitem d k
  | None => Comp.raise TypeError
  end.

(** [len(v)]. *)
Definition len {Y} (v : Value) : Comp.t Y Z :=
  match v with
  | VStr s => Comp.ret (Z.of_nat (String.length s))
  | VVars l => Comp.ret (Z.of_nat (List.length l))
  | VNone | VInt _ => Comp.raise TypeError
  end.

(** ** The decorator [backoff.on_exception]

    [backoff.on_exception(backoff.expo, exc, max_tries=n, factor=f)] wraps
    a callable: it calls it, and while the call raises [exc] and fewer than
    [n] tries were made it waits and calls it again.  [target k] is the
    [k]-th call of the wrapped callable. *)
Fixpoint on_exception_from {Y A} (remaining : nat) (retries : Exn -> bool)
    (target : nat -> Comp.t Y A) (tries : nat) : Comp.t Y A :=
  Comp.try_except (target tries) retries (fun e =>
    match remaining with
    | O => Comp.raise e
    | S remaining' =>
        Comp.emit (BackoffWait tries) ;;
        on_exception_from remaining' retries target (S tries)
    end).

Definition on_exception {Y A} (retries : Exn -> bool) (max_tries : nat)
    (target : nat -> Comp.t Y A) : Comp.t Y A :=
  on_exception_from (max_tries - 1) retries target 1%nat.

(** A generator object: the suspended body of a generator function.  It
    runs when it is iterated, from the number of downloads made so far,
    and returns its trace with the number of downloads made after it. *)
Definition Generator (Y : Type) : Type := nat -> Comp.t Y unit * nat.

(** Calling a generator function runs none of its body: the call returns
    the generator object and cannot raise. *)
Definition call_generator_function {Y Y'} (g : Generator Y)
    : Comp.t Y' (Generator Y) :=
  Comp.ret g.

(** ** Nested rows: JSON values, mappings and pure code

    The REST streams reshape the bodies the API returns, which nest
    objects and arrays.  The code never computes with a number, so numbers
    are integers here. *)

Module Json.

#[local] Unset Elimination Schemes.

Inductive t : Type :=
| Null
| Bool (b : bool)
| Str (s : string)
| Int (n : Z)
| Arr (items : list t)
| Obj (fields : list (string * t)).

#[local] Set Elimination Schemes.

(** Truthiness: [None], [False], [''], [0], [[]] and [{}] are falsy. *)
Definition truthy (v : t) : bool :=
  match v with
  | Null => false
  | Bool b => b
  | Str s => negb (String.eqb s "")
  | Int n => negb (Z.eqb n 0)
  | Arr l => match l with [] => false | _ => true end
  | Obj d => match d with [] => false | _ => true end
  end.

(** A flat value as a JSON value. *)
Definition of_value (v : Value) : t :=
  match v with
  | VNone => Null
  | VStr s => Str s
  | VInt n => Int n
  | VVars l =>
      Arr (map (fun kv => Obj [("var_name", Str (fst kv));
                               ("var_value", Str (snd kv))]) l)
  end.

End Json.

(** Insertion-ordered dictionaries with values of any type; at [Value]
    they are the [Dict] of the job streams. *)
Module Mapping.

Section Generic.

Context {V : Type}.

Fixpoint lookup (d : list (string * V)) (k : string) : option V :=
  match d with
  | [] => None
  | (k', v) :: d' => if String.eqb k k' then Some v else lookup d' k
  end.

Definition keys (d : list (string * V)) : list string := map fst d.

(** [d[k] = v]. *)
Fixpoint setitem (d : list (string * V)) (k : string) (v : V)
    : list (string * V) :=
  match d with
  | [] => [(k, v)]
  | (k', v') :: d' =>
      if String.eqb k k' then (k', v) :: d' else (k', v') :: setitem d' k v
  end.

(** [del d[k]], and what [d.pop(k)] leaves. *)
Definition remove (d : list (string * V)) (k : string) : list (string * V) :=
  filter (fun kv => negb (String.eqb k (fst kv))) d.

(** [{**d, **other}] and [d.update(other)]. *)
Definition update (d other : list (string * V)) : list (string * V) :=
  fold_left (fun acc kv => setitem acc (fst kv) (snd kv)) other d.

End Generic.

End Mapping.

(** A row of a REST stream. *)
Definition Row : Type := list (string * Json.t).

(** Code that neither logs nor calls out: it returns or it raises. *)
Module Pure.

(** The exceptions of [Exn], and [AttributeError], which only the
    reshaping code raises. *)
Inductive Error : Type :=
| Python (e : Exn)
| AttributeError.

Inductive Result (A : Type) : Type :=
| Done (a : A)
| Failed (e : Error).

Arguments Done {A} a.
Arguments Failed {A} e.

Definition bind {A B} (c : Result A) (k : A -> Result B) : Result B :=
  match c with
  | Done a => k a
  | Failed e => Failed e
  end.

(** [[f(x) for x in l]], stopping at the first [f(x)] that raises. *)
Fixpoint traverse {A B} (f : A -> Result B) (l : list A) : Result (list B) :=
  match l with
  | [] => Done []
  | x :: l' =>
      match f x with
      | Done y =>
          match traverse f l' with
          | Done ys => Done (y :: ys)
          | Failed e => Failed e
          end
      | Failed e => Failed e
      end
  end.

(** [d[k]]. *)
Definition getitem {V} (d : list (string * V)) (k : string) : Result V :=
  match Mapping.lookup d k with
  | Some v => Done v
  | None => Failed (Python (KeyError k))
  end.

(** [d.pop(k)]: the value and the dictionary without the key. *)
Definition pop {V} (d : list (string * V)) (k : string)
    : Result (V * list (string * V)) :=
  match Mapping.lookup d k with
  | Some v => Done (v, Mapping.remove d k)
  | None => Failed (Python (KeyError k))
  end.

(** [v.items()]: only a mapping has items. *)
Definition items (v : Json.t) : Result (list (string * Json.t)) :=
  match v with
  | Json.Obj d => Done d
  | _ => Failed AttributeError
  end.

(** [{**{label: k}, **v}]: [v] must be a mapping; its own [label] entry,
    if it has one, replaces [k]. *)
Definition labelled (label : string) (kv : string * Json.t)
    : Result Json.t :=
  match snd kv with
  | Json.Obj d =>
      Done (Json.Obj (Mapping.update [(label, Json.Str (fst kv))] d))
  | _ => Failed (Python TypeError)
  end.

(** [{label: k, 'count': v}]. *)
Definition counted (label : string) (kv : string * Json.t) : Json.t :=
  Json.Obj [(label, Json.Str (fst kv)); ("count", snd kv)].

End Pure.

Notation "'let!' x ':=' c 'in' k" := (Pure.bind c (fun x => k))
  (at level 10, x name, c at level 100, k at level 200).

(** ** Stream definitions and the collaborators of a sync *)

(** The attributes of a stream class that the modelled methods read.
    [signup_dt] is the class attribute [pendulum.yesterday('UTC')],
    evaluated once when the module is imported.  [is_sorted] is the
    attribute by which a stream declares that its records come in the
    order of the replication key; no class of [streams.py] sets it, so
    each has the value of the base class, [False]. *)
Record Stream : Type := {
  name : string;
  replication_key : option string;
  is_sorted : bool;
  selected : bool;
  selectively_sync_children : bool;
  state_partitioning_keys : option (list string);
  STATE_MSG_FREQUENCY : Z;
  MAX_RECORDS_LIMIT : option Z;
  schema_keys : list string;
  account_name : Value;
  signup_dt : Z;
  partitions : option (list Dict)
}.

(** One poll of the [/job] endpoint: the body [api_get] returns (or the
    exception it raises) and the value of [(now - job_start_time).seconds]
    read right after it. *)
Record Poll : Type := {
  poll_result : Outcome Dict;
  poll_elapsed : Z
}.

(** One streamed download of an export file: the rows [csv.DictReader]
    decodes before the stream ends, and how it ends ([None]: at the end of
    the file; [Some e]: [iter_lines] raises [e]). *)
Record Download : Type := {
  rows : list Dict;
  ending : option Exn
}.

(** The payload [UsersStream.prepare_request_payload] builds. *)
Record UserRequest : Type := {
  request_id : Value;
  request_key : string;
  request_fields : list (string * Z)
}.

(** What [pendulum.parse] returns: a [DateTime], or, for the text of an
    ISO 8601 duration or interval (['P1D']), a [Duration] or [Period],
    which does not compare with a [DateTime]. *)
Inductive Parsed : Type :=
| DateTime (ts : Z)
| Span.

(** What the outside world answers.  Time is in microseconds since the
    epoch, UTC. *)
Record World : Type := {
  (* client.api_post('job', payload).get_body() *)
  api_post : Dict -> Outcome Dict;
  (* the n-th client.api_get('job', {'job_id': job_id}).get_body() *)
  api_get : Value -> nat -> Poll;
  (* the n-th requests.get(export_url, stream=True) *)
  requests_get : Value -> nat -> Download;
  (* the n-th client._api_request(url, request_data, ...).get_body() *)
  api_request : UserRequest -> nat -> Outcome Dict;
  (* get_next_page_token(response, previous_token), of the base class *)
  get_next_page_token : Dict -> Value -> Value;
  (* pendulum.parse(text); None: the text does not parse (ValueError) *)
  parse : string -> option Parsed;
  (* the clock while the record with this running count is processed *)
  now_at : Z -> Z;
  (* how the sync of the child streams with this context ends *)
  children_outcome : Dict -> Outcome unit
}.

Definition usec_per_day : Z := 86400000000.

(** [pendulum.yesterday('UTC')] when the clock shows [now]: midnight UTC of
    the day before. *)
Definition yesterday_utc (now : Z) : Z :=
  (now / usec_per_day - 1) * usec_per_day.

(** [pendulum.parse(v)]. *)
Definition pendulum_parse {Y} (w : World) (v : Value) : Comp.t Y Parsed :=
  match v with
  | VStr s =>
      match parse w s with
      | Some parsed => Comp.ret parsed
      | None => Comp.raise ValueError
      end
  | _ => Comp.raise TypeError
  end.

(** ** [SailthruJobStream] *)

Module SailthruJobStream.

Definition default_timeout : Z := 600.

(** The [while status != 'completed'] loop of [get_job_url], from its
    [n]-th poll on.  The first iteration always runs ([status] starts as
    ['']); the loop condition is checked after the [sleep]. *)
Fixpoint get_job_url_from {Y} (fuel : nat) (w : World) (job_id : Value)
    (timeout : Z) (n : nat) : Comp.t Y Value :=
  match fuel with
  | O => Comp.out_of_fuel
  | S fuel' =>
      response <- Comp.call (poll_result (api_get w job_id n)) ;;
      let status := get response "status" in
      Comp.log INFO (JobReportStatus status) ;;
      if poll_elapsed (api_get w job_id n) >? timeout then
        Comp.log CRITICAL (JobTimeoutExceeded job_id timeout status) ;;
        Comp.raise SailthruJobTimeoutError
      else
        Comp.emit (Sleep 1) ;;
        if Value_eqb status (VStr "completed")
        then Comp.ret (get response "export_url")
        else get_job_url_from fuel' w job_id timeout (S n)
  end.

Definition get_job_url {Y} (fuel : nat) (w : World) (job_id : Value)
    (timeout : Z) : Comp.t Y Value :=
  get_job_url_from fuel w job_id timeout 0%nat.

(** The body of [process_job_csv] for the download [d]: every decoded row
    is updated with [parent_params] and yielded ([post_process]ed for the
    list-members stream); a [ChunkedEncodingError] ends the generator with
    a log line, any other exception leaves it. *)
Definition process_job_csv_rows (self : Stream)
    (post_process : Dict -> Dict) (parent_params : option Dict)
    (d : Download) : Comp.t Dict unit :=
  Comp.try_except
    (Comp.for_each (map Comp.Yield (rows d))
       (match ending d with Some e => Raise e | None => Ok tt end)
       (fun (_ : unit) row =>
          let row :=
            match parent_params with
            | Some ((_ :: _) as params) => update row params
            | _ => row
            end in
          if String.eqb (name self) "list_members"
          then Comp.yield (post_process row)
          else Comp.yield row)
       tt)
    is_ChunkedEncodingError
    (fun _ => Comp.log INFO ChunkedEncodingStoppingEarly).

(** The undecorated generator function: its body makes one
    [requests.get] and streams that download. *)
Definition process_job_csv_body (self : Stream) (w : World)
    (post_process : Dict -> Dict) (export_url : Value)
    (parent_params : option Dict) : Generator Dict :=
  fun downloads =>
    (process_job_csv_rows self post_process parent_params
       (requests_get w export_url downloads),
     S downloads).

(** [process_job_csv] as decorated:
    [@backoff.on_exception(backoff.expo, ChunkedEncodingError,
    max_tries=3, factor=2)] around the generator function. *)
Definition process_job_csv {Y} (self : Stream) (w : World)
    (post_process : Dict -> Dict) (export_url : Value)
    (parent_params : option Dict) : Comp.t Y (Generator Dict) :=
  on_exception is_ChunkedEncodingError 3
    (fun _ =>
       call_generator_function
         (process_job_csv_body self w post_process export_url parent_params)).

(** [yield from self.process_job_csv(...)], from a state in which
    [downloads] downloads of the export were made: the decorated call, then
    the iteration of the generator it returns.  The result is the trace
    and outcome together with the number of downloads made. *)
Definition yield_from_process_job_csv (self : Stream) (w : World)
    (post_process : Dict -> Dict) (export_url : Value)
    (parent_params : option Dict) (downloads : nat)
    : Comp.t Dict unit * nat :=
  let c := process_job_csv (Y := Dict) self w post_process export_url
             parent_params in
  match snd c with
  | Ok g =>
      let r := g downloads in
      ((fst c ++ fst (fst r), snd (fst r)), snd r)
  | Raise e => ((fst c, Raise e), downloads)
  | OutOfFuel => ((fst c, OutOfFuel), downloads)
  end.

End SailthruJobStream.

(** ** The SDK base class

    [streams.py] calls these methods of its base class; their code is not
    in [streams.py]. *)

Module Sdk.

Definition dict_truthy (d : option Dict) : bool :=
  match d with Some (_ :: _) => true | _ => false end.

Definition in_keys (keys : list string) (k : string) : bool :=
  existsb (String.eqb k) keys.

(** Modelled from the spec: the state partition context of a context: the
    context itself, or its restriction to the stream's state partitioning
    keys when the stream declares some ("the full (1:1) partition being
    synced", section 3). *)
Definition _get_state_partition_context (self : Stream)
    (context : option Dict) : option Dict :=
  match context with
  | None => None
  | Some c =>
      match state_partitioning_keys self with
      | None => Some c
      | Some keys => Some (filter (fun kv => in_keys keys (fst kv)) c)
      end
  end.

Fixpoint find_partition (ps : list (Dict * Bookmark)) (c : Dict)
    : option Bookmark :=
  match ps with
  | [] => None
  | (c', b) :: ps' => if Dict_eqb c' c then Some b else find_partition ps' c
  end.

Fixpoint set_partition (ps : list (Dict * Bookmark)) (c : Dict)
    (b : Bookmark) : list (Dict * Bookmark) :=
  match ps with
  | [] => [(c, b)]
  | (c', b') :: ps' =>
      if Dict_eqb c' c then (c', b) :: ps'
      else (c', b') :: set_partition ps' c b
  end.

(** Modelled from the spec: "Load the context's existing bookmark"
    (section 4.4, step 1): the bookmark of the context's state partition,
    or the stream's own bookmark when there is none. *)
Definition get_context_state (self : Stream) (store : Store)
    (context : option Dict) : Bookmark :=
  match _get_state_partition_context self context with
  | Some ((_ :: _) as spc) =>
      match find_partition (partition_states store) spc with
      | Some b => b
      | None => empty_bookmark
      end
  | _ => stream_state store
  end.

(** The write through the reference [get_context_state] returns. *)
Definition set_context_state (self : Stream) (store : Store)
    (context : option Dict) (b : Bookmark) : Store :=
  match _get_state_partition_context self context with
  | Some ((_ :: _) as spc) =>
      {| stream_state := stream_state store;
         partition_states := set_partition (partition_states store) spc b |}
  | _ =>
      {| stream_state := b; partition_states := partition_states store |}
  end.

(** Modelled from the spec: "emit a starting replication value marker"
    (section 4.4, step 1): the bookmark's value when the sync of the
    context starts is recorded in it. *)
Definition _write_starting_replication_value (self : Stream) (store : Store)
    (context : option Dict) : Store :=
  let b := get_context_state self store context in
  set_context_state self store context
    {| replication_key_value := replication_key_value b;
       starting_replication_value := replication_key_value b;
       progress_markers := progress_markers b |}.

(** Modelled from the spec: "finalize (clear) that context's progress
    markers" (section 4.4, step 4).  A replication-key value the markers
    hold becomes the value of the bookmark, so that the bookmark holds
    "the highest replication-key value observed" (section 3) once the
    context is synced. *)
Definition finalize_state_progress_markers (b : Bookmark) : Bookmark :=
  {| replication_key_value :=
       match lookup (progress_markers b) "replication_key",
             lookup (progress_markers b) "replication_key_value" with
       | Some _, Some v => Some v
       | _, _ => replication_key_value b
       end;
     starting_replication_value := starting_replication_value b;
     progress_markers := [] |}.

(** [new >= old] on replication-key values: strings compare with strings
    and numbers with numbers; two lists compare by their lengths when one
    is a prefix of the other, and their first differing elements, which
    are dictionaries, do not compare; nothing else compares ([None]
    stands for the [TypeError]). *)
Fixpoint vars_ge (a b : list (string * string)) : option bool :=
  match a, b with
  | _, [] => Some true
  | [], _ :: _ => Some false
  | x :: a', y :: b' =>
      if String.eqb (fst x) (fst y) && String.eqb (snd x) (snd y)
      then vars_ge a' b'
      else None
  end.

Definition value_ge (new old : Value) : option bool :=
  match new, old with
  | VStr x, VStr y => Some (negb (String.ltb x y))
  | VInt x, VInt y => Some (x >=? y)
  | VVars x, VVars y => vars_ge x y
  | _, _ => None
  end.

(** The note a bookmark carries with its progress markers. *)
Definition PROGRESS_MARKER_NOTE : string * Value :=
  ("Note", VStr "This is not resumable until replication is complete.").

Definition with_markers (b : Bookmark) (markers : Dict) : Bookmark :=
  {| replication_key_value := replication_key_value b;
     starting_replication_value := starting_replication_value b;
     progress_markers := markers |}.

(** Modelled from the spec: "Advance the bookmark using the record's
    replication-key value; if the new value is less than the current
    bookmark value, this is a fatal OutOfOrderReplicationKeyError"
    (section 4.4, step 3h).  The base class does so for a stream that
    declares [is_sorted].  For any other stream the value is kept under
    the progress markers of the bookmark, it replaces the one there only
    when it is not less, and nothing is raised: the records of such a
    stream come in no order. *)
Definition increment_state {Y} (b : Bookmark) (latest_record : Dict)
    (rk : string) (sorted : bool) : Comp.t Y Bookmark :=
  let b :=
    if sorted then b
    else match progress_markers b with
         | [] => with_markers b [PROGRESS_MARKER_NOTE]
         | _ :: _ => b
         end in
  let old :=
    if sorted then replication_key_value b
    else lookup (progress_markers b) "replication_key_value" in
  new <- getitem latest_record rk ;;
  let advanced :=
    if sorted
    then {| replication_key_value := Some new;
            starting_replication_value := starting_replication_value b;
            progress_markers := progress_markers b |}
    else with_markers b
           (setitem (setitem (progress_markers b) "replication_key" (VStr rk))
              "replication_key_value" new) in
  match old with
  | None | Some VNone => Comp.ret advanced
  | Some old =>
      match value_ge new old with
      | Some true => Comp.ret advanced
      | Some false =>
          if sorted then Comp.raise InvalidStreamSortException
          else Comp.ret b
      | None => Comp.raise TypeError
      end
  end.

(** Modelled from the spec: step 3h for the bookmark of the context; a
    stream without a replication key, and an empty record, advance
    nothing. *)
Definition _increment_stream_state {Y} (self : Stream) (store : Store)
    (record : Dict) (context : option Dict) : Comp.t Y Store :=
  match record, replication_key self with
  | _ :: _, Some ((String _ _) as rk) =>
      b <- increment_state (get_context_state self store context) record rk
             (is_sorted self) ;;
      Comp.ret (set_context_state self store context b)
  | _, _ => Comp.ret store
  end.

(** Modelled from the spec: "Enforce the global record-count ceiling;
    exceeding it aborts the entire sync with a fatal error" (section 4.4,
    step 3e), so that the "total records emitted ... cannot exceed a
    configured maximum" (section 3): the check comes before the record is
    written, with the number of records processed so far, and raises once
    that number has reached the maximum. *)
Definition _check_max_record_limit {Y} (self : Stream) (record_count : Z)
    : Comp.t Y unit :=
  match MAX_RECORDS_LIMIT self with
  | Some limit =>
      if record_count >=? limit
      then Comp.raise MaxRecordsLimitException
      else Comp.ret tt
  | None => Comp.ret tt
  end.

(** Modelled from the spec: "emit an interim state checkpoint for the whole
    bookmark store" (section 4.4, step 3f). *)
Definition _write_state_message {Y} (store : Store) : Comp.t Y unit :=
  Comp.emit (StateMessage store).

(** Modelled from the spec: "Emit the record" (section 4.4, step 3g). *)
Definition _write_record_message {Y} (record : Dict) : Comp.t Y unit :=
  Comp.emit (RecordMessage record).

(** Modelled from the spec: "recursively invoke sync on the child stream
    with the derived child context" (section 4.4, step 3d).  The call is an
    event of the trace; it ends as the world says the child sync ends. *)
Definition _sync_children {Y} (w : World) (child_context : Dict)
    : Comp.t Y unit :=
  Comp.emit (SyncChildren child_context) ;;
  Comp.call (children_outcome w child_context).

(** Modelled from the spec: "log full diagnostic context (record counts,
    context, state)" (section 4.4, step 3h). *)
Definition log_sort_error {Y} (record_count partition_record_count : Z)
    (current_context state_partition_context : option Dict)
    (stream_name : string) : Comp.t Y unit :=
  Comp.log ERROR
    (SortError record_count partition_record_count current_context
       state_partition_context stream_name).

(** Modelled from the spec: "Log total records emitted" (section 4.4,
    step 6). *)
Definition _write_record_count_log {Y} (record_count : Z)
    (context : option Dict) : Comp.t Y unit :=
  Comp.log INFO (RecordCount record_count context).

End Sdk.
Import Sdk.

(** ** [BlastQueryStream] *)

Module BlastQueryStream.

Definition prepare_request_payload {Y} (context : option Dict)
    : Comp.t Y Dict :=
  blast_id <- ctx_getitem context "blast_id" ;;
  Comp.ret [("job", VStr "blast_query"); ("blast_id", blast_id)].

(** [get_records]: a generator.  Only [MaxRetryError] is caught around
    [get_job_url]. *)
Definition get_records (self : Stream) (w : World) (fuel : nat)
    (context : option Dict) : Comp.t Dict unit :=
  blast_id <- ctx_getitem context "blast_id" ;;
  payload <- prepare_request_payload context ;;
  response <- Comp.call (api_post w payload) ;;
  (if truthy (get response "error")
   then Comp.log INFO (SkippingBlastId blast_id)
   else Comp.ret tt) ;;
  export <-
    Comp.try_except
      (job_id <- getitem response "job_id" ;;
       export_url <-
         SailthruJobStream.get_job_url fuel w job_id
           SailthruJobStream.default_timeout ;;
       Comp.ret (Some export_url))
      is_MaxRetryError
      (fun _ => Comp.log INFO (SkippingBlastId blast_id) ;; Comp.ret None) ;;
  match export with
  | None => Comp.ret tt
  | Some export_url =>
      fst (SailthruJobStream.yield_from_process_job_csv self w
             (fun row => row) export_url
             (Some [("blast_id", blast_id);
                    ("account_name", account_name self)])
             0%nat)
  end.

End BlastQueryStream.

(** ** [ListMemberStream] *)

Module ListMemberStream.

Definition prepare_request_payload {Y} (context : option Dict)
    : Comp.t Y Dict :=
  list_name <- ctx_getitem context "list_name" ;;
  Comp.ret [("job", VStr "export_list_data"); ("list", list_name)].

(** [get_child_context]: ['List Id'] and ['Profile Id'] are read without a
    guard; ['List Name'], then ['Name'], are read under
    [try ... except KeyError]. *)
Definition get_child_context {Y} (record : Dict) (context : option Dict)
    : Comp.t Y Dict :=
  list_id <- getitem record "List Id" ;;
  user_id <- getitem record "Profile Id" ;;
  let return_dict := [("list_id", list_id); ("user_id", user_id)] in
  Comp.try_except
    (list_name <- getitem record "List Name" ;;
     Comp.ret (setitem return_dict "list_name" list_name))
    is_KeyError
    (fun _ =>
       Comp.try_except
         (list_name <- getitem record "Name" ;;
          Comp.ret (setitem return_dict "list_name" list_name))
         is_KeyError
         (fun _ => Comp.ret return_dict)).

(** [post_process]: the columns of the schema are kept, every other column
    becomes an entry of ['custom_vars']. *)
Definition post_process (self : Stream) (row : Dict) : Dict :=
  let new_row :=
    fold_left
      (fun acc kv =>
         if in_keys (schema_keys self) (fst kv)
         then setitem acc (fst kv) (snd kv) else acc)
      row [] in
  let custom_vars_arr :=
    fold_left
      (fun acc kv =>
         if in_keys (schema_keys self) (fst kv)
         then acc else acc ++ [(fst kv, str (snd kv))])
      row [] in
  setitem new_row "custom_vars" (VVars custom_vars_arr).

(** [get_records]: a generator.  Only [MaxRetryError] is caught around
    [get_job_url]. *)
Definition get_records (self : Stream) (w : World) (fuel : nat)
    (context : option Dict) : Comp.t Dict unit :=
  list_name <- ctx_getitem context "list_name" ;;
  payload <- prepare_request_payload context ;;
  response <- Comp.call (api_post w payload) ;;
  (if truthy (get response "error")
   then Comp.log INFO (SkippingListName list_name)
   else Comp.ret tt) ;;
  export <-
    Comp.try_except
      (job_id <- getitem response "job_id" ;;
       export_url <-
         SailthruJobStream.get_job_url fuel w job_id
           SailthruJobStream.default_timeout ;;
       Comp.ret (Some export_url))
      is_MaxRetryError
      (fun _ => Comp.log INFO (SkippingList list_name) ;; Comp.ret None) ;;
  match export with
  | None => Comp.ret tt
  | Some export_url =>
      list_id <- ctx_getitem context "list_id" ;;
      fst (SailthruJobStream.yield_from_process_job_csv self w
             (post_process self) export_url
             (Some [("List Name", list_name);
                    ("List Id", list_id);
                    ("Account Name", account_name self)])
             0%nat)
  end.

(** What [get_records] may hand to the loop: a record, or a tuple of a
    record and a child context. *)
Inductive RecordResult : Type :=
| Plain (record : Dict)
| WithContext (record : Dict) (child_context : option Dict).

(** The variables of the loop over the records of one context. *)
Record LoopState : Type := {
  store : Store;
  record_count : Z;
  partition_record_count : Z;
  child_context : option Dict
}.

(** Lines 531-534: the state partition context is added to the record for
    the keys the record does not have. *)
Definition add_state_context (state_partition_context : option Dict)
    (record : Dict) : Dict :=
  fold_left
    (fun r kv => if contains r (fst kv) then r
                 else setitem r (fst kv) (snd kv))
    (match state_partition_context with Some d => d | None => [] end)
    record.

(** Lines 537-554: the signup timestamp of a record.  [ValueError] and
    [KeyError] are caught and replaced by [pendulum.yesterday('UTC')] read
    at that moment; any other exception leaves the loop. *)
Definition list_signup {Y} (w : World) (now : Z) (record : Dict)
    : Comp.t Y Parsed :=
  Comp.try_except
    (if contains record "list_signup" then
       v <- getitem record "list_signup" ;;
       n <- len v ;;
       if n >? 0 then
         v <- getitem record "list_signup" ;;
         pendulum_parse w v
       else
         p <- getitem record "profile_created_date" ;;
         n <- len p ;;
         if n >? 0 then
           p <- getitem record "profile_created_date" ;;
           pendulum_parse w p
         else
           s <- getitem record "signup_date" ;;
           pendulum_parse w s
     else
       p <- getitem record "profile_created_date" ;;
       n <- len p ;;
       if n >? 0 then
         p <- getitem record "profile_created_date" ;;
         pendulum_parse w p
       else
         s <- getitem record "signup_date" ;;
         pendulum_parse w s)
    (fun e => is_ValueError e || is_KeyError e)
    (fun _ => Comp.ret (DateTime (yesterday_utc now))).

(** [list_signup > self.signup_dt] (line 555): a [DateTime] compares with
    the cutoff, a [Duration] or [Period] does not. *)
Definition after_cutoff {Y} (list_signup : Parsed) (cutoff : Z)
    : Comp.t Y bool :=
  match list_signup with
  | DateTime ts => Comp.ret (ts >? cutoff)
  | Span => Comp.raise TypeError
  end.

(** Lines 523-557: what the loop does with a record whether or not the
    stream is selected.  It returns the record as it will be written and
    the child context derived from it.  The [and] of line 555 compares
    only for a stream with selective child sync. *)
Definition prepare_record {Y} (self : Stream) (w : World)
    (state_partition_context : option Dict) (s : LoopState)
    (record_result : RecordResult) : Comp.t Y (Dict * Dict) :=
  let '(record, child_context) :=
    match record_result with
    | WithContext record child_context => (record, child_context)
    | Plain record => (record, child_context s)
    end in
  child_context <- get_child_context record child_context ;;
  let record := add_state_context state_partition_context record in
  list_signup <- list_signup w (now_at w (record_count s)) record ;;
  sync <-
    (if selectively_sync_children self
     then after_cutoff list_signup (signup_dt self)
     else Comp.ret false) ;;
  (if sync then _sync_children w child_context else Comp.ret tt) ;;
  _check_max_record_limit self (record_count s) ;;
  Comp.ret (record, child_context).

(** Lines 558-574: what the loop does with a record of a selected
    stream. *)
Definition write_record {Y} (self : Stream)
    (current_context state_partition_context : option Dict)
    (s : LoopState) (record : Dict) : Comp.t Y Store :=
  (if STATE_MSG_FREQUENCY self =? 0
   then Comp.raise ZeroDivisionError
   else if (record_count s - 1) mod STATE_MSG_FREQUENCY self =? 0
        then _write_state_message (store s)
        else Comp.ret tt) ;;
  _write_record_message record ;;
  Comp.try_except
    (_increment_stream_state self (store s) record current_context)
    is_InvalidStreamSortException
    (fun ex =>
       log_sort_error (record_count s + 1) (partition_record_count s + 1)
         current_context state_partition_context (name self) ;;
       Comp.raise ex).

(** The body of [for record_result in record_results] (lines 523-577). *)
Definition sync_record {Y} (self : Stream) (w : World)
    (current_context state_partition_context : option Dict)
    (s : LoopState) (record_result : RecordResult) : Comp.t Y LoopState :=
  prepared <- prepare_record self w state_partition_context s record_result ;;
  store' <-
    (if selected self
     then write_record self current_context state_partition_context s
            (fst prepared)
     else Comp.ret (store s)) ;;
  Comp.ret {| store := store';
              record_count := record_count s + 1;
              partition_record_count := partition_record_count s + 1;
              child_context := Some (snd prepared) |}.

(** The loop over the record results of one context, for a generator that
    ran with trace [items] and outcome [final]. *)
Definition sync_record_results {Y} (self : Stream) (w : World)
    (current_context state_partition_context : option Dict)
    (items : list (Comp.Item RecordResult)) (final : Outcome unit)
    (s : LoopState) : Comp.t Y LoopState :=
  Comp.for_each items final
    (sync_record self w current_context state_partition_context) s.

(** The records [get_records] yields are dictionaries, never tuples. *)
Definition as_record_results (items : list (Comp.Item Dict))
    : list (Comp.Item RecordResult) :=
  map (fun i => match i with
                | Comp.Eff e => Comp.Eff e
                | Comp.Yield r => Comp.Yield (Plain r)
                end) items.

(** The body of [for current_context in context_list or [{}]] (lines
    513-580).  [acc] is the bookmark store and the running
    [record_count]. *)
Definition sync_context {Y} (self : Stream) (w : World) (fuel : nat)
    (acc : Store * Z) (current_context : Dict) : Comp.t Y (Store * Z) :=
  let current_context :=
    match current_context with [] => None | _ => Some current_context end in
  let state_partition_context :=
    _get_state_partition_context self current_context in
  let store1 :=
    _write_starting_replication_value self (fst acc) current_context in
  let record_results := get_records self w fuel current_context in
  s <- sync_record_results self w current_context state_partition_context
         (as_record_results (fst record_results)) (snd record_results)
         {| store := store1;
            record_count := snd acc;
            partition_record_count := 0;
            child_context := current_context |} ;;
  let store2 :=
    if opt_Dict_eqb current_context state_partition_context
    then set_context_state self (store s) current_context
           (finalize_state_progress_markers
              (get_context_state self (store s) current_context))
    else store s in
  Comp.ret (store2, record_count s).

Fixpoint sync_contexts {Y} (self : Stream) (w : World) (fuel : nat)
    (contexts : list Dict) (acc : Store * Z) : Comp.t Y (Store * Z) :=
  match contexts with
  | [] => Comp.ret acc
  | current_context :: rest =>
      acc' <- sync_context self w fuel acc current_context ;;
      sync_contexts self w fuel rest acc'
  end.

(** [_sync_records] (lines 495-587), from the bookmark store [store0]. *)
Definition _sync_records {Y} (self : Stream) (w : World) (fuel : nat)
    (store0 : Store) (context : option Dict) : Comp.t Y Store :=
  let context_list :=
    match context with Some c => Some [c] | None => partitions self end in
  let contexts :=
    match context_list with Some ((_ :: _) as l) => l | _ => [[]] end in
  acc <- sync_contexts self w fuel contexts (store0, 0) ;;
  let store1 :=
    if negb (dict_truthy context)
    then {| stream_state :=
              finalize_state_progress_markers (stream_state (fst acc));
            partition_states := partition_states (fst acc) |}
    else fst acc in
  _write_record_count_log (snd acc) context ;;
  _write_state_message store1 ;;
  Comp.ret store1.

(** The class attributes of [ListMemberStream], for a process started at
    [started] and the rest of the configuration as given. *)
Definition make (started : Z) (is_selected : bool) (frequency : Z)
    (limit : option Z) (schema : list string) (account : Value)
    (parts : option (list Dict)) : Stream :=
  {| name := "list_members";
     replication_key := Some "List Signup";
     is_sorted := false;
     selected := is_selected;
     selectively_sync_children := true;
     state_partitioning_keys := None;
     STATE_MSG_FREQUENCY := frequency;
     MAX_RECORDS_LIMIT := limit;
     schema_keys := schema;
     account_name := account;
     signup_dt := yesterday_utc started;
     partitions := parts |}.

End ListMemberStream.

(** ** [UsersStream] *)

Module UsersStream.

Definition prepare_request_payload {Y} (context : option Dict)
    (next_page_token : Value) : Comp.t Y UserRequest :=
  sid <- ctx_getitem context "user_id" ;;
  Comp.ret
    {| request_id := sid;
       request_key := "sid";
       request_fields :=
         [("activity", 1); ("device", 1); ("engagement", 1); ("keys", 1);
          ("lifetime", 1); ("lists", 1); ("optout_email", 1);
          ("purchase_incomplete", 1); ("purchases", 1); ("smart_lists", 1);
          ("vars", 1)] |}.

(** [parse_response] yields the response itself. *)
Definition parse_response (response : Dict) : Comp.t Dict unit :=
  Comp.yield response.

(** One pass through the body of [while not finished] (lines 678-700),
    with the [n]-th request: the new [next_page_token] and [finished].
    When [SailthruClientError] is caught neither variable was assigned. *)
Definition request_page (w : World) (request_data : UserRequest) (n : nat)
    (next_page_token : Value) : Comp.t Dict (Value * bool) :=
  Comp.try_except
    (resp <- Comp.call (api_request w request_data n) ;;
     parse_response resp ;;
     let previous_token := next_page_token in
     let next_page_token := get_next_page_token w resp previous_token in
     if truthy next_page_token && Value_eqb next_page_token previous_token
     then Comp.raise RuntimeError
     else Comp.ret (next_page_token, negb (truthy next_page_token)))
    is_SailthruClientError
    (fun _ =>
       Comp.log INFO (ClientErrorForUserId (request_id request_data)) ;;
       Comp.ret (next_page_token, false)).

(** The [while not finished] loop from its [n]-th request on. *)
Fixpoint request_records_from (fuel : nat) (w : World)
    (request_data : UserRequest) (n : nat) (next_page_token : Value)
    : Comp.t Dict unit :=
  match fuel with
  | O => Comp.out_of_fuel
  | S fuel' =>
      page <- request_page w request_data n next_page_token ;;
      if snd page then Comp.ret tt
      else request_records_from fuel' w request_data (S n) (fst page)
  end.

(** The undecorated generator function [request_records]. *)
Definition request_records_body (fuel : nat) (w : World)
    (context : option Dict) : Comp.t Dict unit :=
  request_data <- prepare_request_payload context VNone ;;
  request_records_from fuel w request_data 0%nat VNone.

(** [request_records] as decorated:
    [@backoff.on_exception(backoff.expo, TimeoutError, max_tries=5,
    factor=4)] around the generator function; the generator it returns is
    then iterated. *)
Definition request_records (fuel : nat) (w : World)
    (context : option Dict) : Comp.t Dict unit :=
  g <- on_exception is_TimeoutError 5
         (fun _ =>
            call_generator_function
              (fun downloads : nat =>
                 (request_records_body fuel w context, downloads))) ;;
  fst (g 0%nat).

(** [post_process] for a row that nests its lists: the mapping under
    ['lists'] becomes an array of [{'list_name': k, 'signup_time': v}]; a
    falsy value becomes the empty array. *)
Definition post_process (row : Row) : Pure.Result Row :=
  let keys_arr := Mapping.keys row in
  if in_keys keys_arr "lists" then
    let! popped := Pure.pop row "lists" in
    let lists_dict := fst popped in
    let row := snd popped in
    let! lists_arr :=
      (if Json.truthy lists_dict then
         let! entries := Pure.items lists_dict in
         Pure.Done
           (map (fun kv => Json.Obj [("list_name", Json.Str (fst kv));
                                     ("signup_time", snd kv)]) entries)
       else Pure.Done []) in
    Pure.Done (Mapping.setitem row "lists" (Json.Arr lists_arr))
  else Pure.Done row.

End UsersStream.

(** ** The shapes of the [post_process] blocks

    Every block of the stats [post_process] methods has one of two shapes:
    the stat is rebuilt where it stands, or it is popped and its
    replacement stored under a key that may differ.  [keys_arr] is the
    snapshot of the row's keys taken before the first block. *)

Module Block.

(** [if key in keys_arr: d = row.copy()[key]; row[key] = build(d.items())]. *)
Definition in_place (keys_arr : list string) (key : string)
    (build : list (string * Json.t) -> Pure.Result (list Json.t))
    (row : Row) : Pure.Result Row :=
  if in_keys keys_arr key then
    let! d := Pure.getitem row key in
    let! entries := Pure.items d in
    let! arr := build entries in
    Pure.Done (Mapping.setitem row key (Json.Arr arr))
  else Pure.Done row.

(** [if key in keys_arr: d = row.pop(key); row[new_key] =
    build(d.items())]. *)
Definition moved (keys_arr : list string) (key new_key : string)
    (build : list (string * Json.t) -> Pure.Result (list Json.t))
    (row : Row) : Pure.Result Row :=
  if in_keys keys_arr key then
    let! popped := Pure.pop row key in
    let! entries := Pure.items (fst popped) in
    let! arr := build entries in
    Pure.Done (Mapping.setitem (snd popped) new_key (Json.Arr arr))
  else Pure.Done row.

(** The three ways a block builds its array. *)
Definition counts (label : string) (entries : list (string * Json.t))
    : Pure.Result (list Json.t) :=
  Pure.Done (map (Pure.counted label) entries).

Definition labels (label : string) (entries : list (string * Json.t))
    : Pure.Result (list Json.t) :=
  Pure.traverse (Pure.labelled label) entries.

Definition values (entries : list (string * Json.t))
    : Pure.Result (list Json.t) :=
  Pure.Done (map snd entries).

End Block.

(** ** [AccountsStream] *)

Module AccountsStream.

(** [post_process]: the empty key is deleted from the mapping under
    ['domains']. *)
Definition post_process (row : Row) : Pure.Result Row :=
  let! domains := Pure.getitem row "domains" in
  let! entries := Pure.items domains in
  Pure.Done
    (Mapping.setitem row "domains" (Json.Obj (Mapping.remove entries ""))).

End AccountsStream.

(** Iterating a JSON value as [for row in v] does: the items of an array,
    the keys of a mapping, the characters of a string; anything else is
    not iterable. *)
Fixpoint characters (s : string) : list Json.t :=
  match s with
  | EmptyString => []
  | String c s' => Json.Str (String c EmptyString) :: characters s'
  end.

Definition iterate (v : Json.t) : Pure.Result (list Json.t) :=
  match v with
  | Json.Arr l => Pure.Done l
  | Json.Obj d => Pure.Done (map (fun kv => Json.Str (fst kv)) d)
  | Json.Str s => Pure.Done (characters s)
  | _ => Pure.Failed (Pure.Python TypeError)
  end.

(** [for row in rows: row['account_name'] = account; yield row].  Item
    assignment needs a mapping: the rows before the first element that is
    not one are yielded, then [TypeError] is raised. *)
Fixpoint yield_with_account (account : Json.t) (rows : list Json.t)
    : Comp.t Row unit :=
  match rows with
  | [] => Comp.ret tt
  | Json.Obj row :: rest =>
      Comp.yield (Mapping.setitem row "account_name" account) ;;
      yield_with_account account rest
  | _ :: _ => Comp.raise TypeError
  end.

(** The generator [parse_response] of [BlastStream] and [ListStream], for
    the collection under [collection]. *)
Definition parse_collection (self : Stream) (collection : string)
    (response : Row) : Comp.t Row unit :=
  match Mapping.lookup response collection with
  | None => Comp.raise (KeyError collection)
  | Some v =>
      match iterate v with
      | Pure.Done rows =>
          yield_with_account (Json.of_value (account_name self)) rows
      | Pure.Failed _ => Comp.raise TypeError
      end
  end.

(** ** [BlastStream] *)

Module BlastStream.

Definition get_child_context {Y V} (record : list (string * V))
    (context : option (list (string * V)))
    : Comp.t Y (list (string * V)) :=
  match Mapping.lookup record "blast_id" with
  | Some blast_id => Comp.ret [("blast_id", blast_id)]
  | None => Comp.raise (KeyError "blast_id")
  end.

Definition parse_response (self : Stream) (response : Row)
    : Comp.t Row unit :=
  parse_collection self "blasts" response.

End BlastStream.

(** ** [BlastStatsStream] *)

Module BlastStatsStream.

Definition prepare_request_payload {Y} (context : option Dict)
    : Comp.t Y Dict :=
  blast_id <- ctx_getitem context "blast_id" ;;
  Comp.ret
    [("stat", VStr "blast"); ("blast_id", blast_id);
     ("beacon_times", VInt 1); ("click_times", VInt 1);
     ("clickmap", VInt 1); ("domain", VInt 1); ("engagement", VInt 1);
     ("purchase_times", VInt 1); ("signup", VInt 1); ("subject", VInt 1);
     ("topusers", VInt 1); ("urls", VInt 1); ("banners", VInt 1);
     ("purchase_items", VInt 1); ("device", VInt 1)].

(** [parse_response]: the body itself, with the account name and the
    blast id of the context. *)
Definition parse_response (self : Stream) (response : Row)
    (context : option Dict) : Comp.t Row unit :=
  let response :=
    Mapping.setitem response "account_name"
      (Json.of_value (account_name self)) in
  blast_id <- ctx_getitem context "blast_id" ;;
  Comp.yield (Mapping.setitem response "blast_id" (Json.of_value blast_id)).

(** [post_process] (lines 230-291): seven blocks, in this order. *)
Definition post_process (row : Row) : Pure.Result Row :=
  let keys_arr := Mapping.keys row in
  let! row :=
    Block.in_place keys_arr "beacon_times" (Block.counts "beacon_time") row in
  let! row :=
    Block.in_place keys_arr "click_times" (Block.counts "click_time") row in
  let! row :=
    Block.moved keys_arr "domain" "domain_stats" (Block.labels "domain") row in
  let! row := Block.moved keys_arr "signup" "signup" Block.values row in
  let! row :=
    Block.moved keys_arr "subject" "subject" (Block.labels "subject") row in
  let! row := Block.moved keys_arr "urls" "urls" (Block.labels "url") row in
  Block.moved keys_arr "device" "device_stats" (Block.labels "device") row.

End BlastStatsStream.

(** ** [ListStream] *)

Module ListStream.

Definition get_child_context {Y V} (record : list (string * V))
    (context : option (list (string * V)))
    : Comp.t Y (list (string * V)) :=
  match Mapping.lookup record "list_id" with
  | Some list_id =>
      match Mapping.lookup record "name" with
      | Some list_name =>
          Comp.ret [("list_id", list_id); ("list_name", list_name)]
      | None => Comp.raise (KeyError "name")
      end
  | None => Comp.raise (KeyError "list_id")
  end.

Definition parse_response (self : Stream) (response : Row)
    : Comp.t Row unit :=
  parse_collection self "lists" response.

End ListStream.

(** ** [ListStatsStream] *)

Module ListStatsStream.

Definition prepare_request_payload {Y} (context : option Dict)
    : Comp.t Y Dict :=
  list_name <- ctx_getitem context "list_name" ;;
  Comp.ret [("stat", VStr "list"); ("list", list_name)].

(** [parse_response]: the body itself, with the account name and the list
    id of the context. *)
Definition parse_response (self : Stream) (response : Row)
    (context : option Dict) : Comp.t Row unit :=
  let response :=
    Mapping.setitem response "account_name"
      (Json.of_value (account_name self)) in
  list_id <- ctx_getitem context "list_id" ;;
  Comp.yield (Mapping.setitem response "list_id" (Json.of_value list_id)).

(** [post_process] (lines 428-448): two blocks. *)
Definition post_process (row : Row) : Pure.Result Row :=
  let keys_arr := Mapping.keys row in
  let! row :=
    Block.moved keys_arr "signup_month" "signup_month"
      (Block.labels "signup_month") row in
  Block.in_place keys_arr "source_count" (Block.counts "source") row.

End ListStatsStream.

(** ** Notions the statements use *)

(** The body the [n]-th poll of a job returns ([{}] when it raises). *)
Definition poll_body (w : World) (job_id : Value) (n : nat) : Dict :=
  match poll_result (api_get w job_id n) with
  | Ok response => response
  | _ => []
  end.

(** The polls before the [k]-th all returned, none of them said
    ['completed'], and each was read within the timeout. *)
Definition pending_within (w : World) (job_id : Value) (timeout : Z)
    (k : nat) : Prop :=
  forall j, (j < k)%nat ->
    (exists response, poll_result (api_get w job_id j) = Ok response) /\
    get (poll_body w job_id j) "status" <> VStr "completed" /\
    poll_elapsed (api_get w job_id j) <= timeout.

(** What [k] polls from the [n]-th on leave in the trace when the loop goes
    on after each: the status is logged, then the loop sleeps one
    second. *)
Fixpoint polled {Y} (w : World) (job_id : Value) (n k : nat)
    : list (Comp.Item Y) :=
  match k with
  | O => []
  | S k' =>
      Comp.Eff
        (Log INFO (JobReportStatus (get (poll_body w job_id n) "status")))
      :: Comp.Eff (Sleep 1)
      :: polled w job_id (S n) k'
  end.

(** The records written by a trace, in order. *)
Fixpoint record_messages {Y} (items : list (Comp.Item Y)) : list Dict :=
  match items with
  | [] => []
  | Comp.Eff (RecordMessage r) :: rest => r :: record_messages rest
  | _ :: rest => record_messages rest
  end.

(** The child contexts a trace syncs, in order. *)
Fixpoint child_syncs {Y} (items : list (Comp.Item Y)) : list Dict :=
  match items with
  | [] => []
  | Comp.Eff (SyncChildren c) :: rest => c :: child_syncs rest
  | _ :: rest => child_syncs rest
  end.

(** The state messages of a trace, in order. *)
Fixpoint state_messages {Y} (items : list (Comp.Item Y)) : list Store :=
  match items with
  | [] => []
  | Comp.Eff (StateMessage s) :: rest => s :: state_messages rest
  | _ :: rest => state_messages rest
  end.

(** The record of a record result, and the record as the loop writes it. *)
Definition record_of (rr : ListMemberStream.RecordResult) : Dict :=
  match rr with
  | ListMemberStream.Plain r => r
  | ListMemberStream.WithContext r _ => r
  end.

Definition written (state_partition_context : option Dict)
    (rr : ListMemberStream.RecordResult) : Dict :=
  ListMemberStream.add_state_context state_partition_context (record_of rr).

(** The body the [n]-th user request returns ([{}] when it raises). *)
Definition page_body (w : World) (request : UserRequest) (n : nat) : Dict :=
  match api_request w request n with
  | Ok response => response
  | _ => []
  end.

(** [next_page_token] after the [n]-th page, and before it. *)
Fixpoint token_after (w : World) (request : UserRequest) (n : nat) : Value :=
  match n with
  | O => get_next_page_token w (page_body w request 0%nat) VNone
  | S n' =>
      get_next_page_token w (page_body w request n) (token_after w request n')
  end.

Definition token_before (w : World) (request : UserRequest) (n : nat)
    : Value :=
  match n with
  | O => VNone
  | S n' => token_after w request n'
  end.

(** The pages [n .. n+k-1], each yielded once. *)
Fixpoint pages (w : World) (request : UserRequest) (n k : nat)
    : list (Comp.Item Dict) :=
  match k with
  | O => []
  | S k' => Comp.Yield (page_body w request n) :: pages w request (S n) k'
  end.

(** The signup fallback chain as the loop implements it, for a record
    whose date fields hold strings: the explicit signup field when it is
    present and not empty; otherwise the profile-creation field when it is
    present and not empty; the generic signup-date field only when the
    profile-creation field is present and empty; and [default] when the
    field that is consulted is absent or does not parse. *)
Definition signup_chain (w : World) (default : Z) (record : Dict)
    : Parsed :=
  let parsed (s : string) :=
    match parse w s with Some p => p | None => DateTime default end in
  let from_profile :=
    match lookup record "profile_created_date" with
    | None => DateTime default
    | Some (VStr "") =>
        match lookup record "signup_date" with
        | Some (VStr s) => parsed s
        | _ => DateTime default
        end
    | Some (VStr p) => parsed p
    | Some _ => DateTime default
    end in
  match lookup record "list_signup" with
  | Some (VStr "") | None => from_profile
  | Some (VStr s) => parsed s
  | Some _ => DateTime default
  end.

(** The date fields of a record hold strings when they are present. *)
Definition date_fields_are_strings (record : Dict) : Prop :=
  forall k, In k ["list_signup"; "profile_created_date"; "signup_date"] ->
    forall v, lookup record k = Some v -> exists s, v = VStr s.

(** A computation that leaves nothing in the trace. *)
Definition silent {Y A : Type} (c : Comp.t Y A) : Prop := fst c = [].

(** The limit check of a record processed at running count [count]. *)
Definition within_limit (self : Stream) (count : Z) : bool :=
  match MAX_RECORDS_LIMIT self with
  | Some limit => count <? limit
  | None => true
  end.

(** Whether the loop syncs the children of a record with signup timestamp
    [ts]. *)
Definition triggers (self : Stream) (ts : Z) : bool :=
  selectively_sync_children self && (ts >? signup_dt self).

(** The bookmark store after a context whose generator yielded nothing:
    the starting replication value was written and, when the context is
    its own state partition context, its progress markers were
    finalized. *)
Definition skipped_store (self : Stream) (store : Store) (c : Dict) : Store :=
  let store1 := _write_starting_replication_value self store (Some c) in
  if opt_Dict_eqb (Some c) (_get_state_partition_context self (Some c))
  then set_context_state self store1 (Some c)
         (finalize_state_progress_markers
            (get_context_state self store1 (Some c)))
  else store1.

(** A record result together with the child context and the signup
    timestamp the loop derives from it. *)
Record Derived : Type := {
  derived_result : ListMemberStream.RecordResult;
  derived_child : Dict;
  derived_stamp : Z
}.

(** The loop, processing the record results of [ds] from running count
    [count] on, derives from each its child context and its timestamp, and
    the children of those that trigger a sync are synced normally. *)
Fixpoint all_derived (Y : Type) (self : Stream) (w : World)
    (state_partition_context : option Dict) (count : Z) (ds : list Derived)
    : Prop :=
  match ds with
  | [] => True
  | d :: ds' =>
      snd (ListMemberStream.get_child_context (Y := Y)
             (record_of (derived_result d)) None) = Ok (derived_child d)
      /\ snd (ListMemberStream.list_signup (Y := Y) w (now_at w count)
                (written state_partition_context (derived_result d)))
         = Ok (DateTime (derived_stamp d))
      /\ (triggers self (derived_stamp d) = true ->
          children_outcome w (derived_child d) = Ok tt)
      /\ all_derived Y self w state_partition_context (count + 1) ds'
  end.

(** What lines 523-557 leave in the trace for a derived record: the sync
    of its children when its timestamp triggers one. *)
Definition child_sync_of {Y : Type} (self : Stream) (d : Derived)
    : list (Comp.Item Y) :=
  if triggers self (derived_stamp d)
  then [Comp.Eff (SyncChildren (derived_child d))]
  else [].

(** How many of [n] records, processed from running count [count] on,
    pass the limit check. *)
Definition room (self : Stream) (count : Z) (n : nat) : nat :=
  match MAX_RECORDS_LIMIT self with
  | Some limit => Nat.min n (Z.to_nat (limit - count))
  | None => n
  end.

(** The loop variables after the records of [ds] were counted and nothing
    was written. *)
Definition counted (s : ListMemberStream.LoopState) (ds : list Derived)
    : ListMemberStream.LoopState :=
  {| ListMemberStream.store := ListMemberStream.store s;
     ListMemberStream.record_count :=
       ListMemberStream.record_count s + Z.of_nat (length ds);
     ListMemberStream.partition_record_count :=
       ListMemberStream.partition_record_count s + Z.of_nat (length ds);
     ListMemberStream.child_context :=
       last (map (fun d => Some (derived_child d)) ds)
         (ListMemberStream.child_context s) |}.

(** The log lines of a trace, in order. *)
Fixpoint log_lines {Y} (items : list (Comp.Item Y)) : list (Level * LogMsg) :=
  match items with
  | [] => []
  | Comp.Eff (Log level msg) :: rest => (level, msg) :: log_lines rest
  | _ :: rest => log_lines rest
  end.

(** The replication-key value a bookmark holds under its progress
    markers. *)
Definition marker (b : Bookmark) : option Value :=
  lookup (progress_markers b) "replication_key_value".

(** The greatest of [old] and the strings of [values], as Python compares
    strings. *)
Definition highest (old : option string) (values : list string)
    : option string :=
  fold_left
    (fun greatest v =>
       match greatest with
       | Some g => if String.ltb v g then Some g else Some v
       | None => Some v
       end)
    values old.

(** The keys of a dictionary are distinct. *)
Definition distinct_keys (d : option Dict) : Prop :=
  match d with
  | Some d => NoDup (map fst d)
  | None => True
  end.

(** A JSON value that is a mapping, and one that is a mapping whose values
    are mappings. *)
Definition is_mapping (v : Json.t) : bool :=
  match v with
  | Json.Obj _ => true
  | _ => false
  end.

Definition mapping_of_mappings (v : Json.t) : bool :=
  match v with
  | Json.Obj d => forallb (fun kv => is_mapping (snd kv)) d
  | _ => false
  end.

(** A key that is absent, or whose value satisfies [p]. *)
Definition absent_or {V : Type} (p : V -> bool) (o : option V) : bool :=
  match o with
  | Some v => p v
  | None => true
  end.

(** Pure code that returns. *)
Definition is_done {A : Type} (r : Pure.Result A) : bool :=
  match r with
  | Pure.Done _ => true
  | Pure.Failed _ => false
  end.

(** ** Sample worlds and records *)

Module Sample.

(** The calendar of the samples: the days since the epoch of a few dates
    of June 2024. *)
Definition june_2024 : list (string * Z) :=
  [("2024-06-01", 19875); ("2024-06-14", 19888); ("2024-06-15", 19889);
   ("2024-06-20", 19894)].

(** A stand-in for [pendulum.parse] in the samples: the dates of the
    calendar parse to their midnight, ['P1D'] to a duration of one day,
    and nothing else parses. *)
Definition parse_date (s : string) : option Parsed :=
  match find (fun d => String.eqb s (fst d)) june_2024 with
  | Some d => Some (DateTime (snd d * usec_per_day))
  | None => if String.eqb s "P1D" then Some Span else None
  end.

(** The process started on 2024-06-15 at noon UTC, so the cutoff is
    midnight of 2024-06-14. *)
Definition started : Z := 19889 * usec_per_day + usec_per_day / 2.

Definition completed_body : Dict :=
  [("job_id", VStr "job-1"); ("status", VStr "completed");
   ("export_url", VStr "https://export/1")].

Definition pending_body (status : string) : Dict :=
  [("job_id", VStr "job-1"); ("status", VStr status)].

(** A world in which every job is accepted and complete at its first poll,
    every export is empty, user pages carry their next token under
    ['next'], and child syncs return. *)
Definition calm : World :=
  {| api_post := fun _ => Ok [("job_id", VStr "job-1")];
     api_get := fun _ n =>
       {| poll_result := Ok completed_body; poll_elapsed := Z.of_nat n |};
     requests_get := fun _ _ => {| rows := []; ending := None |};
     api_request := fun _ _ => Ok [];
     get_next_page_token := fun response _ => get response "next";
     parse := parse_date;
     now_at := fun _ => started;
     children_outcome := fun _ => Ok tt |}.

Definition with_polls (w : World) (polls : Value -> nat -> Poll) : World :=
  {| api_post := api_post w; api_get := polls;
     requests_get := requests_get w; api_request := api_request w;
     get_next_page_token := get_next_page_token w; parse := parse w;
     now_at := now_at w; children_outcome := children_outcome w |}.

Definition with_downloads (w : World) (downloads : Value -> nat -> Download)
    : World :=
  {| api_post := api_post w; api_get := api_get w;
     requests_get := downloads; api_request := api_request w;
     get_next_page_token := get_next_page_token w; parse := parse w;
     now_at := now_at w; children_outcome := children_outcome w |}.

Definition with_pages (w : World) (answers : UserRequest -> nat -> Outcome Dict)
    : World :=
  {| api_post := api_post w; api_get := api_get w;
     requests_get := requests_get w; api_request := answers;
     get_next_page_token := get_next_page_token w; parse := parse w;
     now_at := now_at w; children_outcome := children_outcome w |}.

Definition with_clock (w : World) (clock : Z -> Z) : World :=
  {| api_post := api_post w; api_get := api_get w;
     requests_get := requests_get w; api_request := api_request w;
     get_next_page_token := get_next_page_token w; parse := parse w;
     now_at := clock; children_outcome := children_outcome w |}.

(** [submitted, processing, processing, completed], one poll every two
    seconds. *)
Definition four_polls : World :=
  with_polls calm (fun _ n =>
    {| poll_result :=
         Ok (match n with
             | 0%nat => pending_body "submitted"
             | 1%nat | 2%nat => pending_body "processing"
             | _ => completed_body
             end);
       poll_elapsed := 2 * Z.of_nat n |}).

(** A job that stays in ['processing'], one poll every two seconds. *)
Definition never_done : World :=
  with_polls calm (fun _ n =>
    {| poll_result := Ok (pending_body "processing");
       poll_elapsed := 2 * Z.of_nat n |}).

End Sample.

Module SampleExport.

Definition blast_query : Stream :=
  {| name := "blast_query";
     replication_key := Some "send_time";
     is_sorted := false;
     selected := true;
     selectively_sync_children := false;
     state_partitioning_keys := None;
     STATE_MSG_FREQUENCY := 10000;
     MAX_RECORDS_LIMIT := None;
     schema_keys := ["profile_id"; "send_time"];
     account_name := VStr "acme";
     signup_dt := yesterday_utc Sample.started;
     partitions := None |}.

Definition row (n : string) : Dict :=
  [("profile_id", VStr n); ("send_time", VStr ("2024-01-0" ++ n))].

Definition five_rows : list Dict :=
  [row "1"; row "2"; row "3"; row "4"; row "5"].

(** An export whose first two downloads break after row 2 of 5 and whose
    later downloads are complete. *)
Definition truncated_twice : World :=
  Sample.with_downloads Sample.calm (fun _ n =>
    match n with
    | 0%nat | 1%nat =>
        {| rows := [row "1"; row "2"]; ending := Some ChunkedEncodingError |}
    | _ => {| rows := five_rows; ending := None |}
    end).

(** A user endpoint that rejects every request. *)
Definition rejecting : World :=
  Sample.with_pages Sample.calm (fun _ _ => Raise SailthruClientError).

Definition user_context : option Dict :=
  Some [("list_id", VStr "l1"); ("user_id", VStr "u1")].

Definition user_request : UserRequest :=
  {| request_id := VStr "u1";
     request_key := "sid";
     request_fields :=
       [("activity", 1); ("device", 1); ("engagement", 1); ("keys", 1);
        ("lifetime", 1); ("lists", 1); ("optout_email", 1);
        ("purchase_incomplete", 1); ("purchases", 1); ("smart_lists", 1);
        ("vars", 1)] |}.

Definition page (token : string) : Dict :=
  [("email", VStr (token ++ "@example.org")); ("next", VStr token)].

(** Pages whose next tokens are [a], [b], [b], ...: the third page repeats
    the token of the second. *)
Definition repeating : World :=
  Sample.with_pages Sample.calm (fun _ n =>
    match n with
    | 0%nat => Ok (page "a")
    | _ => Ok (page "b")
    end).

(** Pages whose next tokens are [a], [b], then none. *)
Definition three_pages : World :=
  Sample.with_pages Sample.calm (fun _ n =>
    match n with
    | 0%nat => Ok (page "a")
    | 1%nat => Ok (page "b")
    | _ => Ok [("email", VStr "last@example.org")]
    end).

(** An endpoint that answers every request for a user with the same
    first page. *)
Definition same_page : World :=
  Sample.with_pages Sample.calm (fun _ _ => Ok (page "a")).

(** The same endpoint, with a token that counts the pages read. *)
Definition counting : World :=
  {| api_post := api_post same_page;
     api_get := api_get same_page;
     requests_get := requests_get same_page;
     api_request := api_request same_page;
     get_next_page_token := fun _ previous =>
       match previous with
       | VInt n => VInt (n + 1)
       | _ => VInt 1
       end;
     parse := parse same_page;
     now_at := now_at same_page;
     children_outcome := children_outcome same_page |}.

(** Two pages, then the connection times out. *)
Definition times_out_on_third : World :=
  Sample.with_pages Sample.calm (fun _ n =>
    match n with
    | 0%nat => Ok (page "a")
    | 1%nat => Ok (page "b")
    | _ => Raise TimeoutError
    end).

End SampleExport.

Module SampleMembers.

(** The list-members stream of the process started on 2024-06-15. *)
Definition list_members (is_selected : bool) : Stream :=
  ListMemberStream.make Sample.started is_selected 10000 None
    ["List Id"; "Profile Id"; "List Name"; "List Signup"; "list_signup";
     "profile_created_date"; "signup_date"]
    (VStr "acme") None.

Definition list_context : option Dict :=
  Some [("list_id", VStr "l1"); ("list_name", VStr "news")].

Definition member (profile signup : string) (dates : Dict) : Dict :=
  [("List Id", VStr "l1"); ("Profile Id", VStr profile);
   ("List Name", VStr "news"); ("List Signup", VStr signup)] ++ dates.

(** No explicit signup, no profile-creation field, and a signup date
    after the cutoff. *)
Definition no_profile_date : Dict :=
  member "p1" "2024-01-01"
    [("list_signup", VStr ""); ("signup_date", VStr "2024-06-20")].

(** Empty explicit signup and profile-creation fields, and a signup
    date. *)
Definition only_signup_date : Dict :=
  member "p2" "2024-01-02"
    [("list_signup", VStr ""); ("profile_created_date", VStr "");
     ("signup_date", VStr "2024-06-20")].

(** Signed up on 2024-06-20, after the cutoff; on 2024-06-01, before it;
    and at midnight of 2024-06-14, the cutoff itself. *)
Definition recent : Dict :=
  member "p3" "2024-01-03" [("list_signup", VStr "2024-06-20")].

Definition old : Dict :=
  member "p4" "2024-01-04" [("list_signup", VStr "2024-06-01")].

Definition borderline : Dict :=
  member "p5" "2024-01-05" [("list_signup", VStr "2024-06-14")].

(** A signup field that holds a duration. *)
Definition lasting : Dict :=
  member "p9" "2024-01-09" [("list_signup", VStr "P1D")].

(** No date field at all. *)
Definition undated : Dict := member "p8" "2024-01-08" [].

(** 2024-06-16 at 01:00 UTC: the day after the process started. *)
Definition next_day : Z := 19890 * usec_per_day + 3600000000.

(** A row of an export without a profile id column. *)
Definition no_profile_id : Dict :=
  [("List Id", VStr "l1"); ("List Name", VStr "news");
   ("List Signup", VStr "2024-01-01"); ("list_signup", VStr "2024-06-20")].

(** A row without a list name. *)
Definition no_list_name : Dict :=
  [("List Id", VStr "l1"); ("Profile Id", VStr "p6");
   ("List Signup", VStr "2024-01-06"); ("list_signup", VStr "2024-06-01")].

Definition child_of (profile : string) : Dict :=
  [("list_id", VStr "l1"); ("user_id", VStr profile);
   ("list_name", VStr "news")].

(** The records [old], [recent] and [borderline] with what the loop
    derives from them. *)
Definition derived (record : Dict) (profile : string) (day : Z) : Derived :=
  {| derived_result := ListMemberStream.Plain record;
     derived_child := child_of profile;
     derived_stamp := day * usec_per_day |}.

Definition three_derived : list Derived :=
  [derived old "p4" 19875; derived recent "p3" 19894;
   derived borderline "p5" 19888].

(** The stream when it may emit [limit] records. *)
Definition limited (is_selected : bool) (limit : Z) : Stream :=
  ListMemberStream.make Sample.started is_selected 10000 (Some limit)
    ["List Id"; "Profile Id"; "List Name"; "List Signup"; "list_signup";
     "profile_created_date"; "signup_date"]
    (VStr "acme") None.

Definition empty_store : Store :=
  {| stream_state := empty_bookmark; partition_states := [] |}.

(** The loop variables before the first record of [list_context]. *)
Definition start : ListMemberStream.LoopState :=
  {| ListMemberStream.store :=
       _write_starting_replication_value (list_members true) empty_store
         list_context;
     ListMemberStream.record_count := 0;
     ListMemberStream.partition_record_count := 0;
     ListMemberStream.child_context := list_context |}.

End SampleMembers.

Module SampleJobs.

Definition news : Dict := [("list_id", VStr "l1"); ("list_name", VStr "news")].
Definition offers : Dict :=
  [("list_id", VStr "l2"); ("list_name", VStr "offers")].

Definition exported_row : Dict :=
  [("Profile Id", VStr "p7"); ("List Signup", VStr "2024-02-01");
   ("list_signup", VStr "2024-06-01")].

(** Two lists.  The export job of a list is named after the list; the job
    of [offers] is complete at its first poll and exports one row; the job
    of [news] is polled as [news_polls] says. *)
Definition lists (news_polls : nat -> Poll) : World :=
  {| api_post := fun payload => Ok [("job_id", get payload "list")];
     api_get := fun job_id n =>
       if Value_eqb job_id (VStr "news") then news_polls n
       else {| poll_result := Ok Sample.completed_body;
               poll_elapsed := Z.of_nat n |};
     requests_get := fun _ _ => {| rows := [exported_row]; ending := None |};
     api_request := api_request Sample.calm;
     get_next_page_token := get_next_page_token Sample.calm;
     parse := parse Sample.calm;
     now_at := now_at Sample.calm;
     children_outcome := children_outcome Sample.calm |}.

(** The job of [news] stays in ['processing'], one poll every two
    seconds. *)
Definition news_times_out : World :=
  lists (fun n =>
    {| poll_result := Ok (Sample.pending_body "processing");
       poll_elapsed := 2 * Z.of_nat n |}).

(** The second poll of the job of [news] fails with [MaxRetryError]. *)
Definition news_unreachable : World :=
  lists (fun n =>
    {| poll_result :=
         match n with
         | 0%nat => Ok (Sample.pending_body "processing")
         | _ => Raise MaxRetryError
         end;
       poll_elapsed := Z.of_nat n |}).

(** Every export job is refused. *)
Definition refused : World :=
  Sample.with_polls
    {| api_post := fun _ =>
         Ok [("error", VInt 99);
             ("errormsg",
              VStr "You may not export a blast that has been sent")];
       api_get := api_get Sample.calm;
       requests_get := requests_get Sample.calm;
       api_request := api_request Sample.calm;
       get_next_page_token := get_next_page_token Sample.calm;
       parse := parse Sample.calm;
       now_at := now_at Sample.calm;
       children_outcome := children_outcome Sample.calm |}
    (api_get Sample.calm).

(** The list-members stream with [news] and [offers] as its partitions. *)
Definition list_members : Stream :=
  ListMemberStream.make Sample.started true 10000 None
    ["List Id"; "Profile Id"; "List Name"; "List Signup"; "list_signup";
     "profile_created_date"; "signup_date"]
    (VStr "acme") (Some [news; offers]).

Definition blast : Dict := [("blast_id", VInt 4711)].

(** The export of every blast query is complete at the first poll and
    holds two rows, the second with a blast id of its own. *)
Definition blast_export : World :=
  {| api_post := fun _ => Ok [("job_id", VStr "job-1")];
     api_get := api_get Sample.calm;
     requests_get := fun _ _ =>
       {| rows := [[("profile_id", VStr "p1"); ("send_time", VStr "t1")];
                   [("profile_id", VStr "p2"); ("blast_id", VStr "stale")]];
          ending := None |};
     api_request := api_request Sample.calm;
     get_next_page_token := get_next_page_token Sample.calm;
     parse := parse Sample.calm;
     now_at := now_at Sample.calm;
     children_outcome := children_outcome Sample.calm |}.

End SampleJobs.

(** Bodies of the REST endpoints. *)
Module SampleRows.

(** A REST stream of the account ['acme']. *)
Definition rest_stream (stream_name : string)
    (key : option string) : Stream :=
  {| name := stream_name;
     replication_key := key;
     is_sorted := false;
     selected := true;
     selectively_sync_children := false;
     state_partitioning_keys := None;
     STATE_MSG_FREQUENCY := 10000;
     MAX_RECORDS_LIMIT := None;
     schema_keys := [];
     account_name := VStr "acme";
     signup_dt := yesterday_utc Sample.started;
     partitions := None |}.

Definition blasts_stream : Stream := rest_stream "blasts" (Some "modify_time").
Definition lists_stream : Stream := rest_stream "lists" (Some "create_time").
Definition blast_stats_stream : Stream := rest_stream "blast_stats" None.
Definition list_stats_stream : Stream := rest_stream "list_stats" None.

Definition user : Row :=
  [("keys", Json.Obj [("sid", Json.Str "u1")]);
   ("lists", Json.Obj [("news", Json.Str "2024-06-01");
                       ("offers", Json.Str "2024-06-14")]);
   ("optout_email", Json.Str "none")].

Definition settings : Row :=
  [("id", Json.Str "acct");
   ("domains",
    Json.Obj [("", Json.Obj []);
              ("link", Json.Obj [("link.example.com", Json.Obj [])])]);
   ("from_emails", Json.Arr [Json.Str "news@example.com"])].

(** Statistics of a blast as [parse_response] yields them. *)
Definition blast_stats : Row :=
  [("count", Json.Int 10);
   ("beacon_times", Json.Obj [("0", Json.Int 4); ("1", Json.Int 2)]);
   ("domain",
    Json.Obj [("example.com", Json.Obj [("count", Json.Int 7)]);
              ("example.org", Json.Obj [("count", Json.Int 3)])]);
   ("signup", Json.Obj [("10", Json.Obj [("count", Json.Int 1)])]);
   ("device",
    Json.Obj [("phone", Json.Obj [("count", Json.Int 6)])]);
   ("account_name", Json.Str "acme");
   ("blast_id", Json.Int 4711)].

Definition blast_stats_processed : Row :=
  [("count", Json.Int 10);
   ("beacon_times",
    Json.Arr
      [Json.Obj [("beacon_time", Json.Str "0"); ("count", Json.Int 4)];
       Json.Obj [("beacon_time", Json.Str "1"); ("count", Json.Int 2)]]);
   ("account_name", Json.Str "acme");
   ("blast_id", Json.Int 4711);
   ("domain_stats",
    Json.Arr
      [Json.Obj [("domain", Json.Str "example.com"); ("count", Json.Int 7)];
       Json.Obj [("domain", Json.Str "example.org"); ("count", Json.Int 3)]]);
   ("signup", Json.Arr [Json.Obj [("count", Json.Int 1)]]);
   ("device_stats",
    Json.Arr
      [Json.Obj [("device", Json.Str "phone"); ("count", Json.Int 6)]])].

(** The body of the statistics of a blast and of a list, before
    [parse_response]. *)
Definition blast_stats_body : Row :=
  [("count", Json.Int 10); ("blast_id", Json.Str "stale");
   ("signup", Json.Obj [])].

Definition list_stats_body : Row :=
  [("count", Json.Int 12); ("source_count", Json.Obj [])].

(** Statistics of a list; the second month carries a field named as the
    label is. *)
Definition list_stats : Row :=
  [("count", Json.Int 12);
   ("signup_month",
    Json.Obj [("2024-05", Json.Obj [("count", Json.Int 5)]);
              ("2024-06", Json.Obj [("signup_month", Json.Str "June");
                                    ("count", Json.Int 7)])]);
   ("source_count", Json.Obj [("web", Json.Int 9); ("import", Json.Int 3)]);
   ("account_name", Json.Str "acme");
   ("list_id", Json.Str "l1")].

Definition list_stats_processed : Row :=
  [("count", Json.Int 12);
   ("source_count",
    Json.Arr [Json.Obj [("source", Json.Str "web"); ("count", Json.Int 9)];
              Json.Obj [("source", Json.Str "import");
                        ("count", Json.Int 3)]]);
   ("account_name", Json.Str "acme");
   ("list_id", Json.Str "l1");
   ("signup_month",
    Json.Arr [Json.Obj [("signup_month", Json.Str "2024-05");
                        ("count", Json.Int 5)];
              Json.Obj [("signup_month", Json.Str "June");
                        ("count", Json.Int 7)]])].

Definition blast_one : Row :=
  [("blast_id", Json.Int 4711); ("name", Json.Str "June news");
   ("account_name", Json.Str "stale")].

Definition blast_two : Row :=
  [("blast_id", Json.Int 4712); ("name", Json.Str "June offers")].

Definition blasts : Row :=
  [("blasts", Json.Arr [Json.Obj blast_one; Json.Obj blast_two])].

(** A body whose second blast is not an object. *)
Definition broken_blasts : Row :=
  [("blasts", Json.Arr [Json.Obj blast_one; Json.Null; Json.Obj blast_two])].

Definition list_one : Row :=
  [("list_id", Json.Str "l1"); ("name", Json.Str "news")].

Definition lists : Row := [("lists", Json.Arr [Json.Obj list_one])].

(** A list record and a blast record of the parent streams. *)
Definition list_record : Dict :=
  [("list_id", VStr "l1"); ("name", VStr "news"); ("type", VStr "normal")].

Definition blast_record : Dict :=
  [("blast_id", VInt 4711); ("name", VStr "June news")].

End SampleRows.

(** ** Tactics for the sample worlds *)

(** One poll of a sample world is pending within the timeout. *)
Ltac pending_case :=
  split;
  [ eexists; reflexivity
  | split; [vm_compute; discriminate | vm_compute; discriminate] ].

(** One page of a sample world carries a truthy token that differs from
    the one before it. *)
Ltac fresh_token_case :=
  split; vm_compute; reflexivity.

(** The date fields of a sample record hold strings. *)
Ltac date_fields_of_sample :=
  let k := fresh "k" in let Hk := fresh "Hk" in
  let v := fresh "v" in let Hv := fresh "Hv" in
  intros k Hk v Hv; simpl in Hk;
  repeat (destruct Hk as [<-|Hk];
          [ vm_compute in Hv;
            first [ discriminate Hv
                  | injection Hv as <-; eexists; reflexivity ] | ]);
  contradiction.

Module SampleLate.

(** A job whose first status call takes eleven minutes and then says
    ['completed']. *)
Definition completed_late : World :=
  Sample.with_polls Sample.calm (fun _ n =>
    {| poll_result := Ok Sample.completed_body; poll_elapsed := 660 |}).

End SampleLate.

(* ================================================================== *)
(** * Part II: theorems                                                *)
(* ================================================================== *)

(** ** Values *)

Lemma Value_eqb_eq (a b : Value) : Value_eqb a b = true <-> a = b.
Proof.
  assert (Hvars : forall l m, vars_eqb l m = true <-> l = m).
  { induction l as [|[k v] l IH]; destruct m as [|[k' v'] m]; simpl;
      try (split; congruence).
    rewrite !andb_true_iff, !String.eqb_eq, IH.
    split; [intros [[-> ->] ->]; reflexivity | intros H; inversion H; auto]. }
  destruct a, b; simpl; try (split; congruence).
  - rewrite String.eqb_eq. split; congruence.
  - rewrite Z.eqb_eq. split; congruence.
  - rewrite Hvars. split; congruence.
Qed.

Lemma Value_eqb_neq (a b : Value) : Value_eqb a b = false <-> a <> b.
Proof.
  rewrite <- Value_eqb_eq. destruct (Value_eqb a b); split; congruence.
Qed.

(** ** Dictionaries *)

Lemma lookup_setitem (d : Dict) (k k' : string) (v : Value) :
  lookup (setitem d k v) k' = if String.eqb k' k then Some v else lookup d k'.
Proof.
  induction d as [|[k0 v0] d IH]; cbn [setitem lookup].
  - reflexivity.
  - destruct (String.eqb_spec k k0) as [->|Hk]; cbn [lookup].
    + destruct (String.eqb_spec k' k0); reflexivity.
    + rewrite IH. destruct (String.eqb_spec k' k0) as [->|Hk'];
        [|reflexivity].
      destruct (String.eqb_spec k0 k); [congruence|reflexivity].
Qed.

Lemma lookup_app (a b : Dict) (k : string) :
  lookup (a ++ b) k =
  match lookup a k with Some v => Some v | None => lookup b k end.
Proof.
  induction a as [|[k0 v0] a IH]; cbn [app lookup]; [reflexivity|].
  destruct (String.eqb k k0); [reflexivity|exact IH].
Qed.

(** After [d.update(other)] a key holds the last value [other] gives it,
    and its old value when [other] does not mention it. *)
Lemma lookup_update (other : Dict) : forall (d : Dict) (k : string),
  lookup (update d other) k =
  match lookup (rev other) k with
  | Some v => Some v
  | None => lookup d k
  end.
Proof.
  unfold update.
  induction other as [|[k0 v0] other IH]; intros d k; cbn [fold_left rev].
  - reflexivity.
  - rewrite IH, lookup_app, lookup_setitem. cbn [fst snd lookup].
    destruct (lookup (rev other) k); [reflexivity|].
    destruct (String.eqb k k0); reflexivity.
Qed.

Lemma lookup_In_NoDup (d : Dict) (k : string) (v : Value) :
  NoDup (map fst d) -> In (k, v) d -> lookup d k = Some v.
Proof.
  induction d as [|[k0 v0] d IH]; intros Hnd Hin; [contradiction|].
  cbn [map fst] in Hnd. inversion Hnd as [|? ? Hnot Hnd']; subst.
  cbn [lookup]. destruct Hin as [Heq|Hin].
  - inversion Heq; subst. now rewrite String.eqb_refl.
  - destruct (String.eqb_spec k k0) as [->|_].
    + exfalso. apply Hnot. now apply (in_map fst) in Hin.
    + now apply IH.
Qed.

Lemma lookup_None_not_In (d : Dict) (k : string) :
  lookup d k = None <-> ~ In k (map fst d).
Proof.
  induction d as [|[k0 v0] d IH]; cbn [lookup map fst In].
  - tauto.
  - destruct (String.eqb_spec k k0) as [->|Hk].
    + split; [discriminate|intros H; exfalso; apply H; now left].
    + rewrite IH. split; [intros H [Heq|Hin]; [congruence|tauto]|tauto].
Qed.

(** ** [get_job_url] *)

Section GetJobUrl.

Context {Y : Type}.
Variables (w : World) (job_id : Value) (timeout : Z).

#[local] Abbreviation status n := (get (poll_body w job_id n) "status").

Lemma pending_within_shift (n k : nat) :
  (forall j, (j < S k)%nat ->
     (exists r, poll_result (api_get w job_id (n + j)) = Ok r) /\
     status (n + j) <> VStr "completed" /\
     poll_elapsed (api_get w job_id (n + j)) <= timeout) ->
  forall j, (j < k)%nat ->
     (exists r, poll_result (api_get w job_id (S n + j)) = Ok r) /\
     status (S n + j) <> VStr "completed" /\
     poll_elapsed (api_get w job_id (S n + j)) <= timeout.
Proof.
  intros H j Hj. replace (S n + j)%nat with (n + S j)%nat by lia.
  apply H. lia.
Qed.

(** While the polls are pending within the timeout, the loop polls, logs,
    sleeps and goes on. *)
Lemma get_job_url_from_pending (k : nat) : forall (n fuel : nat),
  (forall j, (j < k)%nat ->
     (exists r, poll_result (api_get w job_id (n + j)) = Ok r) /\
     status (n + j) <> VStr "completed" /\
     poll_elapsed (api_get w job_id (n + j)) <= timeout) ->
  SailthruJobStream.get_job_url_from (Y := Y) (k + fuel) w job_id timeout n =
  (polled w job_id n k
     ++ fst (SailthruJobStream.get_job_url_from (Y := Y) fuel w job_id timeout
               (n + k)),
   snd (SailthruJobStream.get_job_url_from (Y := Y) fuel w job_id timeout
          (n + k))).
Proof.
  induction k as [|k IH]; intros n fuel H.
  - simpl. rewrite Nat.add_0_r.
    now destruct (SailthruJobStream.get_job_url_from fuel w job_id timeout n).
  - destruct (H 0%nat ltac:(lia)) as [[r Hr] [Hs He]].
    rewrite Nat.add_0_r in Hr, Hs, He.
    pose proof (IH (S n) fuel (pending_within_shift n k H)) as IHn.
    replace (n + S k)%nat with (S n + k)%nat by lia.
    cbn [Nat.add SailthruJobStream.get_job_url_from polled].
    unfold poll_body in Hs |- *. rewrite Hr in Hs |- *.
    assert (Hgt : (poll_elapsed (api_get w job_id n) >? timeout) = false)
      by (rewrite Z.gtb_ltb; apply Z.ltb_ge; exact He).
    apply Value_eqb_neq in Hs.
    unfold Comp.bind, Comp.call, Comp.log, Comp.emit; cbn [fst snd].
    rewrite Hgt; cbn [fst snd]. rewrite Hs. rewrite IHn. reflexivity.
Qed.

End GetJobUrl.

Lemma pending_within_from_zero (w : World) (job_id : Value) (timeout : Z)
    (k : nat) :
  pending_within w job_id timeout k ->
  forall j, (j < k)%nat ->
    (exists r, poll_result (api_get w job_id (0 + j)) = Ok r) /\
    get (poll_body w job_id (0 + j)) "status" <> VStr "completed" /\
    poll_elapsed (api_get w job_id (0 + j)) <= timeout.
Proof. intros H j Hj. exact (H j Hj). Qed.

(** C3.  [get_job_url] polls once a second and logs each status.  When the
    polls before the [k]-th are pending within the timeout and the [k]-th
    returns a body: if that poll says ['completed'] and is read within the
    timeout, [get_job_url] returns the body's export location; if it is
    read after the timeout, [get_job_url] logs the status it just saw at
    CRITICAL level and raises [SailthruJobTimeoutError].  The timeout
    defaults to 600 seconds. *)
Theorem get_job_url_completes_or_times_out :
  forall (Y : Type) (w : World) (job_id : Value) (timeout : Z)
         (k fuel : nat) (response : Dict),
    (k < fuel)%nat ->
    pending_within w job_id timeout k ->
    poll_result (api_get w job_id k) = Ok response ->
    SailthruJobStream.default_timeout = 600 /\
    (poll_elapsed (api_get w job_id k) <= timeout ->
     get response "status" = VStr "completed" ->
     SailthruJobStream.get_job_url (Y := Y) fuel w job_id timeout =
     (polled w job_id 0 (S k), Ok (get response "export_url"))) /\
    (poll_elapsed (api_get w job_id k) > timeout ->
     SailthruJobStream.get_job_url (Y := Y) fuel w job_id timeout =
     (polled w job_id 0 k ++
        [Comp.Eff (Log INFO (JobReportStatus (get response "status")));
         Comp.Eff (Log CRITICAL
                     (JobTimeoutExceeded job_id timeout
                        (get response "status")))],
      Raise SailthruJobTimeoutError)).
Proof.
  intros Y w job_id timeout k fuel response Hfuel Hpending Hk.
  split; [reflexivity|].
  unfold SailthruJobStream.get_job_url.
  replace fuel with (k + S (fuel - S k))%nat by lia.
  rewrite (get_job_url_from_pending w job_id timeout k 0%nat _
             (pending_within_from_zero w job_id timeout k Hpending)).
  cbn [Nat.add SailthruJobStream.get_job_url_from].
  rewrite Hk.
  unfold Comp.bind, Comp.call, Comp.log, Comp.emit; cbn [fst snd].
  split.
  - intros He Hs.
    assert (Hgt : (poll_elapsed (api_get w job_id k) >? timeout) = false)
      by (rewrite Z.gtb_ltb; apply Z.ltb_ge; exact He).
    rewrite Hgt; cbn [fst snd].
    rewrite (proj2 (Value_eqb_eq _ _) Hs); cbn [fst snd Comp.ret].
    f_equal.
    clear - Hpending Hk.
    assert (G : forall n m, polled (Y := Y) w job_id n (S m) =
                polled w job_id n m ++
                  [Comp.Eff (Log INFO (JobReportStatus
                     (get (poll_body w job_id (n + m)) "status")));
                   Comp.Eff (Sleep 1)]).
    { intros n m; revert n. induction m as [|m IH]; intros n.
      - simpl. now rewrite Nat.add_0_r.
      - change (polled w job_id n (S (S m))) with
          (Comp.Eff (Log INFO (JobReportStatus
              (get (poll_body w job_id n) "status")))
           :: Comp.Eff (Sleep 1) :: polled (Y := Y) w job_id (S n) (S m)).
        rewrite IH. simpl. now replace (S (n + m)) with (n + S m)%nat by lia. }
    rewrite G. simpl. unfold poll_body. now rewrite Hk.
  - intros He.
    assert (Hgt : (poll_elapsed (api_get w job_id k) >? timeout) = true)
      by (rewrite Z.gtb_ltb; apply Z.ltb_lt; lia).
    rewrite Hgt; cbn [fst snd Comp.raise app]. reflexivity.
Qed.

Lemma get_job_url_completes_or_times_out_witness :
  SailthruJobStream.get_job_url (Y := Empty_set) 400 Sample.four_polls
    (VStr "job-1") SailthruJobStream.default_timeout =
  (polled Sample.four_polls (VStr "job-1") 0 4, Ok (VStr "https://export/1"))
  /\
  SailthruJobStream.get_job_url (Y := Empty_set) 400 Sample.never_done
    (VStr "job-1") SailthruJobStream.default_timeout =
  (polled Sample.never_done (VStr "job-1") 0 301 ++
     [Comp.Eff (Log INFO (JobReportStatus (VStr "processing")));
      Comp.Eff (Log CRITICAL
                  (JobTimeoutExceeded (VStr "job-1") 600 (VStr "processing")))],
   Raise SailthruJobTimeoutError).
Proof.
  split.
  - assert (Hp : pending_within Sample.four_polls (VStr "job-1") 600 3).
    { intros j Hj. destruct j as [|[|[|j]]]; [pending_case ..| lia]. }
    apply (proj1 (proj2 (get_job_url_completes_or_times_out Empty_set
             Sample.four_polls (VStr "job-1") 600 3 400 Sample.completed_body
             ltac:(lia) Hp eq_refl))).
    + vm_compute; discriminate.
    + reflexivity.
  - assert (Hp : pending_within Sample.never_done (VStr "job-1") 600 301).
    { intros j Hj. split; [eexists; reflexivity|split].
      - unfold poll_body. cbn. discriminate.
      - cbn [Sample.never_done Sample.with_polls api_get poll_elapsed]. lia. }
    apply (proj2 (proj2 (get_job_url_completes_or_times_out Empty_set
             Sample.never_done (VStr "job-1") 600 301 400
             (Sample.pending_body "processing") ltac:(lia) Hp eq_refl))).
    vm_compute. reflexivity.
Defined.

(** ** The model on sample inputs *)

Example post_process_moves_unknown_columns :
  ListMemberStream.post_process (SampleMembers.list_members true)
    [("Profile Id", VStr "p1"); ("color", VStr "red"); ("age", VNone);
     ("List Id", VStr "l1")] =
  [("Profile Id", VStr "p1"); ("List Id", VStr "l1");
   ("custom_vars", VVars [("color", "red"); ("age", "None")])].
Proof. reflexivity. Qed.

Example get_child_context_falls_back_to_name :
  ListMemberStream.get_child_context (Y := Empty_set)
    [("List Id", VStr "l1"); ("Profile Id", VStr "p1");
     ("Name", VStr "news")] None =
  ([], Ok [("list_id", VStr "l1"); ("user_id", VStr "p1");
           ("list_name", VStr "news")]).
Proof. reflexivity. Qed.

Example get_records_yields_the_export :
  ListMemberStream.get_records SampleJobs.list_members
    SampleJobs.news_unreachable 10 (Some SampleJobs.offers) =
  ([Comp.Eff (Log INFO (JobReportStatus (VStr "completed")));
    Comp.Eff (Sleep 1);
    Comp.Yield
      [("Profile Id", VStr "p7"); ("List Signup", VStr "2024-02-01");
       ("list_signup", VStr "2024-06-01"); ("List Name", VStr "offers");
       ("List Id", VStr "l2");
       ("custom_vars", VVars [("Account Name", "acme")])]],
   Ok tt).
Proof. reflexivity. Qed.

Example yesterday_of_the_sample_start :
  yesterday_utc Sample.started = 19888 * usec_per_day.
Proof. reflexivity. Qed.

(** ** The decorator *)

(** Around a call that raises the exception each time, the decorator makes
    [max_tries] calls with a wait between them and then lets the exception
    out. *)
Example on_exception_gives_up_after_max_tries :
  on_exception (Y := Empty_set) (A := unit) is_ChunkedEncodingError 3
    (fun tries => Comp.log INFO ChunkedEncodingStoppingEarly ;;
                  Comp.raise ChunkedEncodingError) =
  ([Comp.Eff (Log INFO ChunkedEncodingStoppingEarly);
    Comp.Eff (BackoffWait 1);
    Comp.Eff (Log INFO ChunkedEncodingStoppingEarly);
    Comp.Eff (BackoffWait 2);
    Comp.Eff (Log INFO ChunkedEncodingStoppingEarly)],
   Raise ChunkedEncodingError).
Proof. reflexivity. Qed.

(** Around a call that raises twice and then returns, it returns. *)
Example on_exception_recovers_on_third_try :
  on_exception (Y := Empty_set) is_ChunkedEncodingError 3
    (fun tries => if (tries <? 3)%nat
                  then Comp.raise ChunkedEncodingError
                  else Comp.ret tries) =
  ([Comp.Eff (BackoffWait 1); Comp.Eff (BackoffWait 2)], Ok 3%nat).
Proof. reflexivity. Qed.

(** An exception it is not told to retry goes straight through. *)
Example on_exception_ignores_other_exceptions :
  on_exception (Y := Empty_set) (A := unit) is_ChunkedEncodingError 3
    (fun tries => Comp.raise MaxRetryError) =
  ([], Raise MaxRetryError).
Proof. reflexivity. Qed.

(** ** [process_job_csv] *)

(** What one download leaves in the trace of [process_job_csv]: its rows,
    and the log line when it was cut short. *)
Lemma process_job_csv_rows_spec (self : Stream) (post_process : Dict -> Dict)
    (parent_params : option Dict) (d : Download) :
  let transform row :=
    let row := match parent_params with
               | Some ((_ :: _) as params) => update row params
               | _ => row
               end in
    if String.eqb (name self) "list_members" then post_process row else row in
  SailthruJobStream.process_job_csv_rows self post_process parent_params d =
  match ending d with
  | None => (map Comp.Yield (map transform (rows d)), Ok tt)
  | Some e =>
      if is_ChunkedEncodingError e
      then (map Comp.Yield (map transform (rows d))
              ++ [Comp.Eff (Log INFO ChunkedEncodingStoppingEarly)], Ok tt)
      else (map Comp.Yield (map transform (rows d)), Raise e)
  end.
Proof.
  intros transform. unfold SailthruJobStream.process_job_csv_rows.
  set (final := match ending d with Some e => Raise e | None => Ok tt end).
  set (body := fun (_ : unit) (row : Dict) => _).
  assert (H : Comp.for_each (map Comp.Yield (rows d)) final body tt =
              (map Comp.Yield (map transform (rows d)),
               match final with
               | Ok _ => Ok tt | Raise e => Raise e | OutOfFuel => OutOfFuel
               end)).
  { induction (rows d) as [|r rs IH]; cbn [map Comp.for_each].
    - now destruct final.
    - unfold Comp.bind at 1.
      assert (Hb : body tt r = ([Comp.Yield (transform r)], Ok tt)).
      { unfold body, transform.
        destruct (String.eqb (name self) "list_members"); reflexivity. }
      rewrite Hb; cbn [fst snd]. rewrite IH. reflexivity. }
  rewrite H. subst final. unfold Comp.try_except; cbn [fst snd].
  destruct (ending d) as [e|]; [|reflexivity].
  destruct (is_ChunkedEncodingError e); reflexivity.
Qed.

(** The decorator never sees the download: calling the generator function
    only builds the generator, so whatever the download does, iterating
    [process_job_csv] makes exactly one download and streams it. *)
Lemma process_job_csv_downloads_once (self : Stream) (w : World)
    (post_process : Dict -> Dict) (export_url : Value)
    (parent_params : option Dict) (downloads : nat) :
  SailthruJobStream.yield_from_process_job_csv self w post_process export_url
    parent_params downloads =
  (SailthruJobStream.process_job_csv_rows self post_process parent_params
     (requests_get w export_url downloads),
   S downloads).
Proof.
  unfold SailthruJobStream.yield_from_process_job_csv; cbn.
  now destruct (SailthruJobStream.process_job_csv_rows _ _ _ _).
Qed.

(** C2, at the failing input.  The export breaks after row 2 of 5 on its
    first two downloads and is complete on the third: [process_job_csv]
    yields rows 1 and 2, logs that it stops early, and has made one
    download. *)
Theorem process_job_csv_truncated_twice :
  SailthruJobStream.yield_from_process_job_csv SampleExport.blast_query
    SampleExport.truncated_twice (fun row => row) (VStr "https://export/1")
    None 0 =
  ((map Comp.Yield [SampleExport.row "1"; SampleExport.row "2"]
      ++ [Comp.Eff (Log INFO ChunkedEncodingStoppingEarly)], Ok tt), 1%nat)
  /\ requests_get SampleExport.truncated_twice (VStr "https://export/1") 2 =
     {| rows := SampleExport.five_rows; ending := None |}.
Proof. split; vm_compute; reflexivity. Qed.

(** ** [request_records] *)

Section RequestRecords.

Variables (w : World) (request : UserRequest).

(** A request that fails with [SailthruClientError] is logged and leaves
    [finished] false. *)
Lemma request_page_client_error (n : nat) (token : Value) :
  api_request w request n = Raise SailthruClientError ->
  UsersStream.request_page w request n token =
  ([Comp.Eff (Log INFO (ClientErrorForUserId (request_id request)))],
   Ok (token, false)).
Proof.
  intros H. unfold UsersStream.request_page, Comp.try_except, Comp.bind,
    Comp.call; cbn [fst snd]. rewrite H. reflexivity.
Qed.

(** So the loop goes on to the next request. *)
Lemma request_records_from_client_error (fuel n : nat) (token : Value) :
  api_request w request n = Raise SailthruClientError ->
  UsersStream.request_records_from (S fuel) w request n token =
  (Comp.Eff (Log INFO (ClientErrorForUserId (request_id request)))
     :: fst (UsersStream.request_records_from fuel w request (S n) token),
   snd (UsersStream.request_records_from fuel w request (S n) token)).
Proof.
  intros H. cbn [UsersStream.request_records_from].
  rewrite (request_page_client_error n token H).
  unfold Comp.bind; cbn [fst snd]. reflexivity.
Qed.

(** A page that is answered is yielded before its token is looked at. *)
Lemma request_page_answered (n : nat) (token : Value) (response : Dict) :
  api_request w request n = Ok response ->
  let next := get_next_page_token w response token in
  UsersStream.request_page w request n token =
  ([Comp.Yield response],
   if truthy next && Value_eqb next token then Raise RuntimeError
   else Ok (next, negb (truthy next))).
Proof.
  intros H next. unfold UsersStream.request_page, Comp.try_except, Comp.bind,
    Comp.call, UsersStream.parse_response, Comp.yield; cbn [fst snd].
  rewrite H; cbn [fst snd app]. fold next.
  destruct (truthy next && Value_eqb next token); reflexivity.
Qed.

End RequestRecords.

(** C5, at the failing input.  When the endpoint rejects every request for
    a user with [SailthruClientError], [request_records] logs the error and
    asks again: however many iterations it is given, it has logged that
    many errors, yielded nothing, and is still in its loop. *)
Theorem request_records_client_error_loops :
  forall fuel : nat,
    UsersStream.request_records fuel SampleExport.rejecting
      SampleExport.user_context =
    (repeat (Comp.Eff (Log INFO (ClientErrorForUserId (VStr "u1")))) fuel,
     OutOfFuel).
Proof.
  intros fuel.
  unfold UsersStream.request_records, UsersStream.request_records_body.
  cbn -[UsersStream.request_records_from repeat].
  set (request := {| request_id := VStr "u1" |}).
  assert (H : forall n,
    UsersStream.request_records_from fuel SampleExport.rejecting request n
      VNone =
    (repeat (Comp.Eff (Log INFO (ClientErrorForUserId (VStr "u1")))) fuel,
     OutOfFuel)).
  { induction fuel as [|fuel IH]; intros n; [reflexivity|].
    rewrite request_records_from_client_error by reflexivity.
    rewrite IH. reflexivity. }
  rewrite H. reflexivity.
Qed.

Section Pagination.

Variables (w : World) (request : UserRequest).

Lemma token_before_S (n : nat) :
  token_before w request (S n) = token_after w request n.
Proof. reflexivity. Qed.

Lemma token_after_unfold (n : nat) :
  token_after w request n =
  get_next_page_token w (page_body w request n) (token_before w request n).
Proof. destruct n; reflexivity. Qed.

(** While each page is answered with a fresh, truthy token, the loop
    yields the page and asks for the next one. *)
Lemma request_records_from_pages (k : nat) : forall (n fuel : nat),
  (forall j, (j < k)%nat ->
     (exists r, api_request w request (n + j) = Ok r) /\
     truthy (token_after w request (n + j)) = true /\
     Value_eqb (token_after w request (n + j))
               (token_before w request (n + j)) = false) ->
  UsersStream.request_records_from (k + fuel) w request n
    (token_before w request n) =
  (pages w request n k
     ++ fst (UsersStream.request_records_from fuel w request (n + k)
               (token_before w request (n + k))),
   snd (UsersStream.request_records_from fuel w request (n + k)
          (token_before w request (n + k)))).
Proof.
  induction k as [|k IH]; intros n fuel H.
  - cbn [Nat.add pages app]. rewrite Nat.add_0_r.
    now destruct (UsersStream.request_records_from _ _ _ _ _).
  - destruct (H 0%nat ltac:(lia)) as [[r Hr] [Ht He]].
    rewrite Nat.add_0_r in Hr, Ht, He.
    cbn [Nat.add UsersStream.request_records_from pages].
    rewrite (request_page_answered w request n _ r Hr).
    assert (Hnext : get_next_page_token w r (token_before w request n) =
                    token_after w request n).
    { rewrite token_after_unfold. unfold page_body. now rewrite Hr. }
    rewrite Hnext, Ht, He. unfold Comp.bind; cbn [fst snd negb andb].
    change (token_after w request n) with (token_before w request (S n)).
    unfold page_body at 1. rewrite Hr.
    rewrite (IH (S n) fuel).
    + replace (S n + k)%nat with (n + S k)%nat by lia. reflexivity.
    + intros j Hj. replace (S n + j)%nat with (n + S j)%nat by lia.
      apply H. lia.
Qed.

End Pagination.

(** C4, as amended.  [request_records] yields each page before it looks
    at the page's next token.  When the requests up to the [k]-th are
    answered and every page before the [k]-th carries a truthy token that
    differs from the one before it: if the [k]-th page's token is truthy
    and equals the prior token, every page up to and including the [k]-th
    has been yielded once and the fetch raises [RuntimeError]; if the
    [k]-th page carries no next token, the same pages have been yielded and
    the fetch ends normally. *)
Theorem request_records_pages_then_loop_or_end :
  forall (fuel : nat) (w : World) (context : option Dict)
         (request : UserRequest) (k : nat),
    snd (UsersStream.prepare_request_payload (Y := Dict) context VNone)
      = Ok request ->
    (k < fuel)%nat ->
    (forall j, (j <= k)%nat -> exists r, api_request w request j = Ok r) ->
    (forall j, (j < k)%nat ->
       truthy (token_after w request j) = true /\
       Value_eqb (token_after w request j) (token_before w request j)
         = false) ->
    (truthy (token_after w request k) = true ->
     Value_eqb (token_after w request k) (token_before w request k) = true ->
     UsersStream.request_records fuel w context =
     (pages w request 0 (S k), Raise RuntimeError))
    /\
    (truthy (token_after w request k) = false ->
     UsersStream.request_records fuel w context =
     (pages w request 0 (S k), Ok tt)).
Proof.
  intros fuel w context request k Hreq Hfuel Hans Hcont.
  assert (Hbody : UsersStream.request_records fuel w context =
                  UsersStream.request_records_from fuel w request 0 VNone).
  { unfold UsersStream.request_records, UsersStream.request_records_body.
    unfold UsersStream.prepare_request_payload in *.
    unfold ctx_getitem, getitem in *.
    destruct context as [c|]; [|discriminate].
    destruct (lookup c "user_id"); [|discriminate].
    cbn in Hreq. injection Hreq as <-. cbn -[UsersStream.request_records_from].
    now destruct (UsersStream.request_records_from _ _ _ _ _). }
  rewrite Hbody. clear Hbody Hreq.
  replace fuel with (k + S (fuel - S k))%nat by lia.
  change VNone with (token_before w request 0).
  rewrite (request_records_from_pages w request k 0).
  2:{ intros j Hj. cbn [Nat.add]. split; [apply Hans; lia | apply Hcont, Hj]. }
  cbn [Nat.add UsersStream.request_records_from].
  destruct (Hans k (Nat.le_refl k)) as [r Hr].
  rewrite (request_page_answered w request k _ r Hr).
  assert (Hpages : forall n m, pages w request n (S m) =
            pages w request n m ++ [Comp.Yield (page_body w request (n + m))]).
  { intros n m; revert n. induction m as [|m IH]; intros n.
    - simpl. now rewrite Nat.add_0_r.
    - change (pages w request n (S (S m))) with
        (Comp.Yield (page_body w request n) :: pages w request (S n) (S m)).
      rewrite IH. simpl. now replace (S (n + m)) with (n + S m)%nat by lia. }
  rewrite Hpages. cbn [Nat.add].
  assert (Hnext : get_next_page_token w r (token_before w request k) =
                  token_after w request k).
  { rewrite token_after_unfold. unfold page_body. now rewrite Hr. }
  rewrite Hnext. unfold page_body. rewrite Hr.
  split.
  - intros Ht He. rewrite Ht, He.
    unfold Comp.bind; cbn [fst snd andb]. reflexivity.
  - intros Ht. rewrite Ht.
    unfold Comp.bind; cbn [fst snd andb negb Comp.ret]. reflexivity.
Qed.

Lemma request_records_pages_then_loop_or_end_witness :
  UsersStream.request_records 10 SampleExport.repeating
    SampleExport.user_context =
  (pages SampleExport.repeating SampleExport.user_request 0 3,
   Raise RuntimeError)
  /\
  UsersStream.request_records 10 SampleExport.three_pages
    SampleExport.user_context =
  (pages SampleExport.three_pages SampleExport.user_request 0 3, Ok tt).
Proof.
  split.
  - apply (proj1 (request_records_pages_then_loop_or_end 10
             SampleExport.repeating SampleExport.user_context
             SampleExport.user_request 2 eq_refl ltac:(lia)
             ltac:(intros j _; destruct j as [|j]; eexists; reflexivity)
             ltac:(intros j Hj; destruct j as [|[|j]];
                   [fresh_token_case | fresh_token_case | lia]))).
    + reflexivity.
    + reflexivity.
  - apply (proj2 (request_records_pages_then_loop_or_end 10
             SampleExport.three_pages SampleExport.user_context
             SampleExport.user_request 2 eq_refl ltac:(lia)
             ltac:(intros j _; destruct j as [|[|j]]; eexists; reflexivity)
             ltac:(intros j Hj; destruct j as [|[|j]];
                   [fresh_token_case | fresh_token_case | lia]))).
    reflexivity.
Defined.

(** C4, as stated, fails: when the third page repeats the token of the
    second, the third page has been yielded by the time [RuntimeError] is
    raised. *)
Lemma request_records_yields_looping_page :
  token_after SampleExport.repeating SampleExport.user_request 2 =
  token_after SampleExport.repeating SampleExport.user_request 1
  /\
  snd (UsersStream.request_records 10 SampleExport.repeating
         SampleExport.user_context) = Raise RuntimeError
  /\
  Comp.yields (fst (UsersStream.request_records 10 SampleExport.repeating
                      SampleExport.user_context)) =
  [SampleExport.page "a"; SampleExport.page "b"; SampleExport.page "b"].
Proof. repeat split. Qed.

(** ** The signup timestamp of a record *)

Lemma yesterday_utc_same_day (now started : Z) :
  now / usec_per_day = started / usec_per_day ->
  yesterday_utc now = yesterday_utc started.
Proof. unfold yesterday_utc. now intros ->. Qed.

Lemma date_field_string (record : Dict) (k : string) :
  date_fields_are_strings record ->
  In k ["list_signup"; "profile_created_date"; "signup_date"] ->
  lookup record k = None \/ exists s, lookup record k = Some (VStr s).
Proof.
  intros H Hk. destruct (lookup record k) as [v|] eqn:E; [right|now left].
  destruct (H k Hk v E) as [s ->]. now exists s.
Qed.

(** The nested conditionals and the two handlers of lines 537-554 compute
    the chain [signup_chain] with [pendulum.yesterday('UTC')], read while
    the record is processed, as the default. *)
Lemma list_signup_chain {Y : Type} (w : World) (now : Z) (record : Dict) :
  date_fields_are_strings record ->
  ListMemberStream.list_signup (Y := Y) w now record =
  ([], Ok (signup_chain w (yesterday_utc now) record)).
Proof.
  intros H.
  destruct (date_field_string record "list_signup" H ltac:(simpl; auto))
    as [E1|[s1 E1]];
  destruct (date_field_string record "profile_created_date" H
              ltac:(simpl; auto)) as [E2|[s2 E2]];
  destruct (date_field_string record "signup_date" H ltac:(simpl; auto))
    as [E3|[s3 E3]];
  unfold ListMemberStream.list_signup, signup_chain, contains, getitem;
  rewrite E1, E2, E3;
  try destruct s1 as [|c1 s1]; try destruct s2 as [|c2 s2];
  cbn -[yesterday_utc parse]; try reflexivity;
  match goal with
  | |- context [parse w ?s] => destruct (parse w s); reflexivity
  end.
Qed.

(** C7, as amended.  For a record whose date fields hold strings and that
    is processed on the UTC day the process started, the signup timestamp
    is [signup_chain] with the cutoff threshold as the default: the parse
    of ['list_signup'] when that field is present and not empty; otherwise
    the parse of ['profile_created_date'] when it is present and not empty,
    or of ['signup_date'] when ['profile_created_date'] is present and
    empty; and the cutoff threshold itself when the field consulted is
    absent or does not parse. *)
Theorem list_signup_follows_chain :
  forall (Y : Type) (w : World) (self : Stream) (started now : Z)
         (record : Dict),
    signup_dt self = yesterday_utc started ->
    now / usec_per_day = started / usec_per_day ->
    date_fields_are_strings record ->
    ListMemberStream.list_signup (Y := Y) w now record =
    ([], Ok (signup_chain w (signup_dt self) record)).
Proof.
  intros Y w self started now record Hdt Hday Hstr.
  rewrite Hdt, <- (yesterday_utc_same_day now started Hday).
  now apply list_signup_chain.
Qed.

Lemma list_signup_follows_chain_witness :
  ListMemberStream.list_signup (Y := Empty_set) Sample.calm Sample.started
    SampleMembers.only_signup_date =
  ([], Ok (signup_chain Sample.calm
             (signup_dt (SampleMembers.list_members true))
             SampleMembers.only_signup_date))
  /\ signup_chain Sample.calm (signup_dt (SampleMembers.list_members true))
       SampleMembers.only_signup_date = DateTime (19894 * usec_per_day).
Proof.
  split.
  - apply (list_signup_follows_chain Empty_set Sample.calm
             (SampleMembers.list_members true) Sample.started Sample.started
             SampleMembers.only_signup_date eq_refl eq_refl).
    date_fields_of_sample.
  - reflexivity.
Defined.

(** C7, as stated, fails: a record without a profile-creation field gets
    the default (midnight of 2024-06-14, the cutoff) although its
    signup-date field holds a date that parses (2024-06-20). *)
Lemma list_signup_skips_signup_date :
  lookup SampleMembers.no_profile_date "profile_created_date" = None
  /\ lookup SampleMembers.no_profile_date "signup_date"
     = Some (VStr "2024-06-20")
  /\ parse Sample.calm "2024-06-20" = Some (DateTime (19894 * usec_per_day))
  /\ ListMemberStream.list_signup (Y := Empty_set) Sample.calm Sample.started
       SampleMembers.no_profile_date
     = ([], Ok (DateTime (19888 * usec_per_day)))
  /\ signup_dt (SampleMembers.list_members true) = 19888 * usec_per_day.
Proof. repeat split. Qed.

(** ** Computations that leave nothing in the trace *)

Create HintDb silent.

Lemma silent_ret {Y A} (a : A) : silent (Comp.ret (Y := Y) a).
Proof. reflexivity. Qed.

Lemma silent_raise {Y A} (e : Exn) : silent (Comp.raise (Y := Y) (A := A) e).
Proof. reflexivity. Qed.

Lemma silent_bind {Y A B} (c : Comp.t Y A) (k : A -> Comp.t Y B) :
  silent c -> (forall a, silent (k a)) -> silent (Comp.bind c k).
Proof.
  unfold silent, Comp.bind. intros Hc Hk.
  destruct (snd c) as [a| |]; cbn [fst]; rewrite ?Hc, ?Hk; reflexivity.
Qed.

Lemma silent_try_except {Y A} (c : Comp.t Y A) (catches : Exn -> bool)
    (handler : Exn -> Comp.t Y A) :
  silent c -> (forall e, silent (handler e)) ->
  silent (Comp.try_except c catches handler).
Proof.
  unfold silent, Comp.try_except. intros Hc Hh.
  destruct (snd c) as [a|e|]; try assumption.
  destruct (catches e); cbn [fst]; rewrite ?Hc, ?Hh; auto.
Qed.

Lemma silent_if {Y A} (b : bool) (c1 c2 : Comp.t Y A) :
  silent c1 -> silent c2 -> silent (if b then c1 else c2).
Proof. now destruct b. Qed.

Lemma silent_getitem {Y} (d : Dict) (k : string) :
  silent (getitem (Y := Y) d k).
Proof. unfold getitem. now destruct (lookup d k). Qed.

Lemma silent_len {Y} (v : Value) : silent (len (Y := Y) v).
Proof. now destruct v. Qed.

Lemma silent_pendulum_parse {Y} (w : World) (v : Value) :
  silent (pendulum_parse (Y := Y) w v).
Proof.
  destruct v; try reflexivity. unfold pendulum_parse.
  now destruct (parse w s).
Qed.

#[local] Hint Resolve silent_ret silent_raise silent_getitem silent_len
  silent_pendulum_parse : silent.
#[local] Hint Extern 2 (silent (Comp.bind _ _)) =>
  apply silent_bind; [|intro] : silent.
#[local] Hint Extern 2 (silent (Comp.try_except _ _ _)) =>
  apply silent_try_except; [|intro] : silent.
#[local] Hint Extern 2 (silent (if _ then _ else _)) =>
  apply silent_if : silent.

Lemma silent_get_child_context {Y} (record : Dict) (context : option Dict) :
  silent (ListMemberStream.get_child_context (Y := Y) record context).
Proof. unfold ListMemberStream.get_child_context. auto 12 with silent. Qed.

Lemma silent_list_signup {Y} (w : World) (now : Z) (record : Dict) :
  silent (ListMemberStream.list_signup (Y := Y) w now record).
Proof. unfold ListMemberStream.list_signup. auto 20 with silent. Qed.

Lemma silent_increment_stream_state {Y} (self : Stream) (store : Store)
    (record : Dict) (context : option Dict) :
  silent (_increment_stream_state (Y := Y) self store record context).
Proof.
  unfold _increment_stream_state.
  destruct record as [|kv record]; [reflexivity|].
  destruct (replication_key self) as [[|c rk]|]; try reflexivity.
  apply silent_bind; [|intros b; reflexivity].
  unfold increment_state. cbv zeta.
  apply silent_bind; [apply silent_getitem|intros new].
  destruct (is_sorted self).
  - destruct (replication_key_value _) as [[]|]; try reflexivity;
      destruct (value_ge _ _) as [[]|]; reflexivity.
  - destruct (lookup _ _) as [[]|]; try reflexivity;
      destruct (value_ge _ _) as [[]|]; reflexivity.
Qed.

Lemma silent_outcome {Y A} (c : Comp.t Y A) (o : Outcome A) :
  silent c -> snd c = o -> c = ([], o).
Proof. unfold silent. destruct c; cbn. now intros -> ->. Qed.

(** The child context does not depend on the context passed in. *)
Lemma get_child_context_any_context {Y} (record : Dict)
    (c1 c2 : option Dict) :
  ListMemberStream.get_child_context (Y := Y) record c1 =
  ListMemberStream.get_child_context record c2.
Proof. reflexivity. Qed.

(** ** The loop over the records of a context *)

Lemma for_each_app {Y Y' S} (a b : list (Comp.Item Y)) (final : Outcome unit)
    (body : S -> Y -> Comp.t Y' S) : forall s,
  Comp.for_each (a ++ b) final body s =
  match snd (Comp.for_each a (Ok tt) body s) with
  | Ok s1 =>
      (fst (Comp.for_each a (Ok tt) body s)
         ++ fst (Comp.for_each b final body s1),
       snd (Comp.for_each b final body s1))
  | Raise e => (fst (Comp.for_each a (Ok tt) body s), Raise e)
  | OutOfFuel => (fst (Comp.for_each a (Ok tt) body s), OutOfFuel)
  end.
Proof.
  induction a as [|[e|y] a IH]; intros s.
  - cbn. now destruct (Comp.for_each b final body s).
  - cbn [app Comp.for_each]. unfold Comp.bind, Comp.emit; cbn [fst snd].
    rewrite IH.
    destruct (snd (Comp.for_each a (Ok tt) body s)); reflexivity.
  - cbn [app Comp.for_each]. unfold Comp.bind.
    destruct (snd (body s y)) as [s'| |]; cbn [fst snd]; try reflexivity.
    rewrite IH.
    destruct (snd (Comp.for_each a (Ok tt) body s')); cbn [fst snd];
      rewrite ?app_assoc; reflexivity.
Qed.

Lemma record_messages_app {Y} (a b : list (Comp.Item Y)) :
  record_messages (a ++ b) = record_messages a ++ record_messages b.
Proof.
  induction a as [|[[]|] a IH]; cbn; rewrite ?IH; reflexivity.
Qed.

Lemma child_syncs_app {Y} (a b : list (Comp.Item Y)) :
  child_syncs (a ++ b) = child_syncs a ++ child_syncs b.
Proof.
  induction a as [|[[]|] a IH]; cbn; rewrite ?IH; reflexivity.
Qed.

Lemma state_messages_app {Y} (a b : list (Comp.Item Y)) :
  state_messages (a ++ b) = state_messages a ++ state_messages b.
Proof.
  induction a as [|[[]|] a IH]; cbn; rewrite ?IH; reflexivity.
Qed.

Section SyncRecord.

Context {Y : Type}.
Variables (self : Stream) (w : World).
Variables (current_context state_partition_context : option Dict).

(** Lines 523-557 for a record whose child context and signup timestamp
    are derived: the children are synced when the timestamp is after the
    cutoff, then the record limit is checked against the running count. *)
Lemma prepare_record_derived (s : ListMemberStream.LoopState)
    (rr : ListMemberStream.RecordResult) (child : Dict) (ts : Z) :
  snd (ListMemberStream.get_child_context (Y := Y) (record_of rr)
         (ListMemberStream.child_context s)) = Ok child ->
  snd (ListMemberStream.list_signup (Y := Y) w
         (now_at w (ListMemberStream.record_count s))
         (written state_partition_context rr)) = Ok (DateTime ts) ->
  ListMemberStream.prepare_record (Y := Y) self w state_partition_context s rr
  =
  let checked : Outcome (Dict * Dict) :=
    if within_limit self (ListMemberStream.record_count s)
    then Ok (written state_partition_context rr, child)
    else Raise MaxRecordsLimitException in
  if triggers self ts
  then ([Comp.Eff (SyncChildren child)],
        match children_outcome w child with
        | Ok _ => checked
        | Raise e => Raise e
        | OutOfFuel => OutOfFuel
        end)
  else ([], checked).
Proof.
  intros Hc Hs.
  assert (Hc' : forall c,
    ListMemberStream.get_child_context (Y := Y) (record_of rr) c =
    ([], Ok child)).
  { intros c. apply silent_outcome; [apply silent_get_child_context|].
    now rewrite (get_child_context_any_context _ c
                   (ListMemberStream.child_context s)). }
  apply (silent_outcome _ _ (silent_list_signup _ _ _)) in Hs.
  unfold written in Hs |- *.
  unfold ListMemberStream.prepare_record, triggers, within_limit,
    _check_max_record_limit, _sync_children, ListMemberStream.after_cutoff.
  destruct rr as [record|record c]; cbn [record_of] in *;
    rewrite Hc'; unfold Comp.bind at 1; cbn [fst snd app];
    unfold Comp.bind at 1; rewrite Hs; cbn [fst snd app];
    unfold Comp.bind, Comp.emit, Comp.call, Comp.ret, Comp.raise;
    destruct (selectively_sync_children self); cbn [fst snd app andb];
    try destruct (ts >? signup_dt self); cbn [fst snd app];
    try destruct (children_outcome w child) as [[]| |]; cbn [fst snd app];
    destruct (MAX_RECORDS_LIMIT self) as [limit|]; cbn [fst snd app];
    rewrite ?Z.geb_leb, ?Z.leb_antisym;
    try destruct (ListMemberStream.record_count s <? limit);
    cbn [fst snd app negb]; reflexivity.
Qed.

(** Lines 523-557 for a record whose signup field parses to a duration or
    a period: with selective child sync the comparison of line 555 raises
    [TypeError]; without it nothing is compared. *)
Lemma prepare_record_span (s : ListMemberStream.LoopState)
    (rr : ListMemberStream.RecordResult) (child : Dict) :
  snd (ListMemberStream.get_child_context (Y := Y) (record_of rr)
         (ListMemberStream.child_context s)) = Ok child ->
  snd (ListMemberStream.list_signup (Y := Y) w
         (now_at w (ListMemberStream.record_count s))
         (written state_partition_context rr)) = Ok Span ->
  ListMemberStream.prepare_record (Y := Y) self w state_partition_context s rr
  =
  ([], if selectively_sync_children self then Raise TypeError
       else if within_limit self (ListMemberStream.record_count s)
            then Ok (written state_partition_context rr, child)
            else Raise MaxRecordsLimitException).
Proof.
  intros Hc Hs.
  assert (Hc' : forall c,
    ListMemberStream.get_child_context (Y := Y) (record_of rr) c =
    ([], Ok child)).
  { intros c. apply silent_outcome; [apply silent_get_child_context|].
    now rewrite (get_child_context_any_context _ c
                   (ListMemberStream.child_context s)). }
  apply (silent_outcome _ _ (silent_list_signup _ _ _)) in Hs.
  unfold written in Hs |- *.
  unfold ListMemberStream.prepare_record, within_limit,
    _check_max_record_limit, ListMemberStream.after_cutoff.
  destruct rr as [record|record c]; cbn [record_of] in *;
    rewrite Hc'; unfold Comp.bind at 1; cbn [fst snd app];
    unfold Comp.bind at 1; rewrite Hs; cbn [fst snd app];
    unfold Comp.bind, Comp.ret, Comp.raise;
    destruct (selectively_sync_children self); cbn [fst snd app];
    try reflexivity;
    destruct (MAX_RECORDS_LIMIT self) as [limit|]; cbn [fst snd app];
    rewrite ?Z.geb_leb, ?Z.leb_antisym;
    try destruct (ListMemberStream.record_count s <? limit);
    cbn [fst snd app negb]; reflexivity.
Qed.

(** Lines 558-574: the state message when one is due, the record
    message, then the bookmark; the sort error is logged when
    [_increment_stream_state] raises it. *)
Lemma write_record_trace (s : ListMemberStream.LoopState) (record : Dict) :
  STATE_MSG_FREQUENCY self <> 0 ->
  ListMemberStream.write_record (Y := Y) self current_context
    state_partition_context s record =
  ((if (ListMemberStream.record_count s - 1) mod STATE_MSG_FREQUENCY self =? 0
    then [Comp.Eff (StateMessage (ListMemberStream.store s))] else [])
   ++ Comp.Eff (RecordMessage record)
   :: match snd (_increment_stream_state (Y := Y) self
                   (ListMemberStream.store s) record current_context) with
      | Raise InvalidStreamSortException =>
          [Comp.Eff
             (Log ERROR
                (SortError (ListMemberStream.record_count s + 1)
                   (ListMemberStream.partition_record_count s + 1)
                   current_context state_partition_context (name self)))]
      | _ => []
      end,
   snd (_increment_stream_state (Y := Y) self (ListMemberStream.store s)
          record current_context)).
Proof.
  intros Hf. apply Z.eqb_neq in Hf.
  pose proof (silent_increment_stream_state (Y := Y) self
                (ListMemberStream.store s) record current_context) as Hi.
  unfold ListMemberStream.write_record, _write_state_message,
    _write_record_message, log_sort_error, Comp.try_except.
  rewrite Hf.
  destruct (_increment_stream_state self (ListMemberStream.store s) record
              current_context) as [tr o].
  unfold silent in Hi. cbn [fst] in Hi. subst tr.
  unfold Comp.bind, Comp.emit, Comp.log, Comp.ret, Comp.raise.
  destruct ((ListMemberStream.record_count s - 1)
              mod STATE_MSG_FREQUENCY self =? 0);
    cbn [fst snd app]; destruct o as [st|[]|]; reflexivity.
Qed.

(** Lines 558-574 sync no children. *)
Lemma child_syncs_write_record (s : ListMemberStream.LoopState)
    (record : Dict) :
  child_syncs
    (fst (ListMemberStream.write_record (Y := Y) self current_context
            state_partition_context s record)) = [].
Proof.
  destruct (Z.eq_dec (STATE_MSG_FREQUENCY self) 0) as [Hz|Hf].
  - unfold ListMemberStream.write_record. rewrite Hz. reflexivity.
  - rewrite (write_record_trace s record Hf). cbn [fst].
    rewrite child_syncs_app.
    destruct ((ListMemberStream.record_count s - 1)
                mod STATE_MSG_FREQUENCY self =? 0);
      destruct (snd (_increment_stream_state self (ListMemberStream.store s)
                       record current_context)) as [st|[]|];
      reflexivity.
Qed.

(** The child syncs of one pass through the loop body are those of lines
    523-557. *)
Lemma child_syncs_sync_record (s : ListMemberStream.LoopState)
    (rr : ListMemberStream.RecordResult) :
  child_syncs
    (fst (ListMemberStream.sync_record (Y := Y) self w current_context
            state_partition_context s rr)) =
  child_syncs
    (fst (ListMemberStream.prepare_record (Y := Y) self w
            state_partition_context s rr)).
Proof.
  unfold ListMemberStream.sync_record, Comp.bind.
  destruct (snd (ListMemberStream.prepare_record self w
                   state_partition_context s rr)) as [[record child]| |];
    cbn [fst snd]; try reflexivity.
  destruct (selected self); cbn [fst snd Comp.ret app].
  - pose proof (child_syncs_write_record s record) as Hw.
    destruct (ListMemberStream.write_record self current_context
                state_partition_context s record) as [tr [st| |]];
      cbn [fst snd] in *; rewrite ?child_syncs_app, ?Hw, ?app_nil_r;
      reflexivity.
  - now rewrite !app_nil_r.
Qed.

End SyncRecord.

Lemma bind_trace_prefix {Y A B} (c : Comp.t Y A) (k : A -> Comp.t Y B) :
  exists rest, fst (Comp.bind c k) = fst c ++ rest.
Proof.
  unfold Comp.bind. destruct (snd c); cbn [fst];
    eauto using app_nil_r, eq_sym.
Qed.

(** C8.  For a stream with selective child sync, and a record whose child
    context and signup timestamp are derived: when the timestamp is
    strictly after the cutoff [signup_dt], the pass through the loop body
    syncs the children exactly once, with the derived child context, and
    does so before anything else it leaves in the trace; when the
    timestamp is the cutoff or before it, it syncs no children.  Whatever
    the loop does with later records comes after the whole pass. *)
Theorem child_sync_iff_signup_after_cutoff :
  forall (Y : Type) (self : Stream) (w : World)
         (current_context state_partition_context : option Dict)
         (s : ListMemberStream.LoopState)
         (rr : ListMemberStream.RecordResult) (child : Dict) (ts : Z),
    selectively_sync_children self = true ->
    snd (ListMemberStream.get_child_context (Y := Y) (record_of rr)
           (ListMemberStream.child_context s)) = Ok child ->
    snd (ListMemberStream.list_signup (Y := Y) w
           (now_at w (ListMemberStream.record_count s))
           (written state_partition_context rr)) = Ok (DateTime ts) ->
    let step :=
      ListMemberStream.sync_record (Y := Y) self w current_context
        state_partition_context s rr in
    (ts > signup_dt self ->
     child_syncs (fst step) = [child] /\
     exists rest, fst step = Comp.Eff (SyncChildren child) :: rest)
    /\
    (ts <= signup_dt self -> child_syncs (fst step) = [])
    /\
    (forall items final,
       ListMemberStream.sync_record_results (Y := Y) self w current_context
         state_partition_context (Comp.Yield rr :: items) final s =
       match snd step with
       | Ok s' =>
           (fst step ++
              fst (ListMemberStream.sync_record_results (Y := Y) self w
                     current_context state_partition_context items final s'),
            snd (ListMemberStream.sync_record_results (Y := Y) self w
                   current_context state_partition_context items final s'))
       | Raise e => (fst step, Raise e)
       | OutOfFuel => (fst step, OutOfFuel)
       end).
Proof.
  intros Y self w cc spc s rr child ts Hsel Hc Hs step.
  pose proof (prepare_record_derived self w spc s rr child ts Hc Hs) as Hp.
  unfold triggers in Hp. rewrite Hsel in Hp. cbn [andb] in Hp.
  pose proof (child_syncs_sync_record (Y := Y) self w cc spc s rr) as Hcs.
  fold step in Hcs.
  split; [intros Hgt; split | split].
  - rewrite Hcs, Hp.
    replace (ts >? signup_dt self) with true
      by (symmetry; rewrite Z.gtb_ltb; apply Z.ltb_lt; lia).
    reflexivity.
  - destruct (bind_trace_prefix
                (ListMemberStream.prepare_record (Y := Y) self w spc s rr)
                (fun prepared =>
                   store' <-
                     (if selected self
                      then ListMemberStream.write_record self cc spc s
                             (fst prepared)
                      else Comp.ret (ListMemberStream.store s)) ;;
                   Comp.ret
                     {| ListMemberStream.store := store';
                        ListMemberStream.record_count :=
                          ListMemberStream.record_count s + 1;
                        ListMemberStream.partition_record_count :=
                          ListMemberStream.partition_record_count s + 1;
                        ListMemberStream.child_context :=
                          Some (snd prepared) |})) as [rest Hrest].
    change (fst step = fst (ListMemberStream.prepare_record self w spc s rr)
                         ++ rest) in Hrest.
    rewrite Hp in Hrest.
    replace (ts >? signup_dt self) with true in Hrest
      by (symmetry; rewrite Z.gtb_ltb; apply Z.ltb_lt; lia).
    cbn [fst app] in Hrest. eauto.
  - intros Hle. rewrite Hcs, Hp.
    replace (ts >? signup_dt self) with false
      by (symmetry; rewrite Z.gtb_ltb; apply Z.ltb_ge; lia).
    reflexivity.
  - intros items final. unfold ListMemberStream.sync_record_results.
    cbn [Comp.for_each]. unfold Comp.bind. fold step.
    destruct (snd step); reflexivity.
Qed.

Lemma child_sync_iff_signup_after_cutoff_witness :
  child_syncs
    (fst (ListMemberStream.sync_record (Y := Empty_set)
            (SampleMembers.list_members true) Sample.calm
            SampleMembers.list_context SampleMembers.list_context
            SampleMembers.start (ListMemberStream.Plain SampleMembers.recent)))
  = [SampleMembers.child_of "p3"]
  /\
  child_syncs
    (fst (ListMemberStream.sync_record (Y := Empty_set)
            (SampleMembers.list_members true) Sample.calm
            SampleMembers.list_context SampleMembers.list_context
            SampleMembers.start
            (ListMemberStream.Plain SampleMembers.borderline)))
  = [].
Proof.
  split.
  - apply (proj1 (child_sync_iff_signup_after_cutoff Empty_set
             (SampleMembers.list_members true) Sample.calm
             SampleMembers.list_context SampleMembers.list_context
             SampleMembers.start (ListMemberStream.Plain SampleMembers.recent)
             (SampleMembers.child_of "p3") (19894 * usec_per_day)
             eq_refl eq_refl eq_refl)).
    reflexivity.
  - apply (proj1 (proj2 (child_sync_iff_signup_after_cutoff Empty_set
             (SampleMembers.list_members true) Sample.calm
             SampleMembers.list_context SampleMembers.list_context
             SampleMembers.start
             (ListMemberStream.Plain SampleMembers.borderline)
             (SampleMembers.child_of "p5") (19888 * usec_per_day)
             eq_refl eq_refl eq_refl))).
    vm_compute. discriminate.
Defined.

(** ** Child context derivation *)

(** C9, as amended.  A record without ['List Id'] or ['Profile Id'] makes
    [get_child_context] raise [KeyError], and nothing catches it: the loop
    over the records of the context ends at that record with this error,
    with nothing in the trace for it (no child sync, no message) and
    without processing any later record.  Only the list name is optional:
    a record that has both identifiers but neither ['List Name'] nor
    ['Name'] derives a child context without [list_name]. *)
Theorem missing_identifier_aborts_context :
  forall (Y : Type) (self : Stream) (w : World)
         (current_context state_partition_context : option Dict)
         (s : ListMemberStream.LoopState)
         (rr : ListMemberStream.RecordResult)
         (items : list (Comp.Item ListMemberStream.RecordResult))
         (final : Outcome unit),
    (lookup (record_of rr) "List Id" = None \/
     lookup (record_of rr) "Profile Id" = None) ->
    (exists key,
       (key = "List Id" \/ key = "Profile Id") /\
       ListMemberStream.sync_record_results (Y := Y) self w current_context
         state_partition_context (Comp.Yield rr :: items) final s =
       ([], Raise (KeyError key)))
    /\
    (forall (record : Dict) (context : option Dict) (list_id user_id : Value),
       lookup record "List Id" = Some list_id ->
       lookup record "Profile Id" = Some user_id ->
       lookup record "List Name" = None ->
       lookup record "Name" = None ->
       ListMemberStream.get_child_context (Y := Y) record context =
       ([], Ok [("list_id", list_id); ("user_id", user_id)])).
Proof.
  intros Y self w cc spc s rr items final Hmiss. split.
  - assert (Hraise : exists key,
      (key = "List Id" \/ key = "Profile Id") /\
      forall c, ListMemberStream.get_child_context (Y := Y) (record_of rr) c
                = ([], Raise (KeyError key))).
    { unfold ListMemberStream.get_child_context, getitem.
      destruct (lookup (record_of rr) "List Id") as [a|] eqn:Ea.
      - destruct Hmiss as [Hm|Hm]; [discriminate|]. rewrite Hm.
        exists "Profile Id". split; [now right|reflexivity].
      - exists "List Id". split; [now left|reflexivity]. }
    destruct Hraise as [key [Hkey Hraise]]. exists key. split; [exact Hkey|].
    unfold ListMemberStream.sync_record_results. cbn [Comp.for_each].
    unfold ListMemberStream.sync_record, ListMemberStream.prepare_record.
    destruct rr as [record|record c]; cbn [record_of] in Hraise;
      rewrite Hraise; reflexivity.
  - intros record context list_id user_id Ha Hb Hn Hm.
    unfold ListMemberStream.get_child_context, getitem.
    rewrite Ha, Hb, Hn, Hm. reflexivity.
Qed.

Lemma missing_identifier_aborts_context_witness :
  (exists key,
     (key = "List Id" \/ key = "Profile Id") /\
     ListMemberStream.sync_record_results (Y := Empty_set)
       (SampleMembers.list_members true) Sample.calm
       SampleMembers.list_context SampleMembers.list_context
       [Comp.Yield (ListMemberStream.Plain SampleMembers.no_profile_id);
        Comp.Yield (ListMemberStream.Plain SampleMembers.recent)]
       (Ok tt) SampleMembers.start =
     ([], Raise (KeyError key)))
  /\
  ListMemberStream.get_child_context (Y := Empty_set)
    SampleMembers.no_list_name SampleMembers.list_context =
  ([], Ok [("list_id", VStr "l1"); ("user_id", VStr "p6")]).
Proof.
  pose proof (missing_identifier_aborts_context Empty_set
                (SampleMembers.list_members true) Sample.calm
                SampleMembers.list_context SampleMembers.list_context
                SampleMembers.start
                (ListMemberStream.Plain SampleMembers.no_profile_id)
                [Comp.Yield (ListMemberStream.Plain SampleMembers.recent)]
                (Ok tt) (or_intror eq_refl)) as [Habort Hname].
  split.
  - exact Habort.
  - apply Hname; reflexivity.
Defined.

(** C9, as stated, fails: the record without a profile id ends the loop of
    its context with [KeyError], and the record after it, which the loop
    would write, is never processed. *)
Lemma missing_profile_id_stops_the_parent :
  ListMemberStream.sync_record_results (Y := Empty_set)
    (SampleMembers.list_members true) Sample.calm
    SampleMembers.list_context SampleMembers.list_context
    [Comp.Yield (ListMemberStream.Plain SampleMembers.no_profile_id);
     Comp.Yield (ListMemberStream.Plain SampleMembers.recent)]
    (Ok tt) SampleMembers.start =
  ([], Raise (KeyError "Profile Id"))
  /\
  record_messages
    (fst (ListMemberStream.sync_record_results (Y := Empty_set)
            (SampleMembers.list_members true) Sample.calm
            SampleMembers.list_context SampleMembers.list_context
            [Comp.Yield (ListMemberStream.Plain SampleMembers.recent)]
            (Ok tt) SampleMembers.start)) =
  [written SampleMembers.list_context
     (ListMemberStream.Plain SampleMembers.recent)].
Proof. split; reflexivity. Qed.

(** ** Runs of the loop *)

Section Runs.

Context {Y : Type}.
Variables (self : Stream) (w : World).
Variables (current_context state_partition_context : option Dict).

#[local] Abbreviation prepare :=
  (ListMemberStream.prepare_record (Y := Y) self w state_partition_context).
#[local] Abbreviation step :=
  (ListMemberStream.sync_record (Y := Y) self w current_context
     state_partition_context).
#[local] Abbreviation run :=
  (ListMemberStream.sync_record_results (Y := Y) self w current_context
     state_partition_context).

(** Lines 523-557 leave at most one event in the trace, a child sync, and
    return the record as it will be written only when the running count is
    within the limit. *)
Lemma prepare_record_trace (s : ListMemberStream.LoopState)
    (rr : ListMemberStream.RecordResult) :
  (fst (prepare s rr) = [] \/
   exists child, fst (prepare s rr) = [Comp.Eff (SyncChildren child)])
  /\ forall p, snd (prepare s rr) = Ok p ->
       fst p = written state_partition_context rr /\
       within_limit self (ListMemberStream.record_count s) = true.
Proof.
  destruct (snd (ListMemberStream.get_child_context (Y := Y) (record_of rr)
                   (ListMemberStream.child_context s))) as [child|e|] eqn:Hc.
  - destruct (snd (ListMemberStream.list_signup (Y := Y) w
                     (now_at w (ListMemberStream.record_count s))
                     (written state_partition_context rr)))
      as [[ts|]|e|] eqn:Hs.
    + rewrite (prepare_record_derived self w state_partition_context s rr
                 child ts Hc Hs).
      cbv zeta.
      destruct (triggers self ts); cbn [fst snd];
        [destruct (children_outcome w child) as [[]| |]|];
        destruct (within_limit self (ListMemberStream.record_count s));
        (split; [eauto|intros p Hp; inversion Hp; auto]).
    + rewrite (prepare_record_span self w state_partition_context s rr
                 child Hc Hs).
      destruct (selectively_sync_children self); cbn [fst snd];
        [|destruct (within_limit self (ListMemberStream.record_count s))];
        (split; [now left|intros p Hp; inversion Hp; auto]).
    + apply (silent_outcome _ _ (silent_list_signup _ _ _)) in Hs.
      apply (silent_outcome _ _ (silent_get_child_context _ _)) in Hc.
      unfold ListMemberStream.prepare_record, written in *.
      destruct rr as [record|record c]; cbn [record_of] in *;
        rewrite ?(get_child_context_any_context record c
                    (ListMemberStream.child_context s)), Hc;
        unfold Comp.bind at 1; cbn [fst snd app];
        unfold Comp.bind at 1; rewrite Hs; cbn [fst snd];
        (split; [now left|discriminate]).
    + apply (silent_outcome _ _ (silent_list_signup _ _ _)) in Hs.
      apply (silent_outcome _ _ (silent_get_child_context _ _)) in Hc.
      unfold ListMemberStream.prepare_record, written in *.
      destruct rr as [record|record c]; cbn [record_of] in *;
        rewrite ?(get_child_context_any_context record c
                    (ListMemberStream.child_context s)), Hc;
        unfold Comp.bind at 1; cbn [fst snd app];
        unfold Comp.bind at 1; rewrite Hs; cbn [fst snd];
        (split; [now left|discriminate]).
  - apply (silent_outcome _ _ (silent_get_child_context _ _)) in Hc.
    unfold ListMemberStream.prepare_record.
    destruct rr as [record|record c]; cbn [record_of] in *;
      rewrite ?(get_child_context_any_context record c
                  (ListMemberStream.child_context s)), Hc;
      (split; [now left|discriminate]).
  - apply (silent_outcome _ _ (silent_get_child_context _ _)) in Hc.
    unfold ListMemberStream.prepare_record.
    destruct rr as [record|record c]; cbn [record_of] in *;
      rewrite ?(get_child_context_any_context record c
                  (ListMemberStream.child_context s)), Hc;
      (split; [now left|discriminate]).
Qed.

Lemma prepare_record_no_messages (s : ListMemberStream.LoopState)
    (rr : ListMemberStream.RecordResult) :
  record_messages (fst (prepare s rr)) = [] /\
  state_messages (fst (prepare s rr)) = [].
Proof.
  destruct (proj1 (prepare_record_trace s rr)) as [->|[child ->]];
    split; reflexivity.
Qed.

(** The pass through the loop body for a stream that is not selected:
    lines 523-557, then the two counters; the store is not touched. *)
Lemma sync_record_unselected (s : ListMemberStream.LoopState)
    (rr : ListMemberStream.RecordResult) :
  selected self = false ->
  step s rr =
  (fst (prepare s rr),
   match snd (prepare s rr) with
   | Ok p =>
       Ok {| ListMemberStream.store := ListMemberStream.store s;
             ListMemberStream.record_count :=
               ListMemberStream.record_count s + 1;
             ListMemberStream.partition_record_count :=
               ListMemberStream.partition_record_count s + 1;
             ListMemberStream.child_context := Some (snd p) |}
   | Raise e => Raise e
   | OutOfFuel => OutOfFuel
   end).
Proof.
  intros Hsel. unfold ListMemberStream.sync_record.
  rewrite Hsel. unfold Comp.bind, Comp.ret.
  destruct (snd (ListMemberStream.prepare_record self w
                   state_partition_context s rr)); cbn [fst snd app];
    rewrite ?app_nil_r; reflexivity.
Qed.

(** A run for a stream that is not selected writes no record and no
    state message, and when it ends normally the store is the one it
    started with, every record the generator yielded was counted, and
    every record passed the limit check at its running count. *)
Lemma run_unselected (items : list (Comp.Item ListMemberStream.RecordResult))
    (final : Outcome unit) :
  selected self = false ->
  record_messages items = [] -> state_messages items = [] ->
  forall s,
    record_messages (fst (run items final s)) = [] /\
    state_messages (fst (run items final s)) = [] /\
    forall s', snd (run items final s) = Ok s' ->
      ListMemberStream.store s' = ListMemberStream.store s /\
      ListMemberStream.record_count s' =
        ListMemberStream.record_count s
        + Z.of_nat (length (Comp.yields items)) /\
      (Comp.yields items <> [] ->
       within_limit self (ListMemberStream.record_count s' - 1) = true).
Proof.
  intros Hsel. unfold ListMemberStream.sync_record_results.
  induction items as [|[e|rr] items IH]; intros Hr Hm s.
  - cbn. split; [|split]; try (now destruct final as [[]| |]).
    intros s' H. destruct final as [[]| |]; cbn in H; inversion H.
    split; [reflexivity|split; [lia|congruence]].
  - cbn [Comp.for_each]. unfold Comp.bind, Comp.emit; cbn [fst snd app].
    assert (Hr' : record_messages items = [])
      by (destruct e; cbn in Hr; congruence).
    assert (Hm' : state_messages items = [])
      by (destruct e; cbn in Hm; congruence).
    destruct (IH Hr' Hm' s) as [IH1 [IH2 IH3]].
    destruct e; cbn in Hr, Hm; try discriminate;
      cbn [record_messages state_messages Comp.yields];
      (split; [|split]; assumption).
  - cbn [Comp.for_each].
    rewrite (sync_record_unselected s rr Hsel).
    destruct (prepare_record_no_messages s rr) as [Hpr Hpm].
    destruct (prepare_record_trace s rr) as [_ Hok].
    unfold Comp.bind; cbn [fst snd].
    destruct (snd (prepare s rr)) as [p| |] eqn:Hp; cbn [fst snd];
      try (split; [|split]; try assumption; discriminate).
    cbn in Hr, Hm.
    destruct (IH Hr Hm
                {| ListMemberStream.store := ListMemberStream.store s;
                   ListMemberStream.record_count :=
                     ListMemberStream.record_count s + 1;
                   ListMemberStream.partition_record_count :=
                     ListMemberStream.partition_record_count s + 1;
                   ListMemberStream.child_context := Some (snd p) |})
      as [IH1 [IH2 IH3]].
    rewrite record_messages_app, state_messages_app, Hpr, Hpm, IH1, IH2.
    split; [reflexivity|split; [reflexivity|]].
    intros s' H. destruct (IH3 s' H) as [Hstore [Hcount Hlim]].
    cbn [ListMemberStream.record_count ListMemberStream.store] in *.
    split; [exact Hstore|split].
    + rewrite Hcount. cbn [Comp.yields length]. lia.
    + intros _. destruct (Comp.yields items) as [|y ys] eqn:Hy.
      * cbn in Hcount. rewrite Hcount.
        replace (ListMemberStream.record_count s + 1 + 0 - 1)
          with (ListMemberStream.record_count s) by lia.
        now destruct (Hok p eq_refl).
      * apply Hlim. discriminate.
Qed.

End Runs.

(** ** Runs over derived records *)

Lemma room_within (self : Stream) (count : Z) (n : nat) :
  within_limit self count = true ->
  room self count (S n) = S (room self (count + 1) n).
Proof.
  unfold within_limit, room.
  destruct (MAX_RECORDS_LIMIT self) as [limit|]; [|reflexivity].
  intros H. apply Z.ltb_lt in H.
  replace (Z.to_nat (limit - count))
    with (S (Z.to_nat (limit - (count + 1)))) by lia.
  reflexivity.
Qed.

Lemma room_beyond (self : Stream) (count : Z) (n : nat) :
  within_limit self count = false -> room self count n = 0%nat.
Proof.
  unfold within_limit, room.
  destruct (MAX_RECORDS_LIMIT self) as [limit|]; [|discriminate].
  intros H. apply Z.ltb_ge in H.
  replace (Z.to_nat (limit - count)) with 0%nat by lia.
  apply Nat.min_0_r.
Qed.

Lemma room_all (self : Stream) (count : Z) (n : nat) :
  room self count (S n) = S n ->
  within_limit self count = true /\ room self (count + 1) n = n.
Proof.
  intros H. destruct (within_limit self count) eqn:Hw.
  - rewrite (room_within self count n Hw) in H. split; [reflexivity|lia].
  - rewrite (room_beyond self count (S n) Hw) in H. discriminate.
Qed.

Lemma last_cons {A} (x : A) (l : list A) (d : A) :
  last (x :: l) d = last l x.
Proof.
  revert x d. induction l as [|y l IH]; intros x d; [reflexivity|].
  change (last (x :: y :: l) d) with (last (y :: l) d).
  rewrite !IH. reflexivity.
Qed.

Lemma log_lines_app {Y} (a b : list (Comp.Item Y)) :
  log_lines (a ++ b) = log_lines a ++ log_lines b.
Proof.
  induction a as [|[[]|] a IH]; cbn; rewrite ?IH; reflexivity.
Qed.

Section DerivedRuns.

Context {Y : Type}.
Variables (self : Stream) (w : World).
Variables (current_context state_partition_context : option Dict).

#[local] Abbreviation step :=
  (ListMemberStream.sync_record (Y := Y) self w current_context
     state_partition_context).
#[local] Abbreviation run :=
  (ListMemberStream.sync_record_results (Y := Y) self w current_context
     state_partition_context).
#[local] Abbreviation yielded ds :=
  (map (fun d => Comp.Yield (Y := ListMemberStream.RecordResult)
                   (derived_result d)) ds).

(** Lines 523-557 for the first of the derived records. *)
Lemma prepare_record_first (s : ListMemberStream.LoopState) (d : Derived)
    (ds : list Derived) :
  all_derived Y self w state_partition_context
    (ListMemberStream.record_count s) (d :: ds) ->
  ListMemberStream.prepare_record (Y := Y) self w state_partition_context s
    (derived_result d) =
  (child_sync_of self d,
   if within_limit self (ListMemberStream.record_count s)
   then Ok (written state_partition_context (derived_result d),
            derived_child d)
   else Raise MaxRecordsLimitException).
Proof.
  intros [Hc [Hs [Hk _]]].
  rewrite (get_child_context_any_context _ None
             (ListMemberStream.child_context s)) in Hc.
  rewrite (prepare_record_derived self w state_partition_context s
             (derived_result d) (derived_child d) (derived_stamp d) Hc Hs).
  cbv zeta. unfold child_sync_of.
  destruct (triggers self (derived_stamp d)); [|reflexivity].
  rewrite (Hk eq_refl). reflexivity.
Qed.

(** The records of a stream that is not selected are counted up to the
    limit; the children of the record that reaches it are synced before
    the limit is checked. *)
Lemma run_unselected_derived (ds : list Derived) :
  selected self = false ->
  forall s,
    all_derived Y self w state_partition_context
      (ListMemberStream.record_count s) ds ->
    run (yielded ds) (Ok tt) s =
    (flat_map (child_sync_of self)
       (firstn (S (room self (ListMemberStream.record_count s) (length ds)))
          ds),
     if (room self (ListMemberStream.record_count s) (length ds)
         =? length ds)%nat
     then Ok (counted s ds)
     else Raise MaxRecordsLimitException).
Proof.
  intros Hsel. unfold ListMemberStream.sync_record_results.
  induction ds as [|d ds IH]; intros s Hd.
  - cbn [map Comp.for_each firstn flat_map length].
    replace (room self (ListMemberStream.record_count s) 0) with 0%nat
      by (unfold room; destruct (MAX_RECORDS_LIMIT self); reflexivity).
    cbn [Nat.eqb]. unfold counted, Comp.ret. cbn [length map last].
    destruct s as [st rc prc cc]. cbn. rewrite !Z.add_0_r. reflexivity.
  - cbn [map Comp.for_each].
    rewrite (sync_record_unselected self w current_context
               state_partition_context s (derived_result d) Hsel).
    rewrite (prepare_record_first s d ds Hd).
    destruct Hd as [_ [_ [_ Hrest]]].
    destruct (within_limit self (ListMemberStream.record_count s)) eqn:Hw.
    + unfold Comp.bind. cbn [fst snd].
      match goal with
      | |- context [Comp.for_each _ _ _ ?s1] =>
          specialize (IH s1); cbn [ListMemberStream.record_count] in IH;
          rewrite (IH Hrest)
      end.
      cbn [length]. rewrite (room_within self _ (length ds) Hw).
      cbn [firstn flat_map fst snd Nat.eqb].
      destruct (room self (ListMemberStream.record_count s + 1) (length ds)
                =? length ds)%nat; [|reflexivity].
      unfold counted. cbn [ListMemberStream.store
        ListMemberStream.record_count ListMemberStream.partition_record_count
        ListMemberStream.child_context length map].
      rewrite last_cons.
      replace (ListMemberStream.record_count s + 1 + Z.of_nat (length ds))
        with (ListMemberStream.record_count s + Z.of_nat (S (length ds)))
        by lia.
      replace (ListMemberStream.partition_record_count s + 1
               + Z.of_nat (length ds))
        with (ListMemberStream.partition_record_count s
              + Z.of_nat (S (length ds))) by lia.
      reflexivity.
    + unfold Comp.bind. cbn [fst snd length].
      rewrite (room_beyond self _ (S (length ds)) Hw).
      cbn [firstn flat_map Nat.eqb]. rewrite app_nil_r. reflexivity.
Qed.

End DerivedRuns.

(** C10.  When the list-members stream is not selected, a pass through the
    loop body still derives the child context, compares the signup
    timestamp with the cutoff, syncs the children when it is after it, and
    checks the record limit against the running count; it then counts the
    record and leaves the store as it was.  A whole run writes no record
    message and no state message, and when it ends normally the store is
    unchanged and the count has grown by the number of records fetched.
    Over records from which a child context and a timestamp are derived,
    the run is this: the children of the records that trigger a sync are
    synced, in order; when the limit leaves room for every record the run
    ends normally with every record counted; otherwise it raises
    [MaxRecordsLimitException] at the first record met with the count at
    the limit, after the children of that record were synced. *)
Theorem unselected_stream_syncs_children_and_counts :
  forall (Y : Type) (self : Stream) (w : World)
         (current_context state_partition_context : option Dict),
    selected self = false ->
    (forall (s : ListMemberStream.LoopState)
            (rr : ListMemberStream.RecordResult) (child : Dict) (ts : Z),
       snd (ListMemberStream.get_child_context (Y := Y) (record_of rr)
              (ListMemberStream.child_context s)) = Ok child ->
       snd (ListMemberStream.list_signup (Y := Y) w
              (now_at w (ListMemberStream.record_count s))
              (written state_partition_context rr)) = Ok (DateTime ts) ->
       ListMemberStream.sync_record (Y := Y) self w current_context
         state_partition_context s rr =
       ((if triggers self ts then [Comp.Eff (SyncChildren child)] else []),
        match (if triggers self ts then children_outcome w child else Ok tt)
        with
        | Ok _ =>
            if within_limit self (ListMemberStream.record_count s)
            then Ok {| ListMemberStream.store := ListMemberStream.store s;
                       ListMemberStream.record_count :=
                         ListMemberStream.record_count s + 1;
                       ListMemberStream.partition_record_count :=
                         ListMemberStream.partition_record_count s + 1;
                       ListMemberStream.child_context := Some child |}
            else Raise MaxRecordsLimitException
        | Raise e => Raise e
        | OutOfFuel => OutOfFuel
        end))
    /\
    (forall (items : list (Comp.Item ListMemberStream.RecordResult))
            (final : Outcome unit) (s : ListMemberStream.LoopState),
       record_messages items = [] -> state_messages items = [] ->
       let r := ListMemberStream.sync_record_results (Y := Y) self w
                  current_context state_partition_context items final s in
       record_messages (fst r) = [] /\
       state_messages (fst r) = [] /\
       forall s', snd r = Ok s' ->
         ListMemberStream.store s' = ListMemberStream.store s /\
         ListMemberStream.record_count s' =
           ListMemberStream.record_count s
           + Z.of_nat (length (Comp.yields items)) /\
         (Comp.yields items <> [] ->
          within_limit self (ListMemberStream.record_count s' - 1) = true))
    /\
    (forall (ds : list Derived) (s : ListMemberStream.LoopState),
       all_derived Y self w state_partition_context
         (ListMemberStream.record_count s) ds ->
       let passing :=
         room self (ListMemberStream.record_count s) (length ds) in
       ListMemberStream.sync_record_results (Y := Y) self w
         current_context state_partition_context
         (map (fun d => Comp.Yield (derived_result d)) ds) (Ok tt) s =
       (flat_map (child_sync_of self) (firstn (S passing) ds),
        if (passing =? length ds)%nat
        then Ok (counted s ds)
        else Raise MaxRecordsLimitException)).
Proof.
  intros Y self w cc spc Hsel. split; [|split].
  - intros s rr child ts Hc Hs.
    rewrite (sync_record_unselected self w cc spc s rr Hsel).
    rewrite (prepare_record_derived self w spc s rr child ts Hc Hs).
    cbv zeta.
    destruct (triggers self ts); cbn [fst snd];
      [destruct (children_outcome w child) as [[]| |]|];
      destruct (within_limit self (ListMemberStream.record_count s));
      reflexivity.
  - intros items final s Hr Hm.
    exact (run_unselected self w cc spc items final Hsel Hr Hm s).
  - intros ds s Hd passing.
    exact (run_unselected_derived self w cc spc ds Hsel s Hd).
Qed.

Lemma unselected_stream_syncs_children_and_counts_witness :
  ListMemberStream.sync_record (Y := Empty_set)
    (SampleMembers.list_members false) Sample.calm
    SampleMembers.list_context SampleMembers.list_context
    SampleMembers.start (ListMemberStream.Plain SampleMembers.recent) =
  ([Comp.Eff (SyncChildren (SampleMembers.child_of "p3"))],
   Ok {| ListMemberStream.store :=
           ListMemberStream.store SampleMembers.start;
         ListMemberStream.record_count := 1;
         ListMemberStream.partition_record_count := 1;
         ListMemberStream.child_context :=
           Some (SampleMembers.child_of "p3") |})
  /\
  record_messages
    (fst (ListMemberStream.sync_record_results (Y := Empty_set)
            (SampleMembers.list_members false) Sample.calm
            SampleMembers.list_context SampleMembers.list_context
            [Comp.Yield (ListMemberStream.Plain SampleMembers.recent);
             Comp.Yield (ListMemberStream.Plain SampleMembers.old)]
            (Ok tt) SampleMembers.start)) = []
  /\
  ListMemberStream.sync_record_results (Y := Empty_set)
    (SampleMembers.limited false 1) Sample.calm
    SampleMembers.list_context SampleMembers.list_context
    [Comp.Yield (ListMemberStream.Plain SampleMembers.old);
     Comp.Yield (ListMemberStream.Plain SampleMembers.recent);
     Comp.Yield (ListMemberStream.Plain SampleMembers.borderline)]
    (Ok tt) SampleMembers.start =
  ([Comp.Eff (SyncChildren (SampleMembers.child_of "p3"))],
   Raise MaxRecordsLimitException).
Proof.
  pose proof (unselected_stream_syncs_children_and_counts Empty_set
                (SampleMembers.list_members false) Sample.calm
                SampleMembers.list_context SampleMembers.list_context
                eq_refl) as [Hstep [Hrun _]].
  pose proof (unselected_stream_syncs_children_and_counts Empty_set
                (SampleMembers.limited false 1) Sample.calm
                SampleMembers.list_context SampleMembers.list_context
                eq_refl) as [_ [_ Hlimit]].
  split; [|split].
  - exact (Hstep SampleMembers.start
             (ListMemberStream.Plain SampleMembers.recent)
             (SampleMembers.child_of "p3") (19894 * usec_per_day)
             eq_refl eq_refl).
  - exact (proj1 (Hrun
             [Comp.Yield (ListMemberStream.Plain SampleMembers.recent);
             Comp.Yield (ListMemberStream.Plain SampleMembers.old)]
             (Ok tt) SampleMembers.start eq_refl eq_refl)).
  - apply (Hlimit SampleMembers.three_derived SampleMembers.start).
    cbn [all_derived SampleMembers.three_derived].
    split; [reflexivity|split; [reflexivity|split; [intros _; reflexivity|]]].
    split; [reflexivity|split; [reflexivity|split; [intros _; reflexivity|]]].
    split; [reflexivity|split; [reflexivity|split; [intros _; reflexivity|]]].
    exact I.
Defined.

(** With a limit of one record the selected stream writes the first
    record and raises at the second, after the sync of its children. *)
Example limit_of_one_writes_one_record :
  ListMemberStream.sync_record_results (Y := Empty_set)
    (SampleMembers.limited true 1) Sample.calm
    SampleMembers.list_context SampleMembers.list_context
    [Comp.Yield (ListMemberStream.Plain SampleMembers.old);
     Comp.Yield (ListMemberStream.Plain SampleMembers.recent);
     Comp.Yield (ListMemberStream.Plain SampleMembers.borderline)]
    (Ok tt) SampleMembers.start =
  ([Comp.Eff
      (RecordMessage
         (written SampleMembers.list_context
            (ListMemberStream.Plain SampleMembers.old)));
    Comp.Eff (SyncChildren (SampleMembers.child_of "p3"))],
   Raise MaxRecordsLimitException).
Proof. vm_compute. reflexivity. Qed.

(** ** The bookmark of a context *)

Lemma submap_In (a b : Dict) :
  (forall k v, In (k, v) a -> lookup b k = Some v) -> submap a b = true.
Proof.
  induction a as [|[k v] a IH]; intros H; cbn [submap]; [reflexivity|].
  rewrite (H k v (or_introl eq_refl)).
  rewrite (proj2 (Value_eqb_eq v v) eq_refl). cbn [andb].
  apply IH. intros k' v' Hin. apply H. now right.
Qed.

Lemma Dict_eqb_refl (d : Dict) : NoDup (map fst d) -> Dict_eqb d d = true.
Proof.
  intros H. unfold Dict_eqb. rewrite Nat.eqb_refl. cbn [andb].
  apply submap_In. intros k v Hin. now apply lookup_In_NoDup.
Qed.

Lemma find_set_partition (ps : list (Dict * Bookmark)) (c : Dict)
    (b : Bookmark) :
  Dict_eqb c c = true -> find_partition (set_partition ps c b) c = Some b.
Proof.
  intros H. induction ps as [|[c' b'] ps IH]; cbn [set_partition].
  - cbn [find_partition]. now rewrite H.
  - destruct (Dict_eqb c' c) eqn:E; cbn [find_partition]; rewrite E;
      [reflexivity|exact IH].
Qed.

(** What is written through the reference [get_context_state] returns is
    what it returns afterwards. *)
Lemma get_set_context_state (self : Stream) (store : Store)
    (context : option Dict) (b : Bookmark) :
  distinct_keys (_get_state_partition_context self context) ->
  get_context_state self (set_context_state self store context b) context
  = b.
Proof.
  unfold get_context_state, set_context_state, distinct_keys.
  destruct (_get_state_partition_context self context) as [[|kv spc]|];
    intros H; cbn [stream_state partition_states]; try reflexivity.
  rewrite find_set_partition; [reflexivity|now apply Dict_eqb_refl].
Qed.

(** The bookmark of a stream that is not sorted after a record: the
    bookmark's own value is left alone, and the markers hold the greater
    of the record's value and the one they held. *)
Lemma increment_state_unsorted {Y : Type} (b : Bookmark) (record : Dict)
    (rk v : string) (old : option string) :
  lookup record rk = Some (VStr v) ->
  marker b = option_map VStr old ->
  exists b',
    increment_state (Y := Y) b record rk false = ([], Ok b') /\
    replication_key_value b' = replication_key_value b /\
    marker b' = option_map VStr (highest old [v]).
Proof.
  intros Hv Hm. unfold increment_state, getitem, marker in *.
  rewrite Hv. unfold Comp.bind, Comp.ret. cbn [fst snd app].
  destruct (progress_markers b) as [|m ms] eqn:Hp.
  - destruct old as [g|]; [discriminate Hm|].
    cbn. eexists. split; [reflexivity|split; reflexivity].
  - rewrite Hp, Hm.
    destruct old as [g|]; cbn [option_map value_ge highest fold_left].
    + destruct (String.ltb v g); cbn [negb];
        (eexists; split; [reflexivity|split; [reflexivity|]]).
      * rewrite Hp. exact Hm.
      * cbn [with_markers progress_markers].
        rewrite lookup_setitem, String.eqb_refl. reflexivity.
    + eexists. split; [reflexivity|split; [reflexivity|]].
      cbn [with_markers progress_markers].
      rewrite lookup_setitem, String.eqb_refl. reflexivity.
Qed.

Lemma highest_cons (old : option string) (v : string) (vs : list string) :
  highest old (v :: vs) = highest (highest old [v]) vs.
Proof. reflexivity. Qed.

Section SelectedRuns.

Context {Y : Type}.
Variables (self : Stream) (w : World).
Variables (current_context state_partition_context : option Dict).

#[local] Abbreviation prepare :=
  (ListMemberStream.prepare_record (Y := Y) self w state_partition_context).
#[local] Abbreviation write :=
  (ListMemberStream.write_record (Y := Y) self current_context
     state_partition_context).
#[local] Abbreviation step :=
  (ListMemberStream.sync_record (Y := Y) self w current_context
     state_partition_context).
#[local] Abbreviation run :=
  (ListMemberStream.sync_record_results (Y := Y) self w current_context
     state_partition_context).

Lemma sync_record_selected (s : ListMemberStream.LoopState)
    (rr : ListMemberStream.RecordResult) :
  selected self = true ->
  step s rr =
  match snd (prepare s rr) with
  | Ok p =>
      (fst (prepare s rr) ++ fst (write s (fst p)),
       match snd (write s (fst p)) with
       | Ok store' =>
           Ok {| ListMemberStream.store := store';
                 ListMemberStream.record_count :=
                   ListMemberStream.record_count s + 1;
                 ListMemberStream.partition_record_count :=
                   ListMemberStream.partition_record_count s + 1;
                 ListMemberStream.child_context := Some (snd p) |}
       | Raise e => Raise e
       | OutOfFuel => OutOfFuel
       end)
  | Raise e => (fst (prepare s rr), Raise e)
  | OutOfFuel => (fst (prepare s rr), OutOfFuel)
  end.
Proof.
  intros Hsel. unfold ListMemberStream.sync_record.
  rewrite Hsel. unfold Comp.bind, Comp.ret.
  destruct (snd (ListMemberStream.prepare_record self w
                   state_partition_context s rr)) as [p| |];
    cbn [fst snd]; try reflexivity.
  destruct (snd (ListMemberStream.write_record self current_context
                   state_partition_context s (fst p)));
    cbn [fst snd]; rewrite ?app_nil_r; reflexivity.
Qed.

Hypothesis Hselected : selected self = true.
Hypothesis Hunsorted : is_sorted self = false.
Hypothesis Hfrequency : STATE_MSG_FREQUENCY self <> 0.
Hypothesis Hdistinct :
  distinct_keys (_get_state_partition_context self current_context).

Variable rk : string.
Hypothesis Hrk : replication_key self = Some rk.
Hypothesis Hrk_named : rk <> "".

(** Lines 558-574 for a stream that is not sorted and a record with a
    string under the replication key: the record is written and the
    markers of the context's bookmark take its value when it is not less
    than theirs; nothing is raised. *)
Lemma write_record_unsorted (s : ListMemberStream.LoopState)
    (record : Dict) (v : string) (old : option string) :
  lookup record rk = Some (VStr v) ->
  marker (get_context_state self (ListMemberStream.store s) current_context)
    = option_map VStr old ->
  exists store',
    write s record =
    ((if (ListMemberStream.record_count s - 1)
           mod STATE_MSG_FREQUENCY self =? 0
      then [Comp.Eff (StateMessage (ListMemberStream.store s))] else [])
     ++ [Comp.Eff (RecordMessage record)],
     Ok store') /\
    replication_key_value (get_context_state self store' current_context)
    = replication_key_value
        (get_context_state self (ListMemberStream.store s) current_context)
    /\
    marker (get_context_state self store' current_context)
    = option_map VStr (highest old [v]).
Proof.
  intros Hv Hm.
  destruct (increment_state_unsorted (Y := Y)
              (get_context_state self (ListMemberStream.store s)
                 current_context) record rk v old Hv Hm)
    as [b' [Hinc [Hvalue Hmarker]]].
  assert (Hstore :
    _increment_stream_state (Y := Y) self (ListMemberStream.store s) record
      current_context =
    ([], Ok (set_context_state self (ListMemberStream.store s)
               current_context b'))).
  { unfold _increment_stream_state. rewrite Hrk, Hunsorted.
    destruct record as [|kv record]; [discriminate Hv|].
    destruct rk as [|c rk']; [congruence|].
    rewrite Hinc. reflexivity. }
  exists (set_context_state self (ListMemberStream.store s) current_context
            b').
  rewrite (write_record_trace self current_context state_partition_context
             s record Hfrequency), Hstore.
  cbn [fst snd].
  rewrite (get_set_context_state self _ current_context b' Hdistinct).
  split; [reflexivity|split; assumption].
Qed.

(** A run of a selected stream that is not sorted, over derived records
    that the limit leaves room for and that hold strings under the
    replication key. *)
Lemma run_unsorted_derived (ds : list Derived) :
  forall (values : list string) (s : ListMemberStream.LoopState)
         (old : option string),
    all_derived Y self w state_partition_context
      (ListMemberStream.record_count s) ds ->
    room self (ListMemberStream.record_count s) (length ds) = length ds ->
    map (fun d =>
           lookup (written state_partition_context (derived_result d)) rk)
        ds
    = map (fun v => Some (VStr v)) values ->
    marker (get_context_state self (ListMemberStream.store s)
              current_context) = option_map VStr old ->
    let r := run (map (fun d => Comp.Yield (derived_result d)) ds)
               (Ok tt) s in
    record_messages (fst r) =
      map (fun d => written state_partition_context (derived_result d)) ds
    /\ child_syncs (fst r) =
         child_syncs (flat_map (child_sync_of (Y := Y) self) ds)
    /\ log_lines (fst r) = []
    /\ exists s',
         snd r = Ok s' /\
         ListMemberStream.record_count s' =
           ListMemberStream.record_count s + Z.of_nat (length ds) /\
         replication_key_value
           (get_context_state self (ListMemberStream.store s')
              current_context)
         = replication_key_value
             (get_context_state self (ListMemberStream.store s)
                current_context) /\
         marker (get_context_state self (ListMemberStream.store s')
                   current_context)
         = option_map VStr (highest old values).
Proof.
  unfold ListMemberStream.sync_record_results.
  induction ds as [|d ds IH]; intros values s old Hd Hroom Hvalues Hm;
    cbv zeta in *.
  - destruct values; [|discriminate Hvalues].
    cbn [map Comp.for_each Comp.ret fst snd flat_map].
    split; [reflexivity|split; [reflexivity|split; [reflexivity|]]].
    exists s. cbn [length Z.of_nat]. rewrite Z.add_0_r.
    split; [reflexivity|split; [reflexivity|split; [reflexivity|exact Hm]]].
  - destruct values as [|v values]; [discriminate Hvalues|].
    cbn [map] in Hvalues. injection Hvalues as Hv Hvalues.
    cbn [length] in Hroom.
    destruct (room_all self _ _ Hroom) as [Hwithin Hroom'].
    pose proof (prepare_record_first self w state_partition_context s d ds
                  Hd) as Hp.
    rewrite Hwithin in Hp.
    destruct Hd as [_ [_ [_ Hrest]]].
    destruct (write_record_unsorted s
                (written state_partition_context (derived_result d)) v old
                Hv Hm) as [store' [Hw [Hvalue Hmarker]]].
    assert (Hstep :
      step s (derived_result d) =
      (child_sync_of self d
         ++ (if (ListMemberStream.record_count s - 1)
                  mod STATE_MSG_FREQUENCY self =? 0
             then [Comp.Eff (StateMessage (ListMemberStream.store s))]
             else [])
         ++ [Comp.Eff
               (RecordMessage
                  (written state_partition_context (derived_result d)))],
       Ok {| ListMemberStream.store := store';
             ListMemberStream.record_count :=
               ListMemberStream.record_count s + 1;
             ListMemberStream.partition_record_count :=
               ListMemberStream.partition_record_count s + 1;
             ListMemberStream.child_context := Some (derived_child d) |})).
    { rewrite (sync_record_selected s (derived_result d) Hselected), Hp.
      cbn [fst snd]. rewrite Hw. reflexivity. }
    cbn [map Comp.for_each]. rewrite Hstep.
    unfold Comp.bind. cbn [fst snd].
    match goal with
    | |- context [Comp.for_each _ _ _ ?s1] =>
        specialize (IH values s1 (highest old [v]));
        cbn [ListMemberStream.record_count ListMemberStream.store] in IH;
        destruct (IH Hrest Hroom' Hvalues Hmarker)
          as [IHr [IHc [IHl [s' [Hs' [Hcount [Hkept Hhigh]]]]]]]
    end.
    assert (Hquiet :
      record_messages (child_sync_of (Y := Y) self d) = [] /\
      log_lines (child_sync_of (Y := Y) self d) = []).
    { unfold child_sync_of. destruct (triggers self (derived_stamp d));
        split; reflexivity. }
    destruct Hquiet as [Hqr Hql].
    split; [|split; [|split]].
    + rewrite !record_messages_app, Hqr, IHr.
      destruct ((ListMemberStream.record_count s - 1)
                  mod STATE_MSG_FREQUENCY self =? 0); reflexivity.
    + cbn [flat_map]. rewrite !child_syncs_app, IHc.
      destruct ((ListMemberStream.record_count s - 1)
                  mod STATE_MSG_FREQUENCY self =? 0);
        cbn [child_syncs app]; rewrite ?app_nil_r; reflexivity.
    + rewrite !log_lines_app, Hql, IHl.
      destruct ((ListMemberStream.record_count s - 1)
                  mod STATE_MSG_FREQUENCY self =? 0); reflexivity.
    + exists s'. split; [exact Hs'|split; [|split]].
      * rewrite Hcount. cbn [length]. lia.
      * rewrite Hkept. exact Hvalue.
      * rewrite Hhigh, highest_cons. reflexivity.
Qed.

End SelectedRuns.

(** C1, as amended.  The list-members stream does not declare its records
    sorted, and for a selected stream that does not, the loop checks no
    order: over records from which a child context and a timestamp are
    derived, that the limit leaves room for and that hold strings under
    the replication key, it writes every record exactly once and in the
    order fetched, also a record whose value is less than one before it,
    logs nothing, raises nothing and ends normally with every record
    counted.  The value of the context's bookmark is left as it was; the
    greatest value met is kept under its progress markers. *)
Theorem out_of_order_record_is_written_and_sync_goes_on :
  forall (Y : Type) (self : Stream) (w : World)
         (current_context state_partition_context : option Dict)
         (ds : list Derived) (values : list string)
         (s : ListMemberStream.LoopState) (rk : string)
         (old : option string),
    selected self = true ->
    is_sorted self = false ->
    STATE_MSG_FREQUENCY self <> 0 ->
    distinct_keys (_get_state_partition_context self current_context) ->
    replication_key self = Some rk ->
    rk <> "" ->
    all_derived Y self w state_partition_context
      (ListMemberStream.record_count s) ds ->
    room self (ListMemberStream.record_count s) (length ds) = length ds ->
    map (fun d =>
           lookup (written state_partition_context (derived_result d)) rk)
        ds
    = map (fun v => Some (VStr v)) values ->
    marker (get_context_state self (ListMemberStream.store s)
              current_context) = option_map VStr old ->
    let r := ListMemberStream.sync_record_results (Y := Y) self w
               current_context state_partition_context
               (map (fun d => Comp.Yield (derived_result d)) ds)
               (Ok tt) s in
    record_messages (fst r) =
      map (fun d => written state_partition_context (derived_result d)) ds
    /\ child_syncs (fst r) =
         child_syncs (flat_map (child_sync_of (Y := Y) self) ds)
    /\ log_lines (fst r) = []
    /\ exists s',
         snd r = Ok s' /\
         ListMemberStream.record_count s' =
           ListMemberStream.record_count s + Z.of_nat (length ds) /\
         replication_key_value
           (get_context_state self (ListMemberStream.store s')
              current_context)
         = replication_key_value
             (get_context_state self (ListMemberStream.store s)
                current_context) /\
         marker (get_context_state self (ListMemberStream.store s')
                   current_context)
         = option_map VStr (highest old values).
Proof.
  intros Y self w cc spc ds values s rk old
    Hsel Hsort Hf Hdist Hrk Hnamed Hd Hroom Hvalues Hm.
  exact (run_unsorted_derived self w cc spc Hsel Hsort Hf Hdist rk Hrk
           Hnamed ds values s old Hd Hroom Hvalues Hm).
Qed.

Lemma out_of_order_record_is_written_and_sync_goes_on_witness :
  record_messages
    (fst (ListMemberStream.sync_record_results (Y := Empty_set)
            (SampleMembers.list_members true) Sample.calm
            SampleMembers.list_context SampleMembers.list_context
            [Comp.Yield (ListMemberStream.Plain SampleMembers.old);
             Comp.Yield (ListMemberStream.Plain SampleMembers.recent)]
            (Ok tt) SampleMembers.start))
  = [written SampleMembers.list_context
       (ListMemberStream.Plain SampleMembers.old);
     written SampleMembers.list_context
       (ListMemberStream.Plain SampleMembers.recent)]
  /\ log_lines
       (fst (ListMemberStream.sync_record_results (Y := Empty_set)
               (SampleMembers.list_members true) Sample.calm
               SampleMembers.list_context SampleMembers.list_context
               [Comp.Yield (ListMemberStream.Plain SampleMembers.old);
                Comp.Yield (ListMemberStream.Plain SampleMembers.recent)]
               (Ok tt) SampleMembers.start))
     = []
  /\ exists s',
       snd (ListMemberStream.sync_record_results (Y := Empty_set)
              (SampleMembers.list_members true) Sample.calm
              SampleMembers.list_context SampleMembers.list_context
              [Comp.Yield (ListMemberStream.Plain SampleMembers.old);
               Comp.Yield (ListMemberStream.Plain SampleMembers.recent)]
              (Ok tt) SampleMembers.start) = Ok s'
       /\ marker (get_context_state (SampleMembers.list_members true)
                    (ListMemberStream.store s') SampleMembers.list_context)
          = Some (VStr "2024-01-04").
Proof.
  assert (Hdistinct :
    distinct_keys
      (_get_state_partition_context (SampleMembers.list_members true)
         SampleMembers.list_context)).
  { cbn. constructor; [intros [H|[]]; discriminate H|].
    constructor; [intros []|constructor]. }
  assert (Hderived :
    all_derived Empty_set (SampleMembers.list_members true) Sample.calm
      SampleMembers.list_context
      (ListMemberStream.record_count SampleMembers.start)
      [SampleMembers.derived SampleMembers.old "p4" 19875;
       SampleMembers.derived SampleMembers.recent "p3" 19894]).
  { cbn [all_derived].
    split; [reflexivity|split; [reflexivity|split; [intros _; reflexivity|]]].
    split; [reflexivity|split; [reflexivity|split; [intros _; reflexivity|]]].
    exact I. }
  destruct (out_of_order_record_is_written_and_sync_goes_on Empty_set
              (SampleMembers.list_members true) Sample.calm
              SampleMembers.list_context SampleMembers.list_context
              [SampleMembers.derived SampleMembers.old "p4" 19875;
               SampleMembers.derived SampleMembers.recent "p3" 19894]
              ["2024-01-04"; "2024-01-03"] SampleMembers.start
              "List Signup" None
              eq_refl eq_refl ltac:(discriminate) Hdistinct eq_refl
              ltac:(discriminate) Hderived eq_refl eq_refl eq_refl)
    as [Hrecords [_ [Hlogs [s' [Hok [_ [_ Hmarker]]]]]]].
  split; [exact Hrecords|split; [exact Hlogs|]].
  exists s'. split; [exact Hok|exact Hmarker].
Defined.

(** C1, as stated, fails: the second record holds a replication-key
    value below that of the first, it is written all the same, and the
    loop logs nothing and ends normally. *)
Lemma no_ordering_error_is_raised :
  lookup SampleMembers.old "List Signup" = Some (VStr "2024-01-04")
  /\ lookup SampleMembers.recent "List Signup" = Some (VStr "2024-01-03")
  /\ String.ltb "2024-01-03" "2024-01-04" = true
  /\ record_messages
       (fst (ListMemberStream.sync_record_results (Y := Empty_set)
               (SampleMembers.list_members true) Sample.calm
               SampleMembers.list_context SampleMembers.list_context
               [Comp.Yield (ListMemberStream.Plain SampleMembers.old);
                Comp.Yield (ListMemberStream.Plain SampleMembers.recent)]
               (Ok tt) SampleMembers.start))
     = [written SampleMembers.list_context
          (ListMemberStream.Plain SampleMembers.old);
        written SampleMembers.list_context
          (ListMemberStream.Plain SampleMembers.recent)]
  /\ log_lines
       (fst (ListMemberStream.sync_record_results (Y := Empty_set)
               (SampleMembers.list_members true) Sample.calm
               SampleMembers.list_context SampleMembers.list_context
               [Comp.Yield (ListMemberStream.Plain SampleMembers.old);
                Comp.Yield (ListMemberStream.Plain SampleMembers.recent)]
               (Ok tt) SampleMembers.start))
     = []
  /\ exists s',
       snd (ListMemberStream.sync_record_results (Y := Empty_set)
              (SampleMembers.list_members true) Sample.calm
              SampleMembers.list_context SampleMembers.list_context
              [Comp.Yield (ListMemberStream.Plain SampleMembers.old);
               Comp.Yield (ListMemberStream.Plain SampleMembers.recent)]
              (Ok tt) SampleMembers.start) = Ok s'.
Proof.
  split; [reflexivity|split; [reflexivity|split; [reflexivity|]]].
  split; [vm_compute; reflexivity|split; [vm_compute; reflexivity|]].
  eexists. vm_compute. reflexivity.
Qed.

(** ** Jobs that fail while they are polled *)

(** A poll that raises ends [get_job_url] with that exception, after the
    polls before it. *)
Lemma get_job_url_poll_raises {Y : Type} (w : World) (job_id : Value)
    (timeout : Z) (k fuel : nat) (e : Exn) :
  (k < fuel)%nat ->
  pending_within w job_id timeout k ->
  poll_result (api_get w job_id k) = Raise e ->
  SailthruJobStream.get_job_url (Y := Y) fuel w job_id timeout =
  (polled w job_id 0 k, Raise e).
Proof.
  intros Hfuel Hpending Hk. unfold SailthruJobStream.get_job_url.
  replace fuel with (k + S (fuel - S k))%nat by lia.
  rewrite (get_job_url_from_pending w job_id timeout k 0%nat _
             (pending_within_from_zero w job_id timeout k Hpending)).
  cbn [Nat.add SailthruJobStream.get_job_url_from].
  rewrite Hk. unfold Comp.bind, Comp.call; cbn [fst snd].
  now rewrite app_nil_r.
Qed.

(** A loop over a generator that yields nothing passes the generator's
    effects on and leaves the loop variables alone. *)
Lemma for_each_no_yields {Y Y' S} (items : list (Comp.Item Y))
    (body : S -> Y -> Comp.t Y' S) (s : S) :
  Comp.yields items = [] ->
  Comp.for_each items (Ok tt) body s =
  (map Comp.Eff (Comp.effects items), Ok s).
Proof.
  induction items as [|[e|y] items IH]; intros H.
  - reflexivity.
  - cbn [Comp.for_each Comp.effects map]. rewrite (IH H). reflexivity.
  - discriminate.
Qed.

Lemma as_record_results_effects (items : list (Comp.Item Dict)) :
  Comp.effects (ListMemberStream.as_record_results items) =
  Comp.effects items /\
  Comp.yields (ListMemberStream.as_record_results items) =
  map ListMemberStream.Plain (Comp.yields items).
Proof.
  unfold ListMemberStream.as_record_results.
  induction items as [|[e|y] items [IH1 IH2]];
    cbn [map Comp.effects Comp.yields]; rewrite ?IH1, ?IH2;
    split; reflexivity.
Qed.

Section SkippedJobs.

Variables (self : Stream) (w : World) (fuel : nat).

(** [ListMemberStream.get_records] when the polling of the job fails with
    [MaxRetryError]. *)
Lemma list_members_get_records_unreachable (c : Dict)
    (list_name job_id : Value) (response : Dict) (k : nat) :
  lookup c "list_name" = Some list_name ->
  api_post w [("job", VStr "export_list_data"); ("list", list_name)]
    = Ok response ->
  lookup response "job_id" = Some job_id ->
  (k < fuel)%nat ->
  pending_within w job_id SailthruJobStream.default_timeout k ->
  poll_result (api_get w job_id k) = Raise MaxRetryError ->
  ListMemberStream.get_records self w fuel (Some c) =
  ((if truthy (get response "error")
    then [Comp.Eff (Log INFO (SkippingListName list_name))] else [])
   ++ polled w job_id 0 k ++ [Comp.Eff (Log INFO (SkippingList list_name))],
   Ok tt).
Proof.
  intros Hname Hpost Hjob Hfuel Hpending Hk.
  unfold ListMemberStream.get_records,
    ListMemberStream.prepare_request_payload, ctx_getitem, getitem.
  rewrite Hname.
  unfold Comp.bind, Comp.call, Comp.ret; cbn [fst snd app].
  rewrite Hpost; cbn [fst snd app]. rewrite Hjob; cbn [fst snd app].
  rewrite (get_job_url_poll_raises (Y := Dict) w job_id _ k fuel MaxRetryError
             Hfuel Hpending Hk).
  unfold Comp.try_except, Comp.log, Comp.emit;
    cbn [fst snd app is_MaxRetryError].
  destruct (truthy (get response "error")); cbn [fst snd app];
    rewrite ?app_nil_r; reflexivity.
Qed.

(** [BlastQueryStream.get_records] in the same situation. *)
Lemma blast_query_get_records_unreachable (c : Dict)
    (blast_id job_id : Value) (response : Dict) (k : nat) :
  lookup c "blast_id" = Some blast_id ->
  api_post w [("job", VStr "blast_query"); ("blast_id", blast_id)]
    = Ok response ->
  lookup response "job_id" = Some job_id ->
  (k < fuel)%nat ->
  pending_within w job_id SailthruJobStream.default_timeout k ->
  poll_result (api_get w job_id k) = Raise MaxRetryError ->
  BlastQueryStream.get_records self w fuel (Some c) =
  ((if truthy (get response "error")
    then [Comp.Eff (Log INFO (SkippingBlastId blast_id))] else [])
   ++ polled w job_id 0 k ++ [Comp.Eff (Log INFO (SkippingBlastId blast_id))],
   Ok tt).
Proof.
  intros Hname Hpost Hjob Hfuel Hpending Hk.
  unfold BlastQueryStream.get_records,
    BlastQueryStream.prepare_request_payload, ctx_getitem, getitem.
  rewrite Hname.
  unfold Comp.bind, Comp.call, Comp.ret; cbn [fst snd app].
  rewrite Hpost; cbn [fst snd app]. rewrite Hjob; cbn [fst snd app].
  rewrite (get_job_url_poll_raises (Y := Dict) w job_id _ k fuel MaxRetryError
             Hfuel Hpending Hk).
  unfold Comp.try_except, Comp.log, Comp.emit;
    cbn [fst snd app is_MaxRetryError].
  destruct (truthy (get response "error")); cbn [fst snd app];
    rewrite ?app_nil_r; reflexivity.
Qed.

End SkippedJobs.

Lemma yields_polled {Y : Type} (w : World) (job_id : Value) (k : nat) :
  forall n, Comp.yields (polled (Y := Y) w job_id n k) = [].
Proof. induction k as [|k IH]; intros n; cbn; auto. Qed.

Lemma yields_app {Y} (a b : list (Comp.Item Y)) :
  Comp.yields (a ++ b) = Comp.yields a ++ Comp.yields b.
Proof. induction a as [|[e|y] a IH]; cbn; rewrite ?IH; reflexivity. Qed.

(** A context whose generator ends normally without yielding is passed
    over: its effects are in the trace, the record count is unchanged, and
    the loop over the contexts goes on with the contexts after it. *)
Lemma sync_contexts_skipped {Y : Type} (self : Stream) (w : World)
    (fuel : nat) (c : Dict) (rest : list Dict) (acc : Store * Z)
    (tr : list (Comp.Item Dict)) :
  c <> [] ->
  ListMemberStream.get_records self w fuel (Some c) = (tr, Ok tt) ->
  Comp.yields tr = [] ->
  ListMemberStream.sync_contexts (Y := Y) self w fuel (c :: rest) acc =
  (map Comp.Eff (Comp.effects tr)
     ++ fst (ListMemberStream.sync_contexts (Y := Y) self w fuel rest
               (skipped_store self (fst acc) c, snd acc)),
   snd (ListMemberStream.sync_contexts (Y := Y) self w fuel rest
          (skipped_store self (fst acc) c, snd acc))).
Proof.
  intros Hc Hg Hy. cbn [ListMemberStream.sync_contexts].
  assert (Hctx : ListMemberStream.sync_context (Y := Y) self w fuel acc c =
                 (map Comp.Eff (Comp.effects tr),
                  Ok (skipped_store self (fst acc) c, snd acc))).
  { unfold ListMemberStream.sync_context,
      ListMemberStream.sync_record_results.
    destruct c as [|kv c]; [congruence|].
    rewrite Hg. cbn [fst snd].
    destruct (as_record_results_effects tr) as [He Hyr].
    rewrite for_each_no_yields by (rewrite Hyr, Hy; reflexivity).
    rewrite He. unfold Comp.bind; cbn [fst snd Comp.ret].
    rewrite app_nil_r. reflexivity. }
  rewrite Hctx. unfold Comp.bind; cbn [fst snd]. reflexivity.
Qed.

(** C6, as amended.  When the polling of a context's export job fails
    with [MaxRetryError], [get_records] catches it: it logs that the list
    (for a blast query, the blast) is skipped, yields no record and ends
    normally, and the loop over the contexts of the list-members stream
    goes on with the remaining contexts. *)
Theorem unreachable_job_skips_context :
  forall (Y : Type) (self : Stream) (w : World) (fuel : nat) (c : Dict)
         (list_name job_id : Value) (response : Dict) (k : nat),
    lookup c "list_name" = Some list_name ->
    api_post w [("job", VStr "export_list_data"); ("list", list_name)]
      = Ok response ->
    lookup response "job_id" = Some job_id ->
    (k < fuel)%nat ->
    pending_within w job_id SailthruJobStream.default_timeout k ->
    poll_result (api_get w job_id k) = Raise MaxRetryError ->
    let g := ListMemberStream.get_records self w fuel (Some c) in
    snd g = Ok tt
    /\ Comp.yields (fst g) = []
    /\ In (Comp.Eff (Log INFO (SkippingList list_name))) (fst g)
    /\ (forall (rest : list Dict) (acc : Store * Z),
          ListMemberStream.sync_contexts (Y := Y) self w fuel (c :: rest) acc
          =
          (map Comp.Eff (Comp.effects (fst g))
             ++ fst (ListMemberStream.sync_contexts (Y := Y) self w fuel rest
                       (skipped_store self (fst acc) c, snd acc)),
           snd (ListMemberStream.sync_contexts (Y := Y) self w fuel rest
                  (skipped_store self (fst acc) c, snd acc))))
    /\ (forall (b : Dict) (blast_id blast_job : Value) (answer : Dict)
               (j : nat),
          lookup b "blast_id" = Some blast_id ->
          api_post w [("job", VStr "blast_query"); ("blast_id", blast_id)]
            = Ok answer ->
          lookup answer "job_id" = Some blast_job ->
          (j < fuel)%nat ->
          pending_within w blast_job SailthruJobStream.default_timeout j ->
          poll_result (api_get w blast_job j) = Raise MaxRetryError ->
          let q := BlastQueryStream.get_records self w fuel (Some b) in
          snd q = Ok tt
          /\ Comp.yields (fst q) = []
          /\ In (Comp.Eff (Log INFO (SkippingBlastId blast_id))) (fst q)).
Proof.
  intros Y self w fuel c list_name job_id response k
    Hname Hpost Hjob Hfuel Hpending Hk g.
  pose proof (list_members_get_records_unreachable self w fuel c list_name
                job_id response k Hname Hpost Hjob Hfuel Hpending Hk) as Hg.
  fold g in Hg.
  assert (Hy : Comp.yields (fst g) = []).
  { rewrite Hg. cbn [fst]. rewrite !yields_app, yields_polled.
    destruct (truthy (get response "error")); reflexivity. }
  split; [now rewrite Hg|]. split; [exact Hy|]. split; [|split].
  - rewrite Hg. cbn [fst]. rewrite !in_app_iff. right. right. now left.
  - intros rest acc.
    apply sync_contexts_skipped.
    + intros ->. discriminate.
    + subst g. now destruct (ListMemberStream.get_records _ _ _ _) as [tr []];
        cbn in Hg |- *; inversion Hg; subst.
    + exact Hy.
  - intros b blast_id blast_job answer j Hb Hpost' Hjob' Hj Hpending' Hj' q.
    pose proof (blast_query_get_records_unreachable self w fuel b blast_id
                  blast_job answer j Hb Hpost' Hjob' Hj Hpending' Hj') as Hq.
    fold q in Hq. rewrite Hq. cbn [fst snd].
    split; [reflexivity|split].
    + rewrite !yields_app, yields_polled.
      destruct (truthy (get answer "error")); reflexivity.
    + rewrite !in_app_iff. right. right. now left.
Qed.

Lemma unreachable_job_skips_context_witness :
  snd (ListMemberStream.get_records SampleJobs.list_members
         SampleJobs.news_unreachable 10 (Some SampleJobs.news)) = Ok tt
  /\ Comp.yields
       (fst (ListMemberStream.get_records SampleJobs.list_members
               SampleJobs.news_unreachable 10 (Some SampleJobs.news))) = []
  /\ ListMemberStream.sync_contexts (Y := Empty_set) SampleJobs.list_members
       SampleJobs.news_unreachable 10 [SampleJobs.news; SampleJobs.offers]
       (SampleMembers.empty_store, 0) =
     (map Comp.Eff
        (Comp.effects
           (fst (ListMemberStream.get_records SampleJobs.list_members
                   SampleJobs.news_unreachable 10 (Some SampleJobs.news))))
        ++ fst (ListMemberStream.sync_contexts (Y := Empty_set)
                  SampleJobs.list_members SampleJobs.news_unreachable 10
                  [SampleJobs.offers]
                  (skipped_store SampleJobs.list_members
                     SampleMembers.empty_store SampleJobs.news, 0)),
      snd (ListMemberStream.sync_contexts (Y := Empty_set)
             SampleJobs.list_members SampleJobs.news_unreachable 10
             [SampleJobs.offers]
             (skipped_store SampleJobs.list_members
                SampleMembers.empty_store SampleJobs.news, 0))).
Proof.
  assert (Hp : pending_within SampleJobs.news_unreachable (VStr "news")
                 SailthruJobStream.default_timeout 1).
  { intros j Hj. destruct j as [|j]; [pending_case | lia]. }
  pose proof (unreachable_job_skips_context Empty_set SampleJobs.list_members
                SampleJobs.news_unreachable 10 SampleJobs.news (VStr "news")
                (VStr "news") [("job_id", VStr "news")] 1
                eq_refl eq_refl eq_refl ltac:(lia) Hp eq_refl)
    as [Hok [Hyields [_ [Hnext _]]]].
  split; [exact Hok|]. split; [exact Hyields|].
  exact (Hnext [SampleJobs.offers] (SampleMembers.empty_store, 0)).
Defined.

(** C6, as stated, fails for a job timeout: nothing catches
    [SailthruJobTimeoutError], so when the job of the first list times out
    the whole sync ends with that error and the second list, whose export
    holds a record, is never synced. *)
Lemma job_timeout_aborts_the_sync :
  snd (ListMemberStream._sync_records (Y := Empty_set)
         SampleJobs.list_members SampleJobs.news_times_out 400
         SampleMembers.empty_store None)
  = Raise SailthruJobTimeoutError
  /\ record_messages
       (fst (ListMemberStream._sync_records (Y := Empty_set)
               SampleJobs.list_members SampleJobs.news_times_out 400
               SampleMembers.empty_store None)) = []
  /\ length
       (record_messages
          (fst (ListMemberStream._sync_records (Y := Empty_set)
                  SampleJobs.list_members SampleJobs.news_times_out 400
                  SampleMembers.empty_store (Some SampleJobs.offers))))
     = 1%nat.
Proof. split; [|split]; vm_compute; reflexivity. Qed.

(** ** The default signup timestamp *)

Lemma yesterday_utc_later (now started : Z) :
  (yesterday_utc now >? yesterday_utc started)
  = (started / usec_per_day <? now / usec_per_day).
Proof.
  unfold yesterday_utc.
  set (a := now / usec_per_day). set (b := started / usec_per_day).
  unfold usec_per_day. rewrite Z.gtb_ltb.
  destruct (Z.ltb_spec b a); [apply Z.ltb_lt|apply Z.ltb_ge]; lia.
Qed.

(** A record with neither an explicit signup field nor a profile-creation
    field gets [pendulum.yesterday('UTC')] as read while it is processed,
    not the class attribute [signup_dt], which was read when the module
    was imported.  So, when its child context is derived, its children are
    synced exactly when it is processed on a later UTC day than the one
    the process started on. *)
Theorem list_signup_default_is_read_late :
  forall (Y : Type) (self : Stream) (w : World)
         (current_context state_partition_context : option Dict)
         (s : ListMemberStream.LoopState)
         (rr : ListMemberStream.RecordResult) (child : Dict) (started : Z),
    selectively_sync_children self = true ->
    signup_dt self = yesterday_utc started ->
    lookup (written state_partition_context rr) "list_signup" = None ->
    lookup (written state_partition_context rr) "profile_created_date"
      = None ->
    snd (ListMemberStream.get_child_context (Y := Y) (record_of rr)
           (ListMemberStream.child_context s)) = Ok child ->
    let now := now_at w (ListMemberStream.record_count s) in
    ListMemberStream.list_signup (Y := Y) w now
      (written state_partition_context rr)
    = ([], Ok (DateTime (yesterday_utc now)))
    /\ child_syncs
         (fst (ListMemberStream.sync_record (Y := Y) self w current_context
                 state_partition_context s rr))
       = if started / usec_per_day <? now / usec_per_day
         then [child] else [].
Proof.
  intros Y self w cc spc s rr child started Hsel Hdt H1 H2 Hc now.
  assert (Hs : ListMemberStream.list_signup (Y := Y) w now (written spc rr)
               = ([], Ok (DateTime (yesterday_utc now)))).
  { unfold ListMemberStream.list_signup, contains, getitem.
    rewrite H1, H2. reflexivity. }
  split; [exact Hs|].
  rewrite (child_syncs_sync_record (Y := Y) self w cc spc s rr).
  rewrite (prepare_record_derived self w spc s rr child (yesterday_utc now)
             Hc ltac:(subst now; rewrite Hs; reflexivity)).
  cbv zeta. unfold triggers.
  rewrite Hsel, Hdt, yesterday_utc_later. cbn [andb]. fold now.
  destruct (started / usec_per_day <? now / usec_per_day); reflexivity.
Qed.

(** On the day after the process started the children of an undated
    record are synced; on the day it started they are not. *)
Lemma list_signup_default_is_read_late_witness :
  child_syncs
    (fst (ListMemberStream.sync_record (Y := Empty_set)
            (SampleMembers.list_members true)
            (Sample.with_clock Sample.calm (fun _ => SampleMembers.next_day))
            SampleMembers.list_context SampleMembers.list_context
            SampleMembers.start
            (ListMemberStream.Plain SampleMembers.undated)))
  = [SampleMembers.child_of "p8"]
  /\ child_syncs
       (fst (ListMemberStream.sync_record (Y := Empty_set)
               (SampleMembers.list_members true) Sample.calm
               SampleMembers.list_context SampleMembers.list_context
               SampleMembers.start
               (ListMemberStream.Plain SampleMembers.undated)))
     = [].
Proof.
  split.
  - exact (proj2 (list_signup_default_is_read_late Empty_set
                    (SampleMembers.list_members true)
                    (Sample.with_clock Sample.calm
                       (fun _ => SampleMembers.next_day))
                    SampleMembers.list_context SampleMembers.list_context
                    SampleMembers.start
                    (ListMemberStream.Plain SampleMembers.undated)
                    (SampleMembers.child_of "p8") Sample.started
                    eq_refl eq_refl eq_refl eq_refl eq_refl)).
  - exact (proj2 (list_signup_default_is_read_late Empty_set
                    (SampleMembers.list_members true) Sample.calm
                    SampleMembers.list_context SampleMembers.list_context
                    SampleMembers.start
                    (ListMemberStream.Plain SampleMembers.undated)
                    (SampleMembers.child_of "p8") Sample.started
                    eq_refl eq_refl eq_refl eq_refl eq_refl)).
Defined.

(* ================================================================== *)
(** * Part III: further properties of the code                         *)
(* ================================================================== *)

(** ** [get_job_url] *)

Lemma get_job_url_from_returns {Y : Type} (w : World) (job_id : Value)
    (timeout : Z) (v : Value) : forall (fuel n : nat),
  snd (SailthruJobStream.get_job_url_from (Y := Y) fuel w job_id timeout n)
    = Ok v ->
  exists (m : nat) (response : Dict),
    (n <= m < n + fuel)%nat /\
    poll_result (api_get w job_id m) = Ok response /\
    get response "status" = VStr "completed" /\
    poll_elapsed (api_get w job_id m) <= timeout /\
    v = get response "export_url".
Proof.
  induction fuel as [|fuel IH]; intros n H; [discriminate|].
  cbn [SailthruJobStream.get_job_url_from] in H.
  unfold Comp.bind, Comp.call, Comp.log, Comp.emit in H; cbn [fst snd] in H.
  destruct (poll_result (api_get w job_id n)) as [response| |] eqn:Hr;
    cbn [fst snd] in H; try discriminate.
  destruct (poll_elapsed (api_get w job_id n) >? timeout) eqn:He;
    cbn [fst snd Comp.raise] in H; try discriminate.
  destruct (Value_eqb (get response "status") (VStr "completed")) eqn:Hs;
    cbn [fst snd Comp.ret] in H.
  - exists n, response.
    split; [lia|]. split; [assumption|]. split; [now apply Value_eqb_eq|].
    split; [|congruence].
    rewrite Z.gtb_ltb in He. now apply Z.ltb_ge.
  - destruct (IH (S n) H) as [m [r [Hm Hrest]]].
    exists m, r. split; [lia|exact Hrest].
Qed.

(** [get_job_url] returns nothing but the export location of a poll that
    said ['completed'] and was read within the timeout: however the polls
    go, it never returns for a job it has not seen completed. *)
Theorem get_job_url_returns_only_a_completed_export :
  forall (Y : Type) (fuel : nat) (w : World) (job_id : Value) (timeout : Z)
         (v : Value),
    snd (SailthruJobStream.get_job_url (Y := Y) fuel w job_id timeout) = Ok v ->
    exists (m : nat) (response : Dict),
      (m < fuel)%nat /\
      poll_result (api_get w job_id m) = Ok response /\
      get response "status" = VStr "completed" /\
      poll_elapsed (api_get w job_id m) <= timeout /\
      v = get response "export_url".
Proof.
  intros Y fuel w job_id timeout v H.
  destruct (get_job_url_from_returns w job_id timeout v fuel 0 H)
    as [m [response [Hm Hrest]]].
  exists m, response. split; [lia|exact Hrest].
Qed.

Lemma get_job_url_returns_only_a_completed_export_witness :
  exists (m : nat) (response : Dict),
    (m < 400)%nat /\
    poll_result (api_get Sample.four_polls (VStr "job-1") m) = Ok response /\
    get response "status" = VStr "completed" /\
    poll_elapsed (api_get Sample.four_polls (VStr "job-1") m) <= 600 /\
    VStr "https://export/1" = get response "export_url".
Proof.
  apply (get_job_url_returns_only_a_completed_export Empty_set 400
           Sample.four_polls (VStr "job-1") 600 (VStr "https://export/1")).
  vm_compute. reflexivity.
Defined.

(** A poll that says ['completed'] but is read after the timeout is a
    timeout all the same: the check of the elapsed time comes before the
    loop condition, and the export location is dropped. *)
Theorem get_job_url_late_completion_is_a_timeout :
  forall (Y : Type) (w : World) (job_id : Value) (timeout : Z)
         (k fuel : nat) (response : Dict),
    (k < fuel)%nat ->
    pending_within w job_id timeout k ->
    poll_result (api_get w job_id k) = Ok response ->
    get response "status" = VStr "completed" ->
    poll_elapsed (api_get w job_id k) > timeout ->
    snd (SailthruJobStream.get_job_url (Y := Y) fuel w job_id timeout)
      = Raise SailthruJobTimeoutError
    /\ In (Comp.Eff (Log INFO (JobReportStatus (VStr "completed"))))
          (fst (SailthruJobStream.get_job_url (Y := Y) fuel w job_id timeout)).
Proof.
  intros Y w job_id timeout k fuel response Hfuel Hpending Hk Hs He.
  unfold SailthruJobStream.get_job_url.
  replace fuel with (k + S (fuel - S k))%nat by lia.
  rewrite (get_job_url_from_pending w job_id timeout k 0%nat _
             (pending_within_from_zero w job_id timeout k Hpending)).
  cbn [Nat.add SailthruJobStream.get_job_url_from].
  rewrite Hk.
  assert (Hgt : (poll_elapsed (api_get w job_id k) >? timeout) = true)
    by (rewrite Z.gtb_ltb; apply Z.ltb_lt; lia).
  unfold Comp.bind, Comp.call, Comp.log, Comp.emit; cbn [fst snd].
  rewrite Hgt, Hs; cbn [fst snd app Comp.raise].
  split; [reflexivity|].
  apply in_or_app. right. now left.
Qed.

Lemma get_job_url_late_completion_is_a_timeout_witness :
  snd (SailthruJobStream.get_job_url (Y := Empty_set) 10
         SampleLate.completed_late (VStr "job-1")
         SailthruJobStream.default_timeout)
    = Raise SailthruJobTimeoutError
  /\ In (Comp.Eff (Log INFO (JobReportStatus (VStr "completed"))))
        (fst (SailthruJobStream.get_job_url (Y := Empty_set) 10
                SampleLate.completed_late (VStr "job-1")
                SailthruJobStream.default_timeout)).
Proof.
  apply (get_job_url_late_completion_is_a_timeout Empty_set
           SampleLate.completed_late (VStr "job-1")
           SailthruJobStream.default_timeout 0 10 Sample.completed_body).
  - lia.
  - intros j Hj. lia.
  - reflexivity.
  - reflexivity.
  - reflexivity.
Defined.

(** ** [get_records] *)

Lemma yields_get_job_url_from {Y : Type} (w : World) (job_id : Value)
    (timeout : Z) : forall (fuel n : nat),
  Comp.yields
    (fst (SailthruJobStream.get_job_url_from (Y := Y) fuel w job_id timeout n))
  = [].
Proof.
  induction fuel as [|fuel IH]; intros n; [reflexivity|].
  cbn [SailthruJobStream.get_job_url_from].
  unfold Comp.bind, Comp.call, Comp.log, Comp.emit; cbn [fst snd].
  destruct (poll_result (api_get w job_id n)) as [response| |];
    cbn [fst snd app Comp.yields]; try reflexivity.
  destruct (poll_elapsed (api_get w job_id n) >? timeout);
    cbn [fst snd app Comp.yields Comp.raise]; try reflexivity.
  destruct (Value_eqb (get response "status") (VStr "completed"));
    cbn [fst snd app Comp.yields Comp.ret]; [reflexivity|apply IH].
Qed.

Section GetRecords.

Variables (self : Stream) (w : World) (fuel : nat).

(** [ListMemberStream.get_records] by cases on what the job does. *)
Lemma list_members_get_records_cases (c : Dict) (list_name : Value)
    (response : Dict) :
  lookup c "list_name" = Some list_name ->
  api_post w [("job", VStr "export_list_data"); ("list", list_name)]
    = Ok response ->
  ListMemberStream.get_records self w fuel (Some c) =
  let head : list (Comp.Item Dict) :=
    if truthy (get response "error")
    then [Comp.Eff (Log INFO (SkippingListName list_name))] else [] in
  match lookup response "job_id" with
  | None => (head, Raise (KeyError "job_id"))
  | Some job_id =>
      let polling :=
        SailthruJobStream.get_job_url (Y := Dict) fuel w job_id
          SailthruJobStream.default_timeout in
      match snd polling with
      | Ok export_url =>
          match lookup c "list_id" with
          | Some list_id =>
              let streamed :=
                SailthruJobStream.process_job_csv_rows self
                  (ListMemberStream.post_process self)
                  (Some [("List Name", list_name); ("List Id", list_id);
                         ("Account Name", account_name self)])
                  (requests_get w export_url 0) in
              (head ++ fst polling ++ fst streamed, snd streamed)
          | None => (head ++ fst polling, Raise (KeyError "list_id"))
          end
      | Raise e =>
          if is_MaxRetryError e
          then (head ++ fst polling
                  ++ [Comp.Eff (Log INFO (SkippingList list_name))], Ok tt)
          else (head ++ fst polling, Raise e)
      | OutOfFuel => (head ++ fst polling, OutOfFuel)
      end
  end.
Proof.
  intros Hname Hpost.
  unfold ListMemberStream.get_records,
    ListMemberStream.prepare_request_payload, ctx_getitem, getitem.
  rewrite Hname.
  unfold Comp.bind, Comp.call, Comp.ret; cbn [fst snd app].
  rewrite Hpost; cbn [fst snd app].
  set (head := if truthy (get response "error") then _ else _).
  assert (Hhead : snd head = Ok tt /\
                  fst head =
                  if truthy (get response "error")
                  then [Comp.Eff (Log INFO (SkippingListName list_name))]
                  else [])
    by (subst head; destruct (truthy (get response "error")); now split).
  destruct Hhead as [Hh1 Hh2]. rewrite Hh1, Hh2. clear Hh1 Hh2 head.
  cbv zeta.
  destruct (lookup response "job_id") as [job_id|]; cbn [fst snd app].
  - destruct (SailthruJobStream.get_job_url fuel w job_id
                SailthruJobStream.default_timeout) as [tr [url|e|]];
      unfold Comp.try_except, Comp.log, Comp.emit; cbn [fst snd app].
    + destruct (lookup c "list_id") as [list_id|]; cbn [fst snd app].
      * unfold SailthruJobStream.yield_from_process_job_csv; cbn [fst snd app].
        rewrite !app_nil_r. reflexivity.
      * rewrite !app_nil_r. reflexivity.
    + destruct (is_MaxRetryError e); cbn [fst snd app];
        rewrite ?app_nil_r; reflexivity.
    + rewrite ?app_nil_r. reflexivity.
  - unfold Comp.try_except; cbn [fst snd app is_MaxRetryError].
    rewrite ?app_nil_r. reflexivity.
Qed.

End GetRecords.

Lemma polled_snoc {Y : Type} (w : World) (job_id : Value) (m : nat) :
  forall n,
    polled (Y := Y) w job_id n (S m) =
    polled w job_id n m ++
      [Comp.Eff (Log INFO (JobReportStatus
                   (get (poll_body w job_id (n + m)) "status")));
       Comp.Eff (Sleep 1)].
Proof.
  induction m as [|m IH]; intros n.
  - simpl. now rewrite Nat.add_0_r.
  - change (polled w job_id n (S (S m))) with
      (Comp.Eff (Log INFO (JobReportStatus
          (get (poll_body w job_id n) "status")))
       :: Comp.Eff (Sleep 1) :: polled (Y := Y) w job_id (S n) (S m)).
    rewrite IH. simpl. now replace (S (n + m)) with (n + S m)%nat by lia.
Qed.

(** A job seen completed within the timeout at its [k]-th poll. *)
Lemma get_job_url_completed {Y : Type} (w : World) (job_id : Value)
    (timeout : Z) (k fuel : nat) (response : Dict) :
  (k < fuel)%nat ->
  pending_within w job_id timeout k ->
  poll_result (api_get w job_id k) = Ok response ->
  get response "status" = VStr "completed" ->
  poll_elapsed (api_get w job_id k) <= timeout ->
  SailthruJobStream.get_job_url (Y := Y) fuel w job_id timeout =
  (polled w job_id 0 (S k), Ok (get response "export_url")).
Proof.
  intros Hfuel Hpending Hk Hs He. unfold SailthruJobStream.get_job_url.
  replace fuel with (k + S (fuel - S k))%nat by lia.
  rewrite (get_job_url_from_pending w job_id timeout k 0%nat _
             (pending_within_from_zero w job_id timeout k Hpending)).
  cbn [Nat.add SailthruJobStream.get_job_url_from].
  rewrite Hk.
  assert (Hgt : (poll_elapsed (api_get w job_id k) >? timeout) = false)
    by (rewrite Z.gtb_ltb; apply Z.ltb_ge; exact He).
  unfold Comp.bind, Comp.call, Comp.log, Comp.emit; cbn [fst snd].
  rewrite Hgt; cbn [fst snd].
  rewrite (proj2 (Value_eqb_eq _ _) Hs); cbn [fst snd Comp.ret app].
  rewrite polled_snoc. cbn [Nat.add]. unfold poll_body. rewrite Hk, Hs.
  reflexivity.
Qed.

(** [ListMemberStream.get_records] catches [MaxRetryError] and nothing
    else: any other exception that ends the polling, the job timeout
    included, leaves the generator before it has yielded a record. *)
Theorem list_members_get_records_lets_other_exceptions_out :
  forall (self : Stream) (w : World) (fuel : nat) (c : Dict)
         (list_name job_id : Value) (response : Dict)
         (tr : list (Comp.Item Dict)) (e : Exn),
    lookup c "list_name" = Some list_name ->
    api_post w [("job", VStr "export_list_data"); ("list", list_name)]
      = Ok response ->
    lookup response "job_id" = Some job_id ->
    SailthruJobStream.get_job_url (Y := Dict) fuel w job_id
      SailthruJobStream.default_timeout = (tr, Raise e) ->
    is_MaxRetryError e = false ->
    snd (ListMemberStream.get_records self w fuel (Some c)) = Raise e
    /\ Comp.yields (fst (ListMemberStream.get_records self w fuel (Some c)))
       = [].
Proof.
  intros self w fuel c list_name job_id response tr e
    Hname Hpost Hjob Hpoll He.
  rewrite (list_members_get_records_cases self w fuel c list_name response
             Hname Hpost).
  cbv zeta. rewrite Hjob, Hpoll; cbn [fst snd]. rewrite He; cbn [fst snd].
  split; [reflexivity|].
  rewrite yields_app.
  assert (Htr : Comp.yields tr = []).
  { pose proof (yields_get_job_url_from (Y := Dict) w job_id
                  SailthruJobStream.default_timeout fuel 0) as Hy.
    unfold SailthruJobStream.get_job_url in Hpoll. now rewrite Hpoll in Hy. }
  rewrite Htr. destruct (truthy (get response "error")); reflexivity.
Qed.

Lemma list_members_get_records_lets_other_exceptions_out_witness :
  snd (ListMemberStream.get_records SampleJobs.list_members
         SampleJobs.news_times_out 400 (Some SampleJobs.news))
    = Raise SailthruJobTimeoutError
  /\ Comp.yields
       (fst (ListMemberStream.get_records SampleJobs.list_members
               SampleJobs.news_times_out 400 (Some SampleJobs.news))) = [].
Proof.
  eapply (list_members_get_records_lets_other_exceptions_out
            SampleJobs.list_members SampleJobs.news_times_out 400
            SampleJobs.news (VStr "news") (VStr "news")
            [("job_id", VStr "news")]).
  - reflexivity.
  - reflexivity.
  - reflexivity.
  - vm_compute. reflexivity.
  - reflexivity.
Defined.

(** A refused submission is logged as skipped and then fails: the body of
    a refusal carries an error and no job id, and [response['job_id']] is
    read whether or not the error was logged, so [get_records] raises
    [KeyError] before it polls. *)
Theorem list_members_get_records_refused_submission :
  forall (self : Stream) (w : World) (fuel : nat) (c : Dict)
         (list_name : Value) (response : Dict),
    lookup c "list_name" = Some list_name ->
    api_post w [("job", VStr "export_list_data"); ("list", list_name)]
      = Ok response ->
    truthy (get response "error") = true ->
    lookup response "job_id" = None ->
    ListMemberStream.get_records self w fuel (Some c) =
    ([Comp.Eff (Log INFO (SkippingListName list_name))],
     Raise (KeyError "job_id")).
Proof.
  intros self w fuel c list_name response Hname Hpost Herr Hjob.
  rewrite (list_members_get_records_cases self w fuel c list_name response
             Hname Hpost).
  cbv zeta. now rewrite Hjob, Herr.
Qed.

Lemma list_members_get_records_refused_submission_witness :
  ListMemberStream.get_records SampleJobs.list_members SampleJobs.refused 10
    (Some SampleJobs.news) =
  ([Comp.Eff (Log INFO (SkippingListName (VStr "news")))],
   Raise (KeyError "job_id")).
Proof.
  apply (list_members_get_records_refused_submission
           SampleJobs.list_members SampleJobs.refused 10 SampleJobs.news
           (VStr "news")
           [("error", VInt 99);
            ("errormsg",
             VStr "You may not export a blast that has been sent")]);
    reflexivity.
Defined.

(** When the job is seen completed within the timeout at its [k]-th poll,
    [ListMemberStream.get_records] is the polling followed by the stream
    of the export at the location that poll gave, each row carrying the
    list name, the list id and the account name before it is
    post-processed. *)
Theorem list_members_get_records_streams_the_export :
  forall (self : Stream) (w : World) (fuel : nat) (c : Dict)
         (list_name list_id job_id : Value) (response body : Dict)
         (k : nat),
    lookup c "list_name" = Some list_name ->
    lookup c "list_id" = Some list_id ->
    api_post w [("job", VStr "export_list_data"); ("list", list_name)]
      = Ok response ->
    truthy (get response "error") = false ->
    lookup response "job_id" = Some job_id ->
    (k < fuel)%nat ->
    pending_within w job_id SailthruJobStream.default_timeout k ->
    poll_result (api_get w job_id k) = Ok body ->
    get body "status" = VStr "completed" ->
    poll_elapsed (api_get w job_id k) <= SailthruJobStream.default_timeout ->
    let streamed :=
      SailthruJobStream.process_job_csv_rows self
        (ListMemberStream.post_process self)
        (Some [("List Name", list_name); ("List Id", list_id);
               ("Account Name", account_name self)])
        (requests_get w (get body "export_url") 0) in
    ListMemberStream.get_records self w fuel (Some c) =
    (polled w job_id 0 (S k) ++ fst streamed, snd streamed).
Proof.
  intros self w fuel c list_name list_id job_id response body k
    Hname Hid Hpost Herr Hjob Hfuel Hpending Hk Hs He streamed.
  rewrite (list_members_get_records_cases self w fuel c list_name response
             Hname Hpost).
  cbv zeta. rewrite Hjob, Herr.
  rewrite (get_job_url_completed (Y := Dict) w job_id _ k fuel body
             Hfuel Hpending Hk Hs He).
  cbn [fst snd]. rewrite Hid. reflexivity.
Qed.

Lemma list_members_get_records_streams_the_export_witness :
  ListMemberStream.get_records SampleJobs.list_members
    SampleJobs.news_unreachable 10 (Some SampleJobs.offers) =
  (polled SampleJobs.news_unreachable (VStr "offers") 0 1
     ++ fst (SailthruJobStream.process_job_csv_rows SampleJobs.list_members
               (ListMemberStream.post_process SampleJobs.list_members)
               (Some [("List Name", VStr "offers"); ("List Id", VStr "l2");
                      ("Account Name", account_name SampleJobs.list_members)])
               (requests_get SampleJobs.news_unreachable
                  (get Sample.completed_body "export_url") 0)),
   snd (SailthruJobStream.process_job_csv_rows SampleJobs.list_members
          (ListMemberStream.post_process SampleJobs.list_members)
          (Some [("List Name", VStr "offers"); ("List Id", VStr "l2");
                 ("Account Name", account_name SampleJobs.list_members)])
          (requests_get SampleJobs.news_unreachable
             (get Sample.completed_body "export_url") 0))).
Proof.
  apply (list_members_get_records_streams_the_export
           SampleJobs.list_members SampleJobs.news_unreachable 10
           SampleJobs.offers (VStr "offers") (VStr "l2") (VStr "offers")
           [("job_id", VStr "offers")] Sample.completed_body 0);
    try reflexivity.
  - lia.
  - intros j Hj. lia.
  - vm_compute. discriminate.
Defined.

(** ** The rows of an export *)

(** The row [process_job_csv] yields for a decoded row. *)
Lemma yields_process_job_csv_rows (self : Stream)
    (post_process : Dict -> Dict) (parent_params : option Dict)
    (d : Download) :
  Comp.yields
    (fst (SailthruJobStream.process_job_csv_rows self post_process
            parent_params d)) =
  map (fun row =>
         let row := match parent_params with
                    | Some ((_ :: _) as params) => update row params
                    | _ => row
                    end in
         if String.eqb (name self) "list_members"
         then post_process row else row)
      (rows d).
Proof.
  rewrite process_job_csv_rows_spec. cbv zeta.
  assert (Hy : forall (l : list Dict),
            Comp.yields (map (Comp.Yield (Y := Dict)) l) = l).
  { induction l as [|x l IH]; cbn; [reflexivity|now rewrite IH]. }
  destruct (ending d) as [e|]; [destruct (is_ChunkedEncodingError e)|];
    cbn [fst]; rewrite ?yields_app, Hy; cbn [Comp.yields];
    rewrite ?app_nil_r; reflexivity.
Qed.

(** Iterating [process_job_csv] yields every row decoded before the
    download ended, once and in order.  A download cut short by
    [ChunkedEncodingError] ends the generator quietly, with one log line;
    any other exception of the download is raised after those rows. *)
Theorem process_job_csv_keeps_the_rows_read :
  forall (self : Stream) (w : World) (post_process : Dict -> Dict)
         (export_url : Value) (parent_params : option Dict) (n : nat),
    let d := requests_get w export_url n in
    let run :=
      fst (SailthruJobStream.yield_from_process_job_csv self w post_process
             export_url parent_params n) in
    Comp.yields (fst run) =
    map (fun row =>
           let row := match parent_params with
                      | Some ((_ :: _) as params) => update row params
                      | _ => row
                      end in
           if String.eqb (name self) "list_members"
           then post_process row else row)
        (rows d)
    /\ snd run =
       match ending d with
       | None => Ok tt
       | Some e => if is_ChunkedEncodingError e then Ok tt else Raise e
       end
    /\ Comp.effects (fst run) =
       match ending d with
       | Some ChunkedEncodingError => [Log INFO ChunkedEncodingStoppingEarly]
       | _ => []
       end.
Proof.
  intros self w post_process export_url parent_params n d run.
  assert (Hrun : run =
            SailthruJobStream.process_job_csv_rows self post_process
              parent_params d).
  { subst run d. unfold SailthruJobStream.yield_from_process_job_csv; cbn.
    now destruct (SailthruJobStream.process_job_csv_rows _ _ _ _). }
  rewrite Hrun. split; [|split].
  - apply yields_process_job_csv_rows.
  - rewrite process_job_csv_rows_spec. cbv zeta.
    destruct (ending d) as [e|]; [destruct (is_ChunkedEncodingError e)|];
      reflexivity.
  - rewrite process_job_csv_rows_spec. cbv zeta.
    assert (He : forall (l : list Dict),
              Comp.effects (map (Comp.Yield (Y := Dict)) l) = []).
    { induction l as [|x l IH]; cbn; [reflexivity|exact IH]. }
    assert (Happ : forall (a b : list (Comp.Item Dict)),
              Comp.effects (a ++ b) = Comp.effects a ++ Comp.effects b).
    { induction a as [|[x|x] a IH]; intros b; cbn; rewrite ?IH; reflexivity. }
    destruct (ending d) as [[]|]; cbn [is_ChunkedEncodingError fst];
      rewrite ?Happ, He; reflexivity.
Qed.

(** The parent parameters win: for a stream other than the list members,
    every row [process_job_csv] yields holds each parent parameter under
    its key, whatever the export had in a column of that name. *)
Theorem process_job_csv_parent_params_override_columns :
  forall (self : Stream) (post_process : Dict -> Dict) (params : Dict)
         (d : Download) (y : Dict) (k : string) (v : Value),
    String.eqb (name self) "list_members" = false ->
    NoDup (map fst params) ->
    In (k, v) params ->
    In y (Comp.yields
            (fst (SailthruJobStream.process_job_csv_rows self post_process
                    (Some params) d))) ->
    lookup y k = Some v.
Proof.
  intros self post_process params d y k v Hname Hnd Hin Hy.
  rewrite yields_process_job_csv_rows, Hname in Hy.
  apply in_map_iff in Hy. destruct Hy as [row [<- _]].
  destruct params as [|p params]; [contradiction|].
  cbv zeta. rewrite lookup_update.
  assert (Hrev : lookup (rev (p :: params)) k = Some v).
  { apply lookup_In_NoDup.
    - rewrite map_rev. now apply NoDup_rev.
    - now apply -> in_rev. }
  now rewrite Hrev.
Qed.

Lemma process_job_csv_parent_params_override_columns_witness :
  lookup
    (update [("profile_id", VStr "p1"); ("blast_id", VStr "from the export")]
       [("blast_id", VStr "b9"); ("account_name", VStr "acme")])
    "blast_id" = Some (VStr "b9").
Proof.
  apply (process_job_csv_parent_params_override_columns
           SampleExport.blast_query (fun row => row)
           [("blast_id", VStr "b9"); ("account_name", VStr "acme")]
           {| rows := [[("profile_id", VStr "p1");
                        ("blast_id", VStr "from the export")]];
              ending := None |}
           _ "blast_id" (VStr "b9") eq_refl).
  - repeat constructor; simpl; intuition discriminate.
  - now left.
  - now left.
Defined.

(** ** [ListMemberStream.post_process] *)

Lemma in_keys_In (keys : list string) (k : string) :
  in_keys keys k = true <-> In k keys.
Proof.
  unfold in_keys. rewrite existsb_exists. split.
  - intros [x [Hin Heq]]. apply String.eqb_eq in Heq. now subst.
  - intros Hin. exists k. split; [exact Hin|apply String.eqb_refl].
Qed.

Section PostProcess.

Variable schema : list string.

#[local] Abbreviation kept :=
  (fun (acc : Dict) (kv : string * Value) =>
     if in_keys schema (fst kv) then setitem acc (fst kv) (snd kv) else acc).

#[local] Abbreviation custom :=
  (fun (acc : list (string * string)) (kv : string * Value) =>
     if in_keys schema (fst kv) then acc
     else acc ++ [(fst kv, str (snd kv))]).

Lemma fold_custom (row : Dict) : forall acc,
  fold_left custom row acc =
  acc ++ map (fun kv => (fst kv, str (snd kv)))
           (filter (fun kv => negb (in_keys schema (fst kv))) row).
Proof.
  induction row as [|kv row IH]; intros acc; cbn [fold_left filter map].
  - now rewrite app_nil_r.
  - rewrite IH.
    destruct (in_keys schema (fst kv)); cbn [negb map];
      [reflexivity|now rewrite <- app_assoc].
Qed.

Lemma fold_kept_lookup (row : Dict) : forall acc k,
  lookup (fold_left kept row acc) k =
  match lookup (rev row) k with
  | Some v => if in_keys schema k then Some v else lookup acc k
  | None => lookup acc k
  end.
Proof.
  induction row as [|[k0 v0] row IH]; intros acc k; cbn [fold_left rev].
  - reflexivity.
  - rewrite IH, lookup_app. cbn [lookup].
    destruct (lookup (rev row) k) as [v|].
    + destruct (in_keys schema k) eqn:Hk; [reflexivity|].
      cbn [fst snd].
      destruct (in_keys schema k0) eqn:Hk0; [|reflexivity].
      rewrite lookup_setitem.
      destruct (String.eqb_spec k k0) as [->|_]; [congruence|reflexivity].
    + cbn [fst snd].
      destruct (String.eqb_spec k k0) as [->|Hne].
      * destruct (in_keys schema k0); [|reflexivity].
        now rewrite lookup_setitem, String.eqb_refl.
      * destruct (in_keys schema k0); [|reflexivity].
        rewrite lookup_setitem.
        destruct (String.eqb_spec k k0); [congruence|reflexivity].
Qed.

End PostProcess.

Lemma lookup_rev_NoDup (d : Dict) (k : string) :
  NoDup (map fst d) -> lookup (rev d) k = lookup d k.
Proof.
  intros Hnd. destruct (lookup d k) as [v|] eqn:E.
  - apply lookup_In_NoDup.
    + rewrite map_rev. now apply NoDup_rev.
    + apply -> in_rev. clear Hnd.
      induction d as [|[k0 v0] d IH]; [discriminate|].
      cbn [lookup] in E. destruct (String.eqb_spec k k0) as [->|_].
      * inversion E. now left.
      * right. now apply IH.
  - apply lookup_None_not_In. rewrite map_rev, <- in_rev.
    now apply lookup_None_not_In.
Qed.

(** [post_process] loses no column and invents none.  For a row with
    distinct columns: a column of the schema keeps its value; every other
    column, in the order of the row, is an entry of ['custom_vars'] under
    its name, with [str] of its value; and, ['custom_vars'] apart, the
    result has no key outside the schema.  A column that is itself
    called ['custom_vars'] is overwritten. *)
Theorem list_members_post_process_sorts_the_columns :
  forall (self : Stream) (row : Dict),
    NoDup (map fst row) ->
    let out := ListMemberStream.post_process self row in
    lookup out "custom_vars" =
      Some (VVars (map (fun kv => (fst kv, str (snd kv)))
                     (filter (fun kv => negb (in_keys (schema_keys self)
                                                (fst kv))) row)))
    /\ (forall k, k <> "custom_vars" ->
          in_keys (schema_keys self) k = true ->
          lookup out k = lookup row k)
    /\ (forall k, k <> "custom_vars" ->
          in_keys (schema_keys self) k = false ->
          lookup out k = None).
Proof.
  intros self row Hnd out. subst out.
  unfold ListMemberStream.post_process.
  rewrite (fold_custom (schema_keys self) row []). cbn [app].
  split; [|split].
  - now rewrite lookup_setitem, String.eqb_refl.
  - intros k Hk Hin. rewrite lookup_setitem.
    destruct (String.eqb_spec k "custom_vars"); [congruence|].
    rewrite (fold_kept_lookup (schema_keys self) row [] k).
    rewrite (lookup_rev_NoDup row k Hnd), Hin.
    now destruct (lookup row k).
  - intros k Hk Hin. rewrite lookup_setitem.
    destruct (String.eqb_spec k "custom_vars"); [congruence|].
    rewrite (fold_kept_lookup (schema_keys self) row [] k), Hin.
    now destruct (lookup (rev row) k).
Qed.

Lemma list_members_post_process_sorts_the_columns_witness :
  lookup
    (ListMemberStream.post_process (SampleMembers.list_members true)
       [("Profile Id", VStr "p1"); ("color", VStr "red"); ("age", VNone);
        ("List Id", VStr "l1")])
    "custom_vars" = Some (VVars [("color", "red"); ("age", "None")]).
Proof.
  apply (list_members_post_process_sorts_the_columns
           (SampleMembers.list_members true)
           [("Profile Id", VStr "p1"); ("color", VStr "red"); ("age", VNone);
            ("List Id", VStr "l1")]).
  repeat constructor; simpl; intuition discriminate.
Defined.

(** ** The record loop *)

Lemma add_state_context_lookup (ctx : Dict) : forall (record : Dict) k,
  lookup
    (fold_left
       (fun r kv => if contains r (fst kv) then r
                    else setitem r (fst kv) (snd kv))
       ctx record) k =
  match lookup record k with
  | Some v => Some v
  | None => lookup ctx k
  end.
Proof.
  induction ctx as [|[k0 v0] ctx IH]; intros record k; cbn [fold_left].
  - now destruct (lookup record k).
  - rewrite IH. cbn [fst snd lookup]. unfold contains.
    destruct (lookup record k0) as [w0|] eqn:E0.
    + destruct (lookup record k) as [v|] eqn:E; [reflexivity|].
      destruct (String.eqb_spec k k0) as [->|_]; [congruence|reflexivity].
    + rewrite lookup_setitem.
      destruct (String.eqb_spec k k0) as [->|_].
      * now rewrite E0.
      * reflexivity.
Qed.

(** Lines 531-534 add the state partition context to a record without
    touching what the record has: a key of the record keeps its value
    even when the context gives another, and a key the record lacks gets
    the context's value. *)
Theorem add_state_context_never_overwrites :
  forall (state_partition_context : option Dict) (record : Dict) (k : string),
    lookup (ListMemberStream.add_state_context state_partition_context record)
      k =
    match lookup record k with
    | Some v => Some v
    | None =>
        lookup (match state_partition_context with
                | Some d => d
                | None => []
                end) k
    end.
Proof.
  intros spc record k. unfold ListMemberStream.add_state_context.
  apply add_state_context_lookup.
Qed.

(** The signup timestamp is derived without a trace, and the only
    exception that can leave lines 537-554 is [TypeError] (a date field
    that is not a string): [KeyError] and [ValueError] are caught. *)
Theorem list_signup_raises_nothing_but_TypeError :
  forall (Y : Type) (w : World) (now : Z) (record : Dict),
    fst (ListMemberStream.list_signup (Y := Y) w now record) = []
    /\ ((exists ts,
           snd (ListMemberStream.list_signup (Y := Y) w now record) = Ok ts)
        \/ snd (ListMemberStream.list_signup (Y := Y) w now record)
           = Raise TypeError).
Proof.
  intros Y w now record. split; [apply silent_list_signup|].
  unfold ListMemberStream.list_signup, contains, getitem, len,
    pendulum_parse.
  destruct (lookup record "list_signup") as [[|s1|n1|l1]|];
    try destruct s1 as [|c1 s1]; try destruct l1 as [|x1 l1];
    cbn -[yesterday_utc parse]; try (now right);
    try (destruct (parse w _); cbn; left; eauto; fail);
    destruct (lookup record "profile_created_date") as [[|s2|n2|l2]|];
    try destruct s2 as [|c2 s2]; try destruct l2 as [|x2 l2];
    cbn -[yesterday_utc parse]; try (now right); try (left; eauto; fail);
    try (destruct (parse w _); cbn; left; eauto; fail);
    destruct (lookup record "signup_date") as [[|s3|n3|l3]|];
    cbn -[yesterday_utc parse]; try (now right); try (left; eauto; fail);
    try (destruct (parse w _); cbn; left; eauto; fail).
Qed.

(** A signup field whose text [pendulum.parse] reads as a duration or a
    period (['P1D']) is no date: the derivation returns it, and for a
    stream with selective child sync the comparison with the cutoff
    (line 555) raises [TypeError].  The loop over the records of the
    context ends there, with nothing in the trace for the record: no
    child is synced, the record is neither written nor counted, and no
    later record is processed. *)
Theorem signup_that_is_no_date_aborts_the_context :
  forall (Y : Type) (self : Stream) (w : World)
         (current_context state_partition_context : option Dict)
         (s : ListMemberStream.LoopState)
         (rr : ListMemberStream.RecordResult) (child : Dict) (text : string)
         (items : list (Comp.Item ListMemberStream.RecordResult))
         (final : Outcome unit),
    selectively_sync_children self = true ->
    snd (ListMemberStream.get_child_context (Y := Y) (record_of rr)
           (ListMemberStream.child_context s)) = Ok child ->
    lookup (written state_partition_context rr) "list_signup"
      = Some (VStr text) ->
    text <> "" ->
    parse w text = Some Span ->
    ListMemberStream.list_signup (Y := Y) w
      (now_at w (ListMemberStream.record_count s))
      (written state_partition_context rr) = ([], Ok Span)
    /\ ListMemberStream.sync_record_results (Y := Y) self w current_context
         state_partition_context (Comp.Yield rr :: items) final s
       = ([], Raise TypeError).
Proof.
  intros Y self w cc spc s rr child text items final Hsel Hc Hl Ht Hp.
  assert (Hs : ListMemberStream.list_signup (Y := Y) w
                 (now_at w (ListMemberStream.record_count s))
                 (written spc rr) = ([], Ok Span)).
  { unfold ListMemberStream.list_signup, contains, getitem, len,
      pendulum_parse.
    rewrite Hl. destruct text as [|c text]; [congruence|].
    cbn -[parse]. rewrite Hp. reflexivity. }
  split; [exact Hs|].
  unfold ListMemberStream.sync_record_results. cbn [Comp.for_each].
  unfold ListMemberStream.sync_record.
  rewrite (prepare_record_span self w spc s rr child Hc
             ltac:(rewrite Hs; reflexivity)).
  rewrite Hsel. reflexivity.
Qed.

Lemma signup_that_is_no_date_aborts_the_context_witness :
  ListMemberStream.sync_record_results (Y := Empty_set)
    (SampleMembers.list_members true) Sample.calm
    SampleMembers.list_context SampleMembers.list_context
    [Comp.Yield (ListMemberStream.Plain SampleMembers.lasting);
     Comp.Yield (ListMemberStream.Plain SampleMembers.recent)]
    (Ok tt) SampleMembers.start
  = ([], Raise TypeError).
Proof.
  apply (signup_that_is_no_date_aborts_the_context Empty_set
           (SampleMembers.list_members true) Sample.calm
           SampleMembers.list_context SampleMembers.list_context
           SampleMembers.start
           (ListMemberStream.Plain SampleMembers.lasting)
           (SampleMembers.child_of "p9") "P1D"
           [Comp.Yield (ListMemberStream.Plain SampleMembers.recent)]
           (Ok tt) eq_refl eq_refl eq_refl ltac:(discriminate) eq_refl).
Defined.

Lemma sync_record_counts {Y : Type} (self : Stream) (w : World)
    (current_context state_partition_context : option Dict)
    (s s1 : ListMemberStream.LoopState)
    (rr : ListMemberStream.RecordResult) :
  snd (ListMemberStream.sync_record (Y := Y) self w current_context
         state_partition_context s rr) = Ok s1 ->
  ListMemberStream.record_count s1 = ListMemberStream.record_count s + 1 /\
  ListMemberStream.partition_record_count s1 =
    ListMemberStream.partition_record_count s + 1.
Proof.
  unfold ListMemberStream.sync_record, Comp.bind.
  destruct (snd (ListMemberStream.prepare_record self w
                   state_partition_context s rr)) as [p| |];
    cbn [fst snd]; try discriminate.
  cbv zeta.
  destruct (selected self).
  - destruct (snd (ListMemberStream.write_record (Y := Y) self
                     current_context state_partition_context s (fst p)))
      as [st| |]; cbn [fst snd Comp.ret]; try discriminate.
    intros H. inversion H. split; reflexivity.
  - cbn [fst snd Comp.ret]. intros H. inversion H. split; reflexivity.
Qed.

(** When the loop over the records of a context ends normally, both
    counters have grown by the number of records the generator yielded,
    whether or not the stream is selected. *)
Theorem record_loop_counts_every_record :
  forall (Y : Type) (self : Stream) (w : World)
         (current_context state_partition_context : option Dict)
         (items : list (Comp.Item ListMemberStream.RecordResult))
         (final : Outcome unit) (s s' : ListMemberStream.LoopState),
    snd (ListMemberStream.sync_record_results (Y := Y) self w current_context
           state_partition_context items final s) = Ok s' ->
    ListMemberStream.record_count s' =
      ListMemberStream.record_count s
      + Z.of_nat (length (Comp.yields items))
    /\ ListMemberStream.partition_record_count s' =
         ListMemberStream.partition_record_count s
         + Z.of_nat (length (Comp.yields items)).
Proof.
  intros Y self w cc spc items final.
  unfold ListMemberStream.sync_record_results.
  induction items as [|[e|rr] items IH]; intros s s' H.
  - cbn in H. destruct final as [[]| |]; cbn in H; inversion H.
    cbn. split; lia.
  - cbn [Comp.for_each] in H. unfold Comp.bind, Comp.emit in H.
    cbn [fst snd] in H. cbn [Comp.yields]. now apply IH.
  - cbn [Comp.for_each] in H. unfold Comp.bind in H.
    destruct (snd (ListMemberStream.sync_record self w cc spc s rr))
      as [s1| |] eqn:Hstep; cbn [fst snd] in H; try discriminate.
    destruct (sync_record_counts self w cc spc s s1 rr Hstep) as [Hc Hp].
    destruct (IH s1 s' H) as [Hc' Hp'].
    cbn [Comp.yields length]. split; lia.
Qed.

Lemma record_loop_counts_every_record_witness :
  ListMemberStream.record_count
    {| ListMemberStream.store :=
         ListMemberStream.store SampleMembers.start;
       ListMemberStream.record_count := 2;
       ListMemberStream.partition_record_count := 2;
       ListMemberStream.child_context :=
         Some (SampleMembers.child_of "p4") |} =
  ListMemberStream.record_count SampleMembers.start
  + Z.of_nat
      (length
         (Comp.yields
            [Comp.Yield (ListMemberStream.Plain SampleMembers.recent);
             Comp.Yield (ListMemberStream.Plain SampleMembers.old)])).
Proof.
  apply (record_loop_counts_every_record Empty_set
           (SampleMembers.list_members false) Sample.calm
           SampleMembers.list_context SampleMembers.list_context
           [Comp.Yield (ListMemberStream.Plain SampleMembers.recent);
            Comp.Yield (ListMemberStream.Plain SampleMembers.old)]
           (Ok tt) SampleMembers.start).
  reflexivity.
Defined.

(** The list-members stream cannot be synced without a context: with no
    context and no partitions, or with an empty context, the loop runs
    once with [None] as the current context, and [get_records] raises
    [TypeError] at [context['list_name']] before anything is requested or
    written. *)
Theorem sync_records_without_a_context_raises :
  forall (Y : Type) (self : Stream) (w : World) (fuel : nat) (store0 : Store)
         (context : option Dict),
    context = Some [] \/
    (context = None /\ (partitions self = None \/ partitions self = Some [])) ->
    ListMemberStream._sync_records (Y := Y) self w fuel store0 context =
    ([], Raise TypeError).
Proof.
  intros Y self w fuel store0 context [->|[-> [Hp|Hp]]];
    unfold ListMemberStream._sync_records; rewrite ?Hp; reflexivity.
Qed.

Lemma sync_records_without_a_context_raises_witness :
  ListMemberStream._sync_records (Y := Empty_set)
    (SampleMembers.list_members true) Sample.calm 10
    SampleMembers.empty_store None =
  ([], Raise TypeError).
Proof.
  apply (sync_records_without_a_context_raises Empty_set
           (SampleMembers.list_members true) Sample.calm 10
           SampleMembers.empty_store None).
  right. split; [reflexivity|left; reflexivity].
Defined.

(** ** [request_records] *)

Lemma request_records_is_the_loop (fuel : nat) (w : World)
    (context : option Dict) (request : UserRequest) :
  snd (UsersStream.prepare_request_payload (Y := Dict) context VNone)
    = Ok request ->
  UsersStream.request_records fuel w context =
  UsersStream.request_records_from fuel w request 0 VNone.
Proof.
  intros Hreq.
  unfold UsersStream.request_records, UsersStream.request_records_body.
  unfold UsersStream.prepare_request_payload in *.
  unfold ctx_getitem, getitem in *.
  destruct context as [c|]; [|discriminate].
  destruct (lookup c "user_id"); [|discriminate].
  cbn in Hreq. injection Hreq as <-. cbn -[UsersStream.request_records_from].
  now destruct (UsersStream.request_records_from _ _ _ _ _).
Qed.

Lemma request_records_from_same_page (w : World) (request : UserRequest)
    (page : Dict) :
  (forall n, api_request w request n = Ok page) ->
  forall (fuel n : nat) (token : Value) (y : Dict),
    In y (Comp.yields
            (fst (UsersStream.request_records_from fuel w request n token)))
    -> y = page.
Proof.
  intros Hsame. induction fuel as [|fuel IH]; intros n token y Hin;
    [contradiction|].
  cbn [UsersStream.request_records_from] in Hin.
  rewrite (request_page_answered w request n token page (Hsame n)) in Hin.
  cbv zeta in Hin. unfold Comp.bind in Hin. cbn [fst snd] in Hin.
  destruct (truthy (get_next_page_token w page token)
            && Value_eqb (get_next_page_token w page token) token);
    cbn [fst snd] in Hin.
  - destruct Hin as [<-|[]]. reflexivity.
  - destruct (negb (truthy (get_next_page_token w page token)));
      cbn [fst snd Comp.ret app Comp.yields] in Hin.
    + destruct Hin as [<-|[]]. reflexivity.
    + destruct Hin as [<-|Hin]; [reflexivity|].
      exact (IH _ _ y Hin).
Qed.

(** The next-page token is never sent: the payload is built once, before
    the loop, and every request carries it.  So against an endpoint that
    answers equal requests equally every page the fetch yields is the
    first page, however the token is computed.  When the token is read off
    the response alone, the fetch cannot get past its second page: either
    the first page carries no token and the fetch ends after it, or the
    second page is the first again and the fetch raises [RuntimeError]
    after yielding the same page twice. *)
Theorem request_records_never_advances :
  forall (fuel : nat) (w : World) (context : option Dict)
         (request : UserRequest) (page : Dict),
    snd (UsersStream.prepare_request_payload (Y := Dict) context VNone)
      = Ok request ->
    (forall n, api_request w request n = Ok page) ->
    (forall y,
       In y (Comp.yields (fst (UsersStream.request_records fuel w context)))
       -> y = page)
    /\ ((2 <= fuel)%nat ->
        (forall previous,
           get_next_page_token w page previous
           = get_next_page_token w page VNone) ->
        UsersStream.request_records fuel w context =
        if truthy (get_next_page_token w page VNone)
        then ([Comp.Yield page; Comp.Yield page], Raise RuntimeError)
        else ([Comp.Yield page], Ok tt)).
Proof.
  intros fuel w context request page Hreq Hsame.
  rewrite (request_records_is_the_loop fuel w context request Hreq).
  split.
  - intros y. apply (request_records_from_same_page w request page Hsame).
  - intros Hfuel Htoken.
    destruct fuel as [|[|fuel]]; try lia.
    cbn [UsersStream.request_records_from].
    rewrite (request_page_answered w request 0 VNone page (Hsame 0%nat)).
    set (token := get_next_page_token w page VNone).
    destruct (truthy token) eqn:Ht.
    + assert (Hnone : Value_eqb token VNone = false)
        by (destruct token; [discriminate Ht|reflexivity..]).
      rewrite Hnone. unfold Comp.bind; cbn [fst snd andb negb].
      rewrite (request_page_answered w request 1 token page (Hsame 1%nat)).
      rewrite (Htoken token). fold token. rewrite Ht.
      assert (Heq : Value_eqb token token = true) by now apply Value_eqb_eq.
      rewrite Heq. reflexivity.
    + unfold Comp.bind; cbn [fst snd andb negb Comp.ret]. reflexivity.
Qed.

Lemma request_records_never_advances_witness :
  UsersStream.request_records 10 SampleExport.same_page
    SampleExport.user_context =
  (if truthy (get_next_page_token SampleExport.same_page
                (SampleExport.page "a") VNone)
   then ([Comp.Yield (SampleExport.page "a");
          Comp.Yield (SampleExport.page "a")], Raise RuntimeError)
   else ([Comp.Yield (SampleExport.page "a")], Ok tt))
  /\ forall y,
       In y (Comp.yields
               (fst (UsersStream.request_records 6 SampleExport.counting
                       SampleExport.user_context)))
       -> y = SampleExport.page "a".
Proof.
  split.
  - apply (request_records_never_advances 10 SampleExport.same_page
             SampleExport.user_context SampleExport.user_request
             (SampleExport.page "a") eq_refl).
    + reflexivity.
    + lia.
    + reflexivity.
  - apply (request_records_never_advances 6 SampleExport.counting
             SampleExport.user_context SampleExport.user_request
             (SampleExport.page "a") eq_refl).
    reflexivity.
Defined.

(** Against the same endpoint with a token that counts the pages, the
    fetch yields the first page again for as long as it is run. *)
Example request_records_counting_token :
  UsersStream.request_records 6 SampleExport.counting
    SampleExport.user_context =
  (repeat (Comp.Yield (SampleExport.page "a")) 6, OutOfFuel).
Proof. vm_compute. reflexivity. Qed.

(** A request that fails with anything but [SailthruClientError] ends the
    fetch with that exception, after the pages before it: the decorator
    that names [TimeoutError] wraps a generator function and never sees
    the exception, so a timeout is not retried. *)
Theorem request_records_does_not_retry_a_timeout :
  forall (fuel : nat) (w : World) (context : option Dict)
         (request : UserRequest) (k : nat) (e : Exn),
    snd (UsersStream.prepare_request_payload (Y := Dict) context VNone)
      = Ok request ->
    (k < fuel)%nat ->
    (forall j, (j < k)%nat ->
       (exists r, api_request w request j = Ok r) /\
       truthy (token_after w request j) = true /\
       Value_eqb (token_after w request j) (token_before w request j)
         = false) ->
    api_request w request k = Raise e ->
    is_SailthruClientError e = false ->
    UsersStream.request_records fuel w context =
    (pages w request 0 k, Raise e).
Proof.
  intros fuel w context request k e Hreq Hfuel Hpages Hk He.
  rewrite (request_records_is_the_loop fuel w context request Hreq).
  replace fuel with (k + S (fuel - S k))%nat by lia.
  change VNone with (token_before w request 0).
  rewrite (request_records_from_pages w request k 0 _ Hpages).
  cbn [Nat.add UsersStream.request_records_from].
  unfold UsersStream.request_page, Comp.try_except, Comp.bind, Comp.call;
    cbn [fst snd].
  rewrite Hk; cbn [fst snd]. rewrite He; cbn [fst snd].
  now rewrite app_nil_r.
Qed.

Lemma request_records_does_not_retry_a_timeout_witness :
  UsersStream.request_records 10 SampleExport.times_out_on_third
    SampleExport.user_context =
  (pages SampleExport.times_out_on_third SampleExport.user_request 0 2,
   Raise TimeoutError).
Proof.
  apply (request_records_does_not_retry_a_timeout 10
           SampleExport.times_out_on_third SampleExport.user_context
           SampleExport.user_request 2 TimeoutError eq_refl).
  - lia.
  - intros j Hj. destruct j as [|[|j]]; [| |lia];
      (split; [eexists; reflexivity|fresh_token_case]).
  - reflexivity.
  - reflexivity.
Defined.

(** ** [BlastQueryStream.get_records] *)

(** [BlastQueryStream.get_records] for a job seen completed within the
    timeout at its [k]-th poll. *)
Lemma blast_query_get_records_completed (self : Stream) (w : World)
    (fuel : nat) (c : Dict) (blast_id job_id : Value)
    (response body : Dict) (k : nat) :
  lookup c "blast_id" = Some blast_id ->
  api_post w [("job", VStr "blast_query"); ("blast_id", blast_id)]
    = Ok response ->
  lookup response "job_id" = Some job_id ->
  (k < fuel)%nat ->
  pending_within w job_id SailthruJobStream.default_timeout k ->
  poll_result (api_get w job_id k) = Ok body ->
  get body "status" = VStr "completed" ->
  poll_elapsed (api_get w job_id k) <= SailthruJobStream.default_timeout ->
  let streamed :=
    SailthruJobStream.process_job_csv_rows self (fun row => row)
      (Some [("blast_id", blast_id); ("account_name", account_name self)])
      (requests_get w (get body "export_url") 0) in
  BlastQueryStream.get_records self w fuel (Some c) =
  ((if truthy (get response "error")
    then [Comp.Eff (Log INFO (SkippingBlastId blast_id))] else [])
   ++ polled w job_id 0 (S k) ++ fst streamed, snd streamed).
Proof.
  intros Hname Hpost Hjob Hfuel Hpending Hk Hs He streamed.
  unfold BlastQueryStream.get_records,
    BlastQueryStream.prepare_request_payload, ctx_getitem, getitem.
  rewrite Hname.
  unfold Comp.bind, Comp.call, Comp.ret; cbn [fst snd app].
  rewrite Hpost; cbn [fst snd app]. rewrite Hjob; cbn [fst snd app].
  rewrite (get_job_url_completed (Y := Dict) w job_id _ k fuel body
             Hfuel Hpending Hk Hs He).
  unfold Comp.try_except, Comp.log, Comp.emit; cbn [fst snd app].
  unfold SailthruJobStream.yield_from_process_job_csv; cbn [fst snd app].
  fold streamed.
  destruct (truthy (get response "error")); cbn [fst snd app];
    rewrite ?app_nil_r; reflexivity.
Qed.

(** Every record of a blast query carries the blast id of its context and
    the account name of the configuration, whatever the export holds in
    columns of those names; the records are the rows of the export, in
    order. *)
Theorem blast_query_records_carry_the_blast_id :
  forall (self : Stream) (w : World) (fuel : nat) (c : Dict)
         (blast_id job_id : Value) (response body : Dict) (k : nat),
    String.eqb (name self) "list_members" = false ->
    lookup c "blast_id" = Some blast_id ->
    api_post w [("job", VStr "blast_query"); ("blast_id", blast_id)]
      = Ok response ->
    lookup response "job_id" = Some job_id ->
    (k < fuel)%nat ->
    pending_within w job_id SailthruJobStream.default_timeout k ->
    poll_result (api_get w job_id k) = Ok body ->
    get body "status" = VStr "completed" ->
    poll_elapsed (api_get w job_id k) <= SailthruJobStream.default_timeout ->
    let records :=
      Comp.yields (fst (BlastQueryStream.get_records self w fuel (Some c))) in
    length records =
      length (rows (requests_get w (get body "export_url") 0))
    /\ forall y, In y records ->
         lookup y "blast_id" = Some blast_id /\
         lookup y "account_name" = Some (account_name self).
Proof.
  intros self w fuel c blast_id job_id response body k
    Hself Hname Hpost Hjob Hfuel Hpending Hk Hs He records.
  assert (Hrec : records =
    map (fun row => update row [("blast_id", blast_id);
                                ("account_name", account_name self)])
        (rows (requests_get w (get body "export_url") 0))).
  { subst records.
    rewrite (blast_query_get_records_completed self w fuel c blast_id job_id
               response body k Hname Hpost Hjob Hfuel Hpending Hk Hs He).
    cbn [fst]. rewrite !yields_app, yields_polled.
    rewrite yields_process_job_csv_rows, Hself.
    destruct (truthy (get response "error")); reflexivity. }
  rewrite Hrec. split; [apply length_map|].
  intros y Hy. apply in_map_iff in Hy. destruct Hy as [row [<- _]].
  rewrite !lookup_update. cbn. split; reflexivity.
Qed.

Lemma blast_query_records_carry_the_blast_id_witness :
  length
    (Comp.yields
       (fst (BlastQueryStream.get_records SampleExport.blast_query
               SampleJobs.blast_export 10 (Some SampleJobs.blast)))) =
  length
    (rows (requests_get SampleJobs.blast_export
             (get Sample.completed_body "export_url") 0))
  /\ forall y,
       In y (Comp.yields
               (fst (BlastQueryStream.get_records SampleExport.blast_query
                       SampleJobs.blast_export 10 (Some SampleJobs.blast)))) ->
       lookup y "blast_id" = Some (VInt 4711) /\
       lookup y "account_name"
       = Some (account_name SampleExport.blast_query).
Proof.
  apply (blast_query_records_carry_the_blast_id SampleExport.blast_query
           SampleJobs.blast_export 10 SampleJobs.blast (VInt 4711)
           (VStr "job-1") [("job_id", VStr "job-1")] Sample.completed_body 0);
    try reflexivity.
  - lia.
  - intros j Hj. lia.
  - vm_compute. discriminate.
Defined.

(** ** Mappings with values of any type *)

Section MappingFacts.

Context {V : Type}.

Implicit Types (d : list (string * V)) (k : string) (v : V).

Lemma mapping_lookup_setitem d k k' v :
  Mapping.lookup (Mapping.setitem d k v) k' =
  if String.eqb k' k then Some v else Mapping.lookup d k'.
Proof.
  induction d as [|[k0 v0] d IH]; cbn.
  - reflexivity.
  - destruct (String.eqb k k0) eqn:Hk; cbn.
    + apply String.eqb_eq in Hk. subst k0.
      destruct (String.eqb k' k); reflexivity.
    + rewrite IH. destruct (String.eqb k' k0) eqn:Hk0; [|reflexivity].
      apply String.eqb_eq in Hk0. subst k0.
      rewrite String.eqb_sym, Hk. reflexivity.
Qed.

Lemma mapping_lookup_remove d k k' :
  Mapping.lookup (Mapping.remove d k) k' =
  if String.eqb k' k then None else Mapping.lookup d k'.
Proof.
  unfold Mapping.remove.
  induction d as [|[k0 v0] d IH]; cbn.
  - destruct (String.eqb k' k); reflexivity.
  - destruct (String.eqb k k0) eqn:Hk; cbn.
    + rewrite IH. apply String.eqb_eq in Hk. subst k0.
      destruct (String.eqb k' k); reflexivity.
    + rewrite IH. destruct (String.eqb k' k0) eqn:Hk0; [|reflexivity].
      apply String.eqb_eq in Hk0. subst k0.
      rewrite String.eqb_sym, Hk. reflexivity.
Qed.

Lemma mapping_setitem_absent d k v :
  Mapping.lookup d k = None -> Mapping.setitem d k v = d ++ [(k, v)].
Proof.
  induction d as [|[k0 v0] d IH]; cbn; [reflexivity|].
  destruct (String.eqb k k0); [discriminate|].
  intros H. rewrite (IH H). reflexivity.
Qed.

Lemma mapping_keys_setitem_present d k v v' :
  Mapping.lookup d k = Some v' ->
  Mapping.keys (Mapping.setitem d k v) = Mapping.keys d.
Proof.
  unfold Mapping.keys.
  induction d as [|[k0 v0] d IH]; cbn; [discriminate|].
  destruct (String.eqb k k0); [reflexivity|].
  intros H. cbn. rewrite (IH H). reflexivity.
Qed.

Lemma in_keys_mapping d k :
  in_keys (Mapping.keys d) k =
  match Mapping.lookup d k with Some _ => true | None => false end.
Proof.
  unfold in_keys, Mapping.keys.
  induction d as [|[k0 v0] d IH]; cbn; [reflexivity|].
  destruct (String.eqb k k0); [reflexivity|exact IH].
Qed.

Lemma mapping_remove_absent d k :
  Mapping.lookup d k = None -> Mapping.remove d k = d.
Proof.
  unfold Mapping.remove.
  induction d as [|[k0 v0] d IH]; cbn; [reflexivity|].
  destruct (String.eqb k k0); [discriminate|].
  intros H. cbn. rewrite (IH H). reflexivity.
Qed.

End MappingFacts.

(** ** [UsersStream.post_process] *)

(** The mapping under ['lists'] becomes an array with one
    [{'list_name': .., 'signup_time': ..}] per list, in the order of the
    mapping; the array is the last field of the row, and every other field
    stays where it was. *)
Theorem users_post_process_lists_become_an_array :
  forall (row : Row) (entries : list (string * Json.t)),
    Mapping.lookup row "lists" = Some (Json.Obj entries) ->
    UsersStream.post_process row =
    Pure.Done
      (Mapping.remove row "lists" ++
       [("lists",
         Json.Arr
           (map (fun kv => Json.Obj [("list_name", Json.Str (fst kv));
                                     ("signup_time", snd kv)])
                entries))]).
Proof.
  intros row entries H.
  unfold UsersStream.post_process.
  rewrite in_keys_mapping, H.
  unfold Pure.pop. rewrite H.
  destruct entries;
    cbn [Pure.bind fst snd Json.truthy Pure.items];
    (rewrite mapping_setitem_absent
       by (rewrite mapping_lookup_remove; reflexivity));
    reflexivity.
Qed.

Lemma users_post_process_lists_become_an_array_witness :
  UsersStream.post_process SampleRows.user =
  Pure.Done
    [("keys", Json.Obj [("sid", Json.Str "u1")]);
     ("optout_email", Json.Str "none");
     ("lists",
      Json.Arr
        [Json.Obj [("list_name", Json.Str "news");
                   ("signup_time", Json.Str "2024-06-01")];
         Json.Obj [("list_name", Json.Str "offers");
                   ("signup_time", Json.Str "2024-06-14")]])].
Proof.
  exact (users_post_process_lists_become_an_array SampleRows.user _
           eq_refl).
Defined.

(** [post_process] of a user raises in one case only: the row has a
    ['lists'] field that is truthy and not a mapping (a non-empty array or
    string, a number, [True]); the exception is [AttributeError].  A row
    without the field is returned as it is, and a falsy value ([None],
    [[]], [{}]) becomes the empty array. *)
Theorem users_post_process_raises_only_on_a_truthy_non_mapping :
  forall row : Row,
    match Mapping.lookup row "lists" with
    | None => UsersStream.post_process row = Pure.Done row
    | Some v =>
        if Json.truthy v then
          if is_mapping v
          then is_done (UsersStream.post_process row) = true
          else UsersStream.post_process row = Pure.Failed Pure.AttributeError
        else
          UsersStream.post_process row =
          Pure.Done (Mapping.remove row "lists" ++ [("lists", Json.Arr [])])
    end.
Proof.
  intros row.
  unfold UsersStream.post_process.
  rewrite in_keys_mapping. unfold Pure.pop.
  destruct (Mapping.lookup row "lists") as [v|] eqn:H; [|reflexivity].
  cbn [Pure.bind fst snd].
  destruct (Json.truthy v) eqn:Ht.
  - destruct v; try reflexivity.
  - cbn [Pure.bind].
    rewrite mapping_setitem_absent
      by (rewrite mapping_lookup_remove; reflexivity).
    reflexivity.
Qed.

(** ** [AccountsStream.post_process] *)

Lemma mapping_setitem_setitem {V : Type} (d : list (string * V))
    (k : string) (v v' : V) :
  Mapping.setitem (Mapping.setitem d k v) k v' = Mapping.setitem d k v'.
Proof.
  induction d as [|[k0 v0] d IH]; cbn.
  - rewrite String.eqb_refl. reflexivity.
  - destruct (String.eqb k k0) eqn:Hk; cbn; rewrite Hk;
      [reflexivity | rewrite IH; reflexivity].
Qed.

(** [post_process] of the account settings deletes the entry of the empty
    key from the mapping under ['domains'] and nothing else: the row keeps
    its fields and their order, the mapping keeps every other domain, and
    processing the row a second time changes nothing. *)
Theorem accounts_post_process_drops_only_the_empty_domain :
  forall (row : Row) (entries : list (string * Json.t)),
    Mapping.lookup row "domains" = Some (Json.Obj entries) ->
    let kept := Mapping.remove entries "" in
    let row' := Mapping.setitem row "domains" (Json.Obj kept) in
    AccountsStream.post_process row = Pure.Done row' /\
    Mapping.keys row' = Mapping.keys row /\
    (forall k, k <> "domains" ->
       Mapping.lookup row' k = Mapping.lookup row k) /\
    Mapping.lookup kept "" = None /\
    (forall k, k <> "" -> Mapping.lookup kept k = Mapping.lookup entries k) /\
    AccountsStream.post_process row' = Pure.Done row'.
Proof.
  intros row entries H kept row'.
  assert (Hkept : Mapping.lookup kept "" = None)
    by (unfold kept; rewrite mapping_lookup_remove; reflexivity).
  split; [|split; [|split; [|split; [|split]]]].
  - unfold AccountsStream.post_process, Pure.getitem.
    rewrite H. reflexivity.
  - apply (mapping_keys_setitem_present _ _ _ _ H).
  - intros k Hk. unfold row'. rewrite mapping_lookup_setitem.
    apply String.eqb_neq in Hk. rewrite Hk. reflexivity.
  - exact Hkept.
  - intros k Hk. unfold kept. rewrite mapping_lookup_remove.
    apply String.eqb_neq in Hk. rewrite Hk. reflexivity.
  - unfold AccountsStream.post_process, Pure.getitem, row'.
    rewrite mapping_lookup_setitem. cbn [String.eqb Ascii.eqb Bool.eqb].
    cbn [Pure.bind Pure.items].
    rewrite (mapping_remove_absent _ _ Hkept), mapping_setitem_setitem.
    reflexivity.
Qed.

Lemma accounts_post_process_drops_only_the_empty_domain_witness :
  AccountsStream.post_process SampleRows.settings =
  Pure.Done
    [("id", Json.Str "acct");
     ("domains",
      Json.Obj [("link", Json.Obj [("link.example.com", Json.Obj [])])]);
     ("from_emails", Json.Arr [Json.Str "news@example.com"])].
Proof.
  exact (proj1 (accounts_post_process_drops_only_the_empty_domain
                  SampleRows.settings _ eq_refl)).
Defined.

(** ** [parse_response] of the blasts and of the lists *)

Lemma yield_with_account_objects (account : Json.t) (rows : list Row) :
  forall rest,
    yield_with_account account (map Json.Obj rows ++ rest) =
    (map (fun row =>
            Comp.Yield (Mapping.setitem row "account_name" account)) rows
       ++ fst (yield_with_account account rest),
     snd (yield_with_account account rest)).
Proof.
  induction rows as [|row rows IH]; intros rest.
  - cbn [map app]. destruct (yield_with_account account rest); reflexivity.
  - cbn [map app yield_with_account].
    unfold Comp.bind, Comp.yield. cbn [fst snd app].
    rewrite IH. reflexivity.
Qed.

(** [parse_response] of the blasts and of the lists yields one row for
    each object of the collection, in the order of the API, and returns;
    every row carries the account name of the configuration, whatever the
    API sent under that name. *)
Theorem parse_response_yields_every_object_with_the_account :
  forall (self : Stream) (blasts lists : Row) (bs ls : list Row),
    Mapping.lookup blasts "blasts" = Some (Json.Arr (map Json.Obj bs)) ->
    Mapping.lookup lists "lists" = Some (Json.Arr (map Json.Obj ls)) ->
    let account := Json.of_value (account_name self) in
    let stamped :=
      map (fun row => Mapping.setitem row "account_name" account) in
    (BlastStream.parse_response self blasts =
       (map Comp.Yield (stamped bs), Ok tt)
     /\ ListStream.parse_response self lists =
       (map Comp.Yield (stamped ls), Ok tt))
    /\ forall row, In row (stamped bs ++ stamped ls) ->
         Mapping.lookup row "account_name" = Some account.
Proof.
  intros self blasts lists bs ls Hb Hl account stamped.
  split; [split|].
  - unfold BlastStream.parse_response, parse_collection.
    rewrite Hb. cbn [iterate].
    rewrite <- (app_nil_r (map Json.Obj bs)), yield_with_account_objects.
    cbn. rewrite app_nil_r. unfold stamped. rewrite map_map. reflexivity.
  - unfold ListStream.parse_response, parse_collection.
    rewrite Hl. cbn [iterate].
    rewrite <- (app_nil_r (map Json.Obj ls)), yield_with_account_objects.
    cbn. rewrite app_nil_r. unfold stamped. rewrite map_map. reflexivity.
  - intros row Hin. unfold stamped in Hin. rewrite <- map_app in Hin.
    apply in_map_iff in Hin. destruct Hin as [r [<- _]].
    rewrite mapping_lookup_setitem. reflexivity.
Qed.

Lemma parse_response_yields_every_object_with_the_account_witness :
  (BlastStream.parse_response SampleRows.blasts_stream SampleRows.blasts =
     ([Comp.Yield [("blast_id", Json.Int 4711);
                   ("name", Json.Str "June news");
                   ("account_name", Json.Str "acme")];
       Comp.Yield [("blast_id", Json.Int 4712);
                   ("name", Json.Str "June offers");
                   ("account_name", Json.Str "acme")]], Ok tt)
   /\ ListStream.parse_response SampleRows.lists_stream SampleRows.lists =
     ([Comp.Yield [("list_id", Json.Str "l1"); ("name", Json.Str "news");
                   ("account_name", Json.Str "acme")]], Ok tt)).
Proof.
  exact (proj1 (parse_response_yields_every_object_with_the_account
                  SampleRows.blasts_stream SampleRows.blasts SampleRows.lists
                  [SampleRows.blast_one; SampleRows.blast_two]
                  [SampleRows.list_one] eq_refl eq_refl)).
Defined.

(** An element of the collection that is not an object ends
    [parse_response] with [TypeError], after the rows before it have been
    yielded; the rows after it are lost. *)
Theorem parse_response_stops_at_the_first_non_object :
  forall (self : Stream) (blasts lists : Row) (bs ls : list Row)
         (bad_blast bad_list : Json.t) (rest_blasts rest_lists : list Json.t),
    is_mapping bad_blast = false ->
    is_mapping bad_list = false ->
    Mapping.lookup blasts "blasts"
      = Some (Json.Arr (map Json.Obj bs ++ bad_blast :: rest_blasts)) ->
    Mapping.lookup lists "lists"
      = Some (Json.Arr (map Json.Obj ls ++ bad_list :: rest_lists)) ->
    let account := Json.of_value (account_name self) in
    let stamped :=
      map (fun row => Mapping.setitem row "account_name" account) in
    BlastStream.parse_response self blasts =
      (map Comp.Yield (stamped bs), Raise TypeError)
    /\ ListStream.parse_response self lists =
      (map Comp.Yield (stamped ls), Raise TypeError).
Proof.
  intros self blasts lists bs ls bad_blast bad_list rest_blasts rest_lists
    Hbb Hbl Hb Hl account stamped.
  split.
  - unfold BlastStream.parse_response, parse_collection.
    rewrite Hb. cbn [iterate]. rewrite yield_with_account_objects.
    destruct bad_blast; try discriminate Hbb;
      cbn; rewrite app_nil_r; unfold stamped; rewrite map_map; reflexivity.
  - unfold ListStream.parse_response, parse_collection.
    rewrite Hl. cbn [iterate]. rewrite yield_with_account_objects.
    destruct bad_list; try discriminate Hbl;
      cbn; rewrite app_nil_r; unfold stamped; rewrite map_map; reflexivity.
Qed.

Lemma parse_response_stops_at_the_first_non_object_witness :
  BlastStream.parse_response SampleRows.blasts_stream
    SampleRows.broken_blasts =
    ([Comp.Yield [("blast_id", Json.Int 4711);
                  ("name", Json.Str "June news");
                  ("account_name", Json.Str "acme")]], Raise TypeError)
  /\ ListStream.parse_response SampleRows.lists_stream
       [("lists", Json.Arr [Json.Str "l1"])] = ([], Raise TypeError).
Proof.
  exact (parse_response_stops_at_the_first_non_object
           SampleRows.blasts_stream SampleRows.broken_blasts
           [("lists", Json.Arr [Json.Str "l1"])]
           [SampleRows.blast_one] [] Json.Null (Json.Str "l1")
           [Json.Obj SampleRows.blast_two] [] eq_refl eq_refl
           eq_refl eq_refl).
Defined.

(** ** The blocks of the stats [post_process] methods *)

Lemma traverse_labelled (label : string) (es : list (string * Json.t)) :
  forall arr,
    Pure.traverse (Pure.labelled label) es = Pure.Done arr ->
    Forall2
      (fun kv o =>
         exists d, snd kv = Json.Obj d /\
           o = Json.Obj (Mapping.update [(label, Json.Str (fst kv))] d))
      es arr.
Proof.
  induction es as [|kv es IH]; intros arr H; cbn in H.
  - injection H as <-. constructor.
  - unfold Pure.labelled at 1 in H.
    destruct (snd kv) as [| | | | |d] eqn:Hkv; try discriminate H.
    destruct (Pure.traverse (Pure.labelled label) es) as [ys|];
      [|discriminate H].
    injection H as <-. constructor; [|apply IH; reflexivity].
    exists d. split; [exact Hkv|reflexivity].
Qed.

Lemma labels_is_done (label : string) (es : list (string * Json.t)) :
  is_done (Block.labels label es) =
  forallb (fun kv => is_mapping (snd kv)) es.
Proof.
  unfold Block.labels.
  induction es as [|kv es IH]; cbn; [reflexivity|].
  unfold Pure.labelled at 1.
  destruct (snd kv); cbn; try reflexivity.
  rewrite <- IH.
  destruct (Pure.traverse (Pure.labelled label) es); reflexivity.
Qed.

Section Blocks.

Variable ks : list string.
Variable build : list (string * Json.t) -> Pure.Result (list Json.t).

(** What a block that returned has done. *)
Lemma in_place_done (key : string) (r r' : Row) :
  Block.in_place ks key build r = Pure.Done r' ->
  (forall k, k <> key -> Mapping.lookup r' k = Mapping.lookup r k) /\
  (if in_keys ks key
   then exists es arr,
          Mapping.lookup r key = Some (Json.Obj es) /\
          build es = Pure.Done arr /\
          Mapping.lookup r' key = Some (Json.Arr arr)
   else r' = r).
Proof.
  unfold Block.in_place. destruct (in_keys ks key).
  - unfold Pure.getitem.
    destruct (Mapping.lookup r key) as [v|] eqn:Hv; [|discriminate].
    cbn [Pure.bind].
    destruct v as [| | | | |es]; try discriminate.
    cbn [Pure.bind Pure.items].
    destruct (build es) as [arr|] eqn:Hb; [|discriminate].
    cbn [Pure.bind]. intros [= <-]. split.
    + intros k Hk. rewrite mapping_lookup_setitem.
      apply String.eqb_neq in Hk. rewrite Hk. reflexivity.
    + exists es, arr. rewrite mapping_lookup_setitem, String.eqb_refl.
      split; [reflexivity|split; [exact Hb|reflexivity]].
  - intros [= <-]. split; reflexivity.
Qed.

Lemma moved_done (key new_key : string) (r r' : Row) :
  Block.moved ks key new_key build r = Pure.Done r' ->
  (forall k, k <> key -> k <> new_key ->
     Mapping.lookup r' k = Mapping.lookup r k) /\
  (if in_keys ks key
   then exists es arr,
          Mapping.lookup r key = Some (Json.Obj es) /\
          build es = Pure.Done arr /\
          Mapping.lookup r' new_key = Some (Json.Arr arr) /\
          (key <> new_key -> Mapping.lookup r' key = None)
   else r' = r).
Proof.
  unfold Block.moved. destruct (in_keys ks key).
  - unfold Pure.pop.
    destruct (Mapping.lookup r key) as [v|] eqn:Hv; [|discriminate].
    cbn [Pure.bind fst snd].
    destruct v as [| | | | |es]; try discriminate.
    cbn [Pure.bind Pure.items].
    destruct (build es) as [arr|] eqn:Hb; [|discriminate].
    cbn [Pure.bind]. intros [= <-]. split.
    + intros k Hk Hn.
      rewrite mapping_lookup_setitem, mapping_lookup_remove.
      apply String.eqb_neq in Hk, Hn. rewrite Hk, Hn. reflexivity.
    + exists es, arr.
      split; [reflexivity|split; [exact Hb|split]].
      * rewrite mapping_lookup_setitem, String.eqb_refl. reflexivity.
      * intros Hd. rewrite mapping_lookup_setitem, mapping_lookup_remove.
        apply String.eqb_neq in Hd. rewrite Hd, String.eqb_refl.
        reflexivity.
  - intros [= <-]. split; reflexivity.
Qed.

(** When a block returns. *)
Lemma in_place_is_done (key : string) (r : Row) :
  is_done (Block.in_place ks key build r) =
  if in_keys ks key
  then match Mapping.lookup r key with
       | Some (Json.Obj es) => is_done (build es)
       | _ => false
       end
  else true.
Proof.
  unfold Block.in_place, Pure.getitem. destruct (in_keys ks key);
    [|reflexivity].
  destruct (Mapping.lookup r key) as [[| | | | |es]|]; try reflexivity.
  cbn [Pure.bind Pure.items]. destruct (build es); reflexivity.
Qed.

Lemma moved_is_done (key new_key : string) (r : Row) :
  is_done (Block.moved ks key new_key build r) =
  if in_keys ks key
  then match Mapping.lookup r key with
       | Some (Json.Obj es) => is_done (build es)
       | _ => false
       end
  else true.
Proof.
  unfold Block.moved, Pure.pop. destruct (in_keys ks key);
    [|reflexivity].
  destruct (Mapping.lookup r key) as [[| | | | |es]|]; try reflexivity.
  cbn [Pure.bind Pure.items fst snd]. destruct (build es); reflexivity.
Qed.

End Blocks.

Section BlocksOfARow.

(** The row [post_process] was called with; [r] is the row a block
    receives, which agrees with it on the key of the block. *)
Variable row : Row.

Lemma counts_in_place_accepts (key label : string) (r : Row) :
  Mapping.lookup r key = Mapping.lookup row key ->
  is_done
    (Block.in_place (Mapping.keys row) key (Block.counts label) r) =
  absent_or is_mapping (Mapping.lookup row key).
Proof.
  intros H. rewrite in_place_is_done, in_keys_mapping, H.
  destruct (Mapping.lookup row key) as [[| | | | |es]|]; reflexivity.
Qed.

Lemma values_moved_accepts (key new_key : string) (r : Row) :
  Mapping.lookup r key = Mapping.lookup row key ->
  is_done (Block.moved (Mapping.keys row) key new_key Block.values r) =
  absent_or is_mapping (Mapping.lookup row key).
Proof.
  intros H. rewrite moved_is_done, in_keys_mapping, H.
  destruct (Mapping.lookup row key) as [[| | | | |es]|]; reflexivity.
Qed.

Lemma labels_moved_accepts (key new_key label : string) (r : Row) :
  Mapping.lookup r key = Mapping.lookup row key ->
  is_done
    (Block.moved (Mapping.keys row) key new_key (Block.labels label) r) =
  absent_or mapping_of_mappings (Mapping.lookup row key).
Proof.
  intros H. rewrite moved_is_done, in_keys_mapping, H.
  destruct (Mapping.lookup row key) as [[| | | | |es]|]; try reflexivity.
  apply labels_is_done.
Qed.

(** The fields outside [touched] are those of [row]; a block adds its keys
    to [touched]. *)
Lemma frame_step (touched : list string) (key new_key : string)
    (r r' : Row) :
  (forall k, in_keys touched k = false ->
     Mapping.lookup r k = Mapping.lookup row k) ->
  (forall k, k <> key -> k <> new_key ->
     Mapping.lookup r' k = Mapping.lookup r k) ->
  forall k, in_keys (key :: new_key :: touched) k = false ->
    Mapping.lookup r' k = Mapping.lookup row k.
Proof.
  intros Hr Hstep k Hk. unfold in_keys in Hk. cbn [existsb] in Hk.
  apply Bool.orb_false_iff in Hk. destruct Hk as [Hkey Hk].
  apply Bool.orb_false_iff in Hk. destruct Hk as [Hnew Hk].
  apply String.eqb_neq in Hkey, Hnew.
  rewrite (Hstep k Hkey Hnew). apply Hr. exact Hk.
Qed.

Lemma frame_start :
  forall k, in_keys [] k = false ->
    Mapping.lookup row k = Mapping.lookup row k.
Proof. reflexivity. Qed.

Lemma in_keys_not_In (l : list string) (k : string) :
  ~ In k l -> in_keys l k = false.
Proof.
  intros H. unfold in_keys.
  destruct (existsb (String.eqb k) l) eqn:E; [|reflexivity].
  apply existsb_exists in E. destruct E as [x [Hin Hx]].
  apply String.eqb_eq in Hx. subst x. contradiction.
Qed.

End BlocksOfARow.

(** ** [ListStatsStream.post_process] *)

(** [post_process] of the statistics of a list returns exactly when
    ['signup_month'], if the row has it, is a mapping whose values are
    mappings, and ['source_count'], if the row has it, is a mapping; any
    other value there (an empty array in place of an empty mapping, say)
    makes it raise. *)
Theorem list_stats_post_process_returns_iff_mappings :
  forall row : Row,
    is_done (ListStatsStream.post_process row) =
    absent_or mapping_of_mappings (Mapping.lookup row "signup_month")
    && absent_or is_mapping (Mapping.lookup row "source_count").
Proof.
  intros row. unfold ListStatsStream.post_process. cbv zeta.
  pose proof (labels_moved_accepts row "signup_month" "signup_month"
                "signup_month" row eq_refl) as A1.
  destruct (Block.moved (Mapping.keys row) "signup_month" "signup_month"
              (Block.labels "signup_month") row) as [r1|e1] eqn:H1;
    cbn [is_done] in A1; rewrite <- A1; cbn [Pure.bind andb is_done];
    [|reflexivity].
  apply moved_done in H1. destruct H1 as [F1 _].
  apply counts_in_place_accepts. apply F1; discriminate.
Qed.

(** What [post_process] of the statistics of a list returns: the sources
    become an array of [{'source': .., 'count': ..}] in place, the months
    an array that holds, for each month, the fields of its mapping after
    the month itself under ['signup_month'] (a field of that name in the
    mapping replaces the month); every other field is the one of the
    row. *)
Theorem list_stats_post_process_reshapes_the_two_stats :
  forall row row' : Row,
    ListStatsStream.post_process row = Pure.Done row' ->
    (forall k, k <> "signup_month" -> k <> "source_count" ->
       Mapping.lookup row' k = Mapping.lookup row k)
    /\ (forall es,
          Mapping.lookup row "source_count" = Some (Json.Obj es) ->
          Mapping.lookup row' "source_count" =
          Some (Json.Arr (map (Pure.counted "source") es)))
    /\ (forall es,
          Mapping.lookup row "signup_month" = Some (Json.Obj es) ->
          exists arr,
            Mapping.lookup row' "signup_month" = Some (Json.Arr arr) /\
            Forall2
              (fun kv o =>
                 exists d, snd kv = Json.Obj d /\
                   o = Json.Obj
                         (Mapping.update
                            [("signup_month", Json.Str (fst kv))] d))
              es arr).
Proof.
  intros row row'. unfold ListStatsStream.post_process. cbv zeta.
  destruct (Block.moved (Mapping.keys row) "signup_month" "signup_month"
              (Block.labels "signup_month") row) as [r1|e1] eqn:H1;
    cbn [Pure.bind]; [|discriminate].
  intros H2.
  apply moved_done in H1. destruct H1 as [F1 S1].
  apply in_place_done in H2. destruct H2 as [F2 S2].
  rewrite in_keys_mapping in S1, S2.
  split; [|split].
  - intros k Hm Hs. rewrite (F2 k Hs). apply F1; assumption.
  - intros es Hes. rewrite Hes in S2.
    destruct S2 as [es' [arr [Hr1 [Hb Hr']]]].
    rewrite F1 in Hr1 by discriminate. rewrite Hes in Hr1.
    injection Hr1 as <-. unfold Block.counts in Hb.
    injection Hb as <-. exact Hr'.
  - intros es Hes. rewrite Hes in S1.
    destruct S1 as [es' [arr [Hr [Hb [Hr1 _]]]]].
    injection Hr as <-.
    exists arr. split.
    + rewrite F2 by discriminate. exact Hr1.
    + apply traverse_labelled. exact Hb.
Qed.

Lemma list_stats_post_process_reshapes_the_two_stats_witness :
  ListStatsStream.post_process SampleRows.list_stats =
    Pure.Done SampleRows.list_stats_processed
  /\ Mapping.lookup SampleRows.list_stats_processed "list_id"
     = Mapping.lookup SampleRows.list_stats "list_id"
  /\ Mapping.lookup SampleRows.list_stats_processed "source_count"
     = Some (Json.Arr (map (Pure.counted "source")
                         [("web", Json.Int 9); ("import", Json.Int 3)])).
Proof.
  split; [reflexivity|split].
  - apply (list_stats_post_process_reshapes_the_two_stats
             SampleRows.list_stats _ eq_refl);
      discriminate.
  - apply (list_stats_post_process_reshapes_the_two_stats
             SampleRows.list_stats _ eq_refl).
    reflexivity.
Defined.

(** ** [BlastStatsStream.post_process] *)

(** The next block of a [post_process] that returned has returned. *)
Ltac next_block H r E :=
  match type of H with
  | Pure.bind ?c _ = Pure.Done _ =>
      destruct c as [r|] eqn:E; cbn [Pure.bind] in H; [|discriminate H]
  end.

(** The next block of a [post_process] returns when [A] says so. *)
Ltac accept_block A r E :=
  match goal with
  | |- is_done (Pure.bind ?c _) = _ =>
      destruct c as [r|] eqn:E; cbn [is_done] in A; rewrite <- A;
      cbn [Pure.bind andb is_done]; [|reflexivity]
  end.

(** [post_process] of the statistics of a blast returns exactly when each
    of the seven stats it reshapes, if the row has it, is a mapping, and
    the values of ['domain'], ['subject'], ['urls'] and ['device'] are
    mappings too; any other value there (an empty array in place of an
    empty mapping, say) makes it raise. *)
Theorem blast_stats_post_process_returns_iff_mappings :
  forall row : Row,
    is_done (BlastStatsStream.post_process row) =
    absent_or is_mapping (Mapping.lookup row "beacon_times")
    && (absent_or is_mapping (Mapping.lookup row "click_times")
    && (absent_or mapping_of_mappings (Mapping.lookup row "domain")
    && (absent_or is_mapping (Mapping.lookup row "signup")
    && (absent_or mapping_of_mappings (Mapping.lookup row "subject")
    && (absent_or mapping_of_mappings (Mapping.lookup row "urls")
    && absent_or mapping_of_mappings (Mapping.lookup row "device")))))).
Proof.
  intros row. unfold BlastStatsStream.post_process. cbv zeta.
  pose proof (frame_start row) as G0.
  pose proof (counts_in_place_accepts row "beacon_times" "beacon_time" row
                (G0 "beacon_times" eq_refl)) as A1.
  accept_block A1 r1 E1.
  apply in_place_done in E1. destruct E1 as [F1 _].
  pose proof (frame_step row _ "beacon_times" "beacon_times" row r1 G0
                (fun k Hk _ => F1 k Hk)) as G1.
  pose proof (counts_in_place_accepts row "click_times" "click_time" r1
                (G1 "click_times" eq_refl)) as A2.
  accept_block A2 r2 E2.
  apply in_place_done in E2. destruct E2 as [F2 _].
  pose proof (frame_step row _ "click_times" "click_times" r1 r2 G1
                (fun k Hk _ => F2 k Hk)) as G2.
  pose proof (labels_moved_accepts row "domain" "domain_stats" "domain" r2
                (G2 "domain" eq_refl)) as A3.
  accept_block A3 r3 E3.
  apply moved_done in E3. destruct E3 as [F3 _].
  pose proof (frame_step row _ "domain" "domain_stats" r2 r3 G2 F3) as G3.
  pose proof (values_moved_accepts row "signup" "signup" r3
                (G3 "signup" eq_refl)) as A4.
  accept_block A4 r4 E4.
  apply moved_done in E4. destruct E4 as [F4 _].
  pose proof (frame_step row _ "signup" "signup" r3 r4 G3 F4) as G4.
  pose proof (labels_moved_accepts row "subject" "subject" "subject" r4
                (G4 "subject" eq_refl)) as A5.
  accept_block A5 r5 E5.
  apply moved_done in E5. destruct E5 as [F5 _].
  pose proof (frame_step row _ "subject" "subject" r4 r5 G4 F5) as G5.
  pose proof (labels_moved_accepts row "urls" "urls" "url" r5
                (G5 "urls" eq_refl)) as A6.
  accept_block A6 r6 E6.
  apply moved_done in E6. destruct E6 as [F6 _].
  pose proof (frame_step row _ "urls" "urls" r5 r6 G5 F6) as G6.
  exact (labels_moved_accepts row "device" "device_stats" "device" r6
           (G6 "device" eq_refl)).
Qed.

(** What the blocks of a [post_process] that returned have done to the
    fields of the row. *)
Lemma blast_stats_post_process_done (row row' : Row) :
  BlastStatsStream.post_process row = Pure.Done row' ->
  (forall k,
     in_keys ["beacon_times"; "click_times"; "domain"; "domain_stats";
              "signup"; "subject"; "urls"; "device"; "device_stats"] k
     = false ->
     Mapping.lookup row' k = Mapping.lookup row k)
  /\ Mapping.lookup row' "domain" = None
  /\ Mapping.lookup row' "device" = None
  /\ (forall es,
        Mapping.lookup row "domain" = Some (Json.Obj es) ->
        exists arr,
          Mapping.lookup row' "domain_stats" = Some (Json.Arr arr) /\
          Pure.traverse (Pure.labelled "domain") es = Pure.Done arr)
  /\ (forall es,
        Mapping.lookup row "device" = Some (Json.Obj es) ->
        exists arr,
          Mapping.lookup row' "device_stats" = Some (Json.Arr arr) /\
          Pure.traverse (Pure.labelled "device") es = Pure.Done arr).
Proof.
  intros H. unfold BlastStatsStream.post_process in H. cbv zeta in H.
  next_block H r1 E1. next_block H r2 E2. next_block H r3 E3.
  next_block H r4 E4. next_block H r5 E5. next_block H r6 E6.
  apply in_place_done in E1. destruct E1 as [F1 _].
  apply in_place_done in E2. destruct E2 as [F2 _].
  apply moved_done in E3. destruct E3 as [F3 S3].
  apply moved_done in E4. destruct E4 as [F4 _].
  apply moved_done in E5. destruct E5 as [F5 _].
  apply moved_done in E6. destruct E6 as [F6 _].
  apply moved_done in H. destruct H as [F7 S7].
  rewrite in_keys_mapping in S3, S7.
  assert (H2 : forall k, k <> "beacon_times" -> k <> "click_times" ->
                 Mapping.lookup r2 k = Mapping.lookup row k).
  { intros k Hb Hc. rewrite (F2 k Hc). apply F1. exact Hb. }
  assert (H6 : forall k, k <> "signup" -> k <> "subject" -> k <> "urls" ->
                 Mapping.lookup r6 k = Mapping.lookup r3 k).
  { intros k Hs Hj Hu.
    rewrite (F6 k Hu Hu), (F5 k Hj Hj). apply F4; exact Hs. }
  split; [|split; [|split; [|split]]].
  - intros k Hk. unfold in_keys in Hk. cbn [existsb] in Hk.
    repeat (apply Bool.orb_false_iff in Hk;
            let Hn := fresh "Hn" in destruct Hk as [Hn Hk];
            apply String.eqb_neq in Hn).
    rewrite F7, H6, F3, H2 by assumption. reflexivity.
  - rewrite F7, H6 by discriminate.
    destruct (Mapping.lookup row "domain") as [v|] eqn:Hd.
    + destruct S3 as [es [arr [_ [_ [_ Hnone]]]]].
      apply Hnone. discriminate.
    + subst r3. rewrite H2 by discriminate. exact Hd.
  - destruct (Mapping.lookup row "device") as [v|] eqn:Hd.
    + destruct S7 as [es [arr [_ [_ [_ Hnone]]]]].
      apply Hnone. discriminate.
    + subst row'. rewrite H6, F3, H2 by discriminate. exact Hd.
  - intros es Hes. rewrite Hes in S3.
    destruct S3 as [es' [arr [Hr [Hb [Hnew _]]]]].
    rewrite H2, Hes in Hr by discriminate. injection Hr as <-.
    exists arr. split; [|exact Hb].
    rewrite F7, H6 by discriminate. exact Hnew.
  - intros es Hes. rewrite Hes in S7.
    destruct S7 as [es' [arr [Hr [Hb [Hnew _]]]]].
    rewrite H6, F3, H2, Hes in Hr by discriminate. injection Hr as <-.
    exists arr. split; [exact Hnew|exact Hb].
Qed.

(** What [post_process] of the statistics of a blast returns: ['domain']
    and ['device'] are gone, their arrays stand under ['domain_stats'] and
    ['device_stats'] with one element per domain and device, which holds
    the fields of its mapping after the domain or device itself; the
    fields that are none of the stats are those of the row. *)
Theorem blast_stats_post_process_renames_domain_and_device :
  forall row row' : Row,
    BlastStatsStream.post_process row = Pure.Done row' ->
    (forall k,
       ~ In k ["beacon_times"; "click_times"; "domain"; "domain_stats";
               "signup"; "subject"; "urls"; "device"; "device_stats"] ->
       Mapping.lookup row' k = Mapping.lookup row k)
    /\ Mapping.lookup row' "domain" = None
    /\ Mapping.lookup row' "device" = None
    /\ forall label es,
         In label ["domain"; "device"] ->
         Mapping.lookup row label = Some (Json.Obj es) ->
         exists arr,
           Mapping.lookup row' (label ++ "_stats") = Some (Json.Arr arr) /\
           Forall2
             (fun kv o =>
                exists d, snd kv = Json.Obj d /\
                  o = Json.Obj
                        (Mapping.update [(label, Json.Str (fst kv))] d))
             es arr.
Proof.
  intros row row' H.
  destruct (blast_stats_post_process_done row row' H)
    as [Hframe [Hdomain [Hdevice [Hdomains Hdevices]]]].
  split; [|split; [|split]].
  - intros k Hk. apply Hframe. apply in_keys_not_In. exact Hk.
  - exact Hdomain.
  - exact Hdevice.
  - intros label es [<-|[<-|[]]] Hes.
    + destruct (Hdomains es Hes) as [arr [Hl Ht]].
      exists arr. split; [exact Hl|apply traverse_labelled; exact Ht].
    + destruct (Hdevices es Hes) as [arr [Hl Ht]].
      exists arr. split; [exact Hl|apply traverse_labelled; exact Ht].
Qed.

Lemma blast_stats_post_process_renames_domain_and_device_witness :
  BlastStatsStream.post_process SampleRows.blast_stats =
    Pure.Done SampleRows.blast_stats_processed
  /\ Mapping.lookup SampleRows.blast_stats_processed "domain" = None
  /\ Mapping.lookup SampleRows.blast_stats_processed "blast_id"
     = Mapping.lookup SampleRows.blast_stats "blast_id".
Proof.
  split; [reflexivity|split].
  - apply (blast_stats_post_process_renames_domain_and_device
             SampleRows.blast_stats _ eq_refl).
  - apply (blast_stats_post_process_renames_domain_and_device
             SampleRows.blast_stats _ eq_refl).
    cbn. intros H.
    repeat (destruct H as [H|H]; [discriminate H|]). exact H.
Defined.

(** ** From [parse_response] to [post_process] in the stats streams *)

Lemma list_stats_post_process_frame (row row' : Row) :
  ListStatsStream.post_process row = Pure.Done row' ->
  forall k, k <> "signup_month" -> k <> "source_count" ->
    Mapping.lookup row' k = Mapping.lookup row k.
Proof.
  intros H. unfold ListStatsStream.post_process in H. cbv zeta in H.
  next_block H r1 E1.
  apply moved_done in E1. destruct E1 as [F1 _].
  apply in_place_done in H. destruct H as [F2 _].
  intros k Hm Hs. rewrite (F2 k Hs). apply F1; assumption.
Qed.

(** The record of the statistics of a blast, and of a list, carries the
    id of its parent from the context and the account name of the
    configuration, whatever the API sent under those names:
    [parse_response] yields one row, with both set, and [post_process]
    leaves them as they are. *)
Theorem stats_records_carry_the_parent_id :
  forall (self : Stream) (blast_body list_body : Row) (c c' : Dict)
         (blast_id list_id : Value),
    lookup c "blast_id" = Some blast_id ->
    lookup c' "list_id" = Some list_id ->
    let account := Json.of_value (account_name self) in
    let blast_row :=
      Mapping.setitem (Mapping.setitem blast_body "account_name" account)
        "blast_id" (Json.of_value blast_id) in
    let list_row :=
      Mapping.setitem (Mapping.setitem list_body "account_name" account)
        "list_id" (Json.of_value list_id) in
    BlastStatsStream.parse_response self blast_body (Some c)
      = ([Comp.Yield blast_row], Ok tt)
    /\ ListStatsStream.parse_response self list_body (Some c')
      = ([Comp.Yield list_row], Ok tt)
    /\ (forall row',
          BlastStatsStream.post_process blast_row = Pure.Done row' ->
          Mapping.lookup row' "blast_id" = Some (Json.of_value blast_id) /\
          Mapping.lookup row' "account_name" = Some account)
    /\ (forall row',
          ListStatsStream.post_process list_row = Pure.Done row' ->
          Mapping.lookup row' "list_id" = Some (Json.of_value list_id) /\
          Mapping.lookup row' "account_name" = Some account).
Proof.
  intros self blast_body list_body c c' blast_id list_id Hb Hl
    account blast_row list_row.
  split; [|split; [|split]].
  - unfold BlastStatsStream.parse_response, ctx_getitem, getitem.
    rewrite Hb. reflexivity.
  - unfold ListStatsStream.parse_response, ctx_getitem, getitem.
    rewrite Hl. reflexivity.
  - intros row' H.
    destruct (blast_stats_post_process_done _ _ H) as [Hframe _].
    rewrite !Hframe by reflexivity. unfold blast_row.
    rewrite !mapping_lookup_setitem. split; reflexivity.
  - intros row' H.
    rewrite !(list_stats_post_process_frame _ _ H) by discriminate.
    unfold list_row. rewrite !mapping_lookup_setitem. split; reflexivity.
Qed.

Lemma stats_records_carry_the_parent_id_witness :
  BlastStatsStream.parse_response SampleRows.blast_stats_stream
    SampleRows.blast_stats_body (Some SampleRows.blast_record)
  = ([Comp.Yield [("count", Json.Int 10); ("blast_id", Json.Int 4711);
                  ("signup", Json.Obj []);
                  ("account_name", Json.Str "acme")]], Ok tt)
  /\ ListStatsStream.parse_response SampleRows.blast_stats_stream
       SampleRows.list_stats_body (Some SampleRows.list_record)
     = ([Comp.Yield [("count", Json.Int 12); ("source_count", Json.Obj []);
                     ("account_name", Json.Str "acme");
                     ("list_id", Json.Str "l1")]], Ok tt).
Proof.
  pose proof (stats_records_carry_the_parent_id
                SampleRows.blast_stats_stream SampleRows.blast_stats_body
                SampleRows.list_stats_body SampleRows.blast_record
                SampleRows.list_record (VInt 4711) (VStr "l1")
                eq_refl eq_refl) as H.
  exact (conj (proj1 H) (proj1 (proj2 H))).
Defined.

(** ** The contexts the parent streams hand to their children *)

Lemma mapping_lookup_dict (d : Dict) (k : string) :
  Mapping.lookup d k = lookup d k.
Proof.
  induction d as [|[k0 v0] d IH]; cbn; [reflexivity|].
  rewrite IH. reflexivity.
Qed.

(** Whenever [get_child_context] of the lists returns for a record, the
    requests of both children can be prepared from the context and name
    the list of the record; and whenever [get_child_context] of the list
    members returns for a row, the request for the user can be prepared
    and asks for the profile id of the row by ['sid']. *)
Theorem list_contexts_serve_the_children :
  forall (record member : Dict) (context context' : option Dict)
         (c c' : Dict) (trace : list (Comp.Item Dict))
         (next_page_token : Value),
    ListStream.get_child_context (Y := Dict) record context = Comp.ret c ->
    ListMemberStream.get_child_context (Y := Dict) member context'
      = (trace, Ok c') ->
    ListStatsStream.prepare_request_payload (Y := Row) (Some c)
      = Comp.ret [("stat", VStr "list"); ("list", get record "name")]
    /\ ListMemberStream.prepare_request_payload (Y := Dict) (Some c)
      = Comp.ret [("job", VStr "export_list_data");
                  ("list", get record "name")]
    /\ lookup c "list_id" = lookup record "list_id"
    /\ exists request,
         UsersStream.prepare_request_payload (Y := Dict) (Some c')
           next_page_token = Comp.ret request
         /\ request_id request = get member "Profile Id"
         /\ request_key request = "sid".
Proof.
  intros record member context context' c c' trace next_page_token Hc Hc'.
  unfold ListStream.get_child_context in Hc.
  unfold Comp.ret, Comp.raise in Hc. unfold get.
  destruct (Mapping.lookup record "list_id") as [list_id|] eqn:Hid;
    [|discriminate Hc].
  destruct (Mapping.lookup record "name") as [list_name|] eqn:Hname;
    [|discriminate Hc].
  rewrite mapping_lookup_dict in Hid, Hname. rewrite Hid, Hname.
  injection Hc as <-.
  split; [reflexivity|split; [reflexivity|split; [reflexivity|]]].
  unfold ListMemberStream.get_child_context, getitem in Hc'.
  destruct (lookup member "List Id") as [lid|];
    [|cbn in Hc'; discriminate Hc'].
  destruct (lookup member "Profile Id") as [uid|];
    [|cbn in Hc'; discriminate Hc'].
  destruct (lookup member "List Name") as [n1|];
    [|destruct (lookup member "Name") as [n2|]];
    cbn in Hc'; injection Hc' as _ <-;
    (eexists; split; [reflexivity|split; reflexivity]).
Qed.

Lemma list_contexts_serve_the_children_witness :
  ListStatsStream.prepare_request_payload (Y := Row)
    (Some [("list_id", VStr "l1"); ("list_name", VStr "news")])
  = Comp.ret [("stat", VStr "list"); ("list", VStr "news")]
  /\ ListMemberStream.prepare_request_payload (Y := Dict)
       (Some [("list_id", VStr "l1"); ("list_name", VStr "news")])
     = Comp.ret [("job", VStr "export_list_data"); ("list", VStr "news")].
Proof.
  pose proof (list_contexts_serve_the_children
                SampleRows.list_record SampleMembers.no_profile_date
                None None
                [("list_id", VStr "l1"); ("list_name", VStr "news")]
                (SampleMembers.child_of "p1") [] VNone
                eq_refl eq_refl) as H.
  exact (conj (proj1 H) (proj1 (proj2 H))).
Defined.

(** Whenever [get_child_context] of the blasts returns for a record, the
    requests of both children can be prepared from the context and carry
    the blast id of the record. *)
Theorem blast_contexts_serve_the_children :
  forall (record : Dict) (context : option Dict) (c : Dict),
    BlastStream.get_child_context (Y := Dict) record context = Comp.ret c ->
    (exists payload,
       BlastStatsStream.prepare_request_payload (Y := Row) (Some c)
         = Comp.ret payload
       /\ lookup payload "stat" = Some (VStr "blast")
       /\ lookup payload "blast_id" = lookup record "blast_id")
    /\ BlastQueryStream.prepare_request_payload (Y := Dict) (Some c)
       = Comp.ret [("job", VStr "blast_query");
                   ("blast_id", get record "blast_id")].
Proof.
  intros record context c Hc.
  unfold BlastStream.get_child_context, Comp.ret, Comp.raise in Hc.
  unfold get.
  destruct (Mapping.lookup record "blast_id") as [blast_id|] eqn:Hid;
    [|discriminate Hc].
  rewrite mapping_lookup_dict in Hid. rewrite Hid.
  injection Hc as <-.
  split; [|reflexivity].
  eexists. split; [reflexivity|split; reflexivity].
Qed.

Lemma blast_contexts_serve_the_children_witness :
  BlastQueryStream.prepare_request_payload (Y := Dict)
    (Some [("blast_id", VInt 4711)])
  = Comp.ret [("job", VStr "blast_query"); ("blast_id", VInt 4711)].
Proof.
  exact (proj2 (blast_contexts_serve_the_children SampleRows.blast_record
                  None [("blast_id", VInt 4711)] eq_refl)).
Defined.
